(** * bokio-vab: XML codec wrappers, path accessor, schema validator and
      case reconciler, embedded from the TypeScript sources.

    - [src/utils/xmlUtils.ts]     parseXML, generateXML, extractFromXML
    - [src/utils/xmlValidator.ts] getTextContent, validateXML
    - [src/pages/index.tsx]       extractArendeInformation, generateModifiedXML,
                                  handleFranvaroUpdate
    - [src/components/ArendeList.tsx] handleAddFranvaro, handleRemoveFranvaro
    - [src/components/FranvaroForm.tsx] validateForm

    The program manipulates untyped ([any]) JavaScript values, so the
    embedding starts with a small model of those values and of the handful
    of language operations the sources use.  Code that may throw returns a
    [result]; the [xml-js] package, which is not part of the repository,
    is a parameter of the functions that call it. *)

From Stdlib Require Import ZArith List String Ascii Bool Lia.
Import ListNotations.
Open Scope string_scope.
Open Scope Z_scope.
Set Warnings "-register-all".

(* ================================================================== *)
(** * The JavaScript fragment used by the sources *)
(* ================================================================== *)

Module Js.

(** Numbers.  A JavaScript number is a double.  The numbers the program
    computes are integers (an array index, a length, the result of
    [parseInt], a maximum, a successor), [NaN] from a failed [parseInt],
    or an infinity: [-Infinity] is where [Math.max] starts, [Infinity]
    is [parseInt] of a numeral beyond the largest double.  [Int z] is
    the double whose value is the integer [z].  Every integer of
    magnitude up to [2^53] is a double; beyond that only the multiples
    of a power of two are, and [round_to_double] below gives the nearest
    one, as [parseInt] and [+] do.  The two zeros are not told apart:
    nothing the sources do with a number (a test for truth, a maximum, a
    successor, printing) distinguishes them. *)
Inductive number : Type :=
| NaN
| NegInf
| PosInf
| Int (z : Z).

(** The two numbers within reach of a property read that are not
    integers: [Number.EPSILON] and [Number.MIN_VALUE]. *)
Inductive fraction : Type :=
| EPSILON
| MIN_VALUE.

(** The prototype objects that are not functions. *)
Inductive prototype : Type :=
| ObjectPrototype
| ArrayPrototype
| StringPrototype
| NumberPrototype
| BooleanPrototype.

(** Values.  Objects are association lists in property order (the order
    [for..in] and the spread syntax enumerate); arrays are lists.  A string
    is written as a Rocq string, one character per code unit.  [Builtin]
    is a built-in function, with its [name] and its [length]: a method
    such as [toString], a constructor such as [Object], and, without a
    name, [Function.prototype].  [Proto] is one of the other prototype
    objects. *)
Inductive value : Type :=
| Undefined
| Null
| Bool (b : bool)
| Num (n : number)
| Str (s : string)
| Arr (items : list value)
| Obj (fields : list (string * value))
| Builtin (name : string) (arity : Z)
| Proto (p : prototype)
| Frac (f : fraction).

Inductive exn : Type :=
| TypeError (message : string)
| Error (message : string).

Definition exn_message (e : exn) : string :=
  match e with
  | TypeError m => m
  | Error m => m
  end.

(** A computation either completes with a value or throws. *)
Inductive result (A : Type) : Type :=
| Ok (a : A)
| Throw (e : exn).

Arguments Ok {A} a.

Arguments Throw {A} e.

Definition bind {A B} (m : result A) (k : A -> result B) : result B :=
  match m with
  | Ok a => k a
  | Throw e => Throw e
  end.

(** [try { body } catch (error) { handler }] *)
Definition try_catch {A} (body : result A) (handler : exn -> result A)
  : result A :=
  match body with
  | Ok a => Ok a
  | Throw e => handler e
  end.

(** ToBoolean *)
Definition truthy (v : value) : bool :=
  match v with
  | Undefined | Null => false
  | Bool b => b
  | Num NaN => false
  | Num NegInf | Num PosInf => true
  | Num (Int z) => negb (z =? 0)
  | Str s => negb (s =? "")%string
  | Arr _ | Obj _ | Builtin _ _ | Proto _ | Frac _ => true
  end.

Definition falsy (v : value) : bool := negb (truthy v).

Definition nullish (v : value) : bool :=
  match v with
  | Undefined | Null => true
  | _ => false
  end.

Definition isArray (v : value) : bool :=
  match v with
  | Arr _ | Proto ArrayPrototype => true
  | _ => false
  end.

Definition is_string (v : value) : bool :=
  match v with
  | Str _ => true
  | _ => false
  end.

Definition is_function (v : value) : bool :=
  match v with
  | Builtin _ _ => true
  | _ => false
  end.

(** ** Decimal digits *)

Definition is_digit (c : ascii) : bool :=
  let n := nat_of_ascii c in (48 <=? n)%nat && (n <=? 57)%nat.

Definition digit_value (c : ascii) : Z := Z.of_nat (nat_of_ascii c) - 48.

Definition digit_char (d : Z) : ascii := ascii_of_nat (Z.to_nat (48 + d)).

(** Value of the longest prefix of decimal digits, continuing from [acc]. *)
Fixpoint digits_value (acc : Z) (s : string) : Z :=
  match s with
  | String c rest =>
      if is_digit c then digits_value (10 * acc + digit_value c) rest else acc
  | EmptyString => acc
  end.

(** Decimal digits of a non-negative integer, most significant first. *)
Fixpoint digits_of (fuel : nat) (n : Z) (acc : string) : string :=
  match fuel with
  | O => acc
  | S fuel' =>
      let acc' := String (digit_char (n mod 10)) acc in
      if n <? 10 then acc' else digits_of fuel' (n / 10) acc'
  end.

Definition decimal (n : Z) : string :=
  digits_of (S (Z.to_nat (Z.log2 n))) n "".

(** ** Doubles *)

(** The double nearest to the integer [z], ties to the even significand:
    [z] itself up to [2^53]; beyond, [z] is cut to 53 significant bits
    [q] times [2^e] and rounded on the rest [r]; [2^1024] and more
    overflow to an infinity. *)
Definition round_to_double (z : Z) : number :=
  let a := Z.abs z in
  if a <=? 2 ^ 53 then Int z
  else
    let e := Z.log2 a - 52 in
    let q := a / 2 ^ e in
    let r := a mod 2 ^ e in
    let half := 2 ^ (e - 1) in
    let q' :=
      if (half <? r) || ((r =? half) && Z.odd q) then q + 1 else q in
    let m := q' * 2 ^ e in
    if 2 ^ 1024 <=? m then (if z <? 0 then NegInf else PosInf)
    else Int (Z.sgn z * m).

(** The integer [y] rounds to the double [x]. *)
Definition rounds_to (y x : Z) : bool :=
  match round_to_double y with
  | Int z => z =? x
  | _ => false
  end.

(** Number::toString for a double [x] above [2^53], which has [n]
    decimal digits: the fewest digits [s] (there are [k] of them) such
    that [s * 10^(n - k)] rounds to [x]; of two candidates the nearer to
    [x], the even one if they are as near. *)
Fixpoint shortest_digits (fuel : nat) (k n x : Z) : Z * Z :=
  match fuel with
  | O => (x, n)
  | S fuel' =>
      let p := 10 ^ (n - k) in
      let low := x / p in
      let high := low + 1 in
      let low_ok := rounds_to (low * p) x in
      let high_ok := (high <? 10 ^ k) && rounds_to (high * p) x in
      let nearer_low :=
        (x - low * p <? high * p - x)
        || ((x - low * p =? high * p - x) && Z.even low) in
      if low_ok && (negb high_ok || nearer_low) then (low, k)
      else if high_ok then (high, k)
      else shortest_digits fuel' (k + 1) n x
  end.

Fixpoint zeros (n : nat) : string :=
  match n with
  | O => ""
  | S n' => String "0" (zeros n')
  end.

(** The digits are followed by zeros up to 21 places; a longer number is
    written with an exponent. *)
Definition large_to_string (x : Z) : string :=
  let digits := Z.of_nat (String.length (decimal x)) in
  let '(s, k, n) :=
    if rounds_to (10 ^ digits) x then (1, 1, digits + 1)
    else
      let '(s, k) := shortest_digits (Z.to_nat digits) 1 digits x in
      (s, k, digits) in
  if n <=? 21 then decimal s ++ zeros (Z.to_nat (n - k))
  else
    match decimal s with
    | String c EmptyString => String c ("e+" ++ decimal (n - 1))
    | String c rest => String c ("." ++ rest ++ "e+" ++ decimal (n - 1))
    | EmptyString => "0"
    end.

Definition magnitude_to_string (a : Z) : string :=
  if a <=? 2 ^ 53 then decimal a else large_to_string a.

(** Number.prototype.toString (radix 10) *)
Definition number_to_string (n : number) : string :=
  match n with
  | NaN => "NaN"
  | NegInf => "-Infinity"
  | PosInf => "Infinity"
  | Int z =>
      if z <? 0 then "-" ++ magnitude_to_string (- z)
      else magnitude_to_string z
  end.

(** ToString *)
Fixpoint to_string (v : value) : string :=
  match v with
  | Undefined => "undefined"
  | Null => "null"
  | Bool true => "true"
  | Bool false => "false"
  | Num n => number_to_string n
  | Str s => s
  | Arr items =>
      (* Array.prototype.join(","): null and undefined print as nothing *)
      (fix join (l : list value) : string :=
         match l with
         | [] => ""
         | x :: rest =>
             let sx := if nullish x then "" else to_string x in
             match rest with
             | [] => sx
             | _ :: _ => sx ++ "," ++ join rest
             end
         end) items
  | Obj _ => "[object Object]"
  | Builtin name _ => "function " ++ name ++ "() { [native code] }"
  | Proto ObjectPrototype => "[object Object]"
  | Proto ArrayPrototype => ""
  | Proto StringPrototype => ""
  | Proto NumberPrototype => "0"
  | Proto BooleanPrototype => "false"
  | Frac EPSILON => "2.220446049250313e-16"
  | Frac MIN_VALUE => "5e-324"
  end.

(** ** Property lookup *)

Fixpoint assoc {V : Type} (k : string) (fields : list (string * V)) : option V :=
  match fields with
  | [] => None
  | (k', v) :: rest => if (k' =? k)%string then Some v else assoc k rest
  end.

(** The canonical numeric strings "0", "1", "2", ... below [2^32 - 1]:
    the keys under which array elements and string characters are
    stored. *)
Definition array_index (k : string) : option nat :=
  match k with
  | EmptyString => None
  | String c rest =>
      if forallb is_digit (list_ascii_of_string k)
         && ((rest =? "")%string || negb (Ascii.eqb c "0"))
         && (digits_value 0 k <? 2 ^ 32 - 1)
      then Some (Z.to_nat (digits_value 0 k))
      else None
  end.

(** *** The built-in objects

    A property that a value does not own is looked up along its
    prototype chain.  What is found there are the built-in objects of
    ECMAScript 2024: the prototype objects of Object, Function, Array,
    String, Number and Boolean, the six constructors, and the functions
    that these hold. *)

Definition fn (name : string) (arity : Z) : string * value :=
  (name, Builtin name arity).

Definition object_prototype_members : list (string * value) :=
  [ ("constructor", Builtin "Object" 1);
    fn "__defineGetter__" 2; fn "__defineSetter__" 2;
    fn "hasOwnProperty" 1; fn "__lookupGetter__" 1; fn "__lookupSetter__" 1;
    fn "isPrototypeOf" 1; fn "propertyIsEnumerable" 1; fn "toString" 0;
    fn "valueOf" 0; fn "toLocaleString" 0 ].

Definition function_prototype_members : list (string * value) :=
  [ fn "apply" 2; fn "bind" 1; fn "call" 1; fn "toString" 0;
    ("constructor", Builtin "Function" 1) ].

Definition array_prototype_members : list (string * value) :=
  [ ("length", Num (Int 0)); ("constructor", Builtin "Array" 1);
    fn "at" 1; fn "concat" 1; fn "copyWithin" 2; fn "fill" 1; fn "find" 1;
    fn "findIndex" 1; fn "findLast" 1; fn "findLastIndex" 1;
    fn "lastIndexOf" 1; fn "pop" 0; fn "push" 1; fn "reverse" 0;
    fn "shift" 0; fn "unshift" 1; fn "slice" 2; fn "sort" 1; fn "splice" 2;
    fn "includes" 1; fn "indexOf" 1; fn "join" 1; fn "keys" 0;
    fn "entries" 0; fn "values" 0; fn "forEach" 1; fn "filter" 1;
    fn "flat" 0; fn "flatMap" 1; fn "map" 1; fn "every" 1; fn "some" 1;
    fn "reduce" 1; fn "reduceRight" 1; fn "toLocaleString" 0;
    fn "toString" 0; fn "toReversed" 0; fn "toSorted" 1; fn "toSpliced" 2;
    fn "with" 2 ].

(** [trimLeft] and [trimRight] are further names of the functions
    [trimStart] and [trimEnd]. *)
Definition string_prototype_members : list (string * value) :=
  [ ("length", Num (Int 0)); ("constructor", Builtin "String" 1);
    fn "anchor" 1; fn "at" 1; fn "big" 0; fn "blink" 0; fn "bold" 0;
    fn "charAt" 1; fn "charCodeAt" 1; fn "codePointAt" 1; fn "concat" 1;
    fn "endsWith" 1; fn "fontcolor" 1; fn "fontsize" 1; fn "fixed" 0;
    fn "includes" 1; fn "indexOf" 1; fn "isWellFormed" 0; fn "italics" 0;
    fn "lastIndexOf" 1; fn "link" 1; fn "localeCompare" 1; fn "match" 1;
    fn "matchAll" 1; fn "normalize" 0; fn "padEnd" 1; fn "padStart" 1;
    fn "repeat" 1; fn "replace" 2; fn "replaceAll" 2; fn "search" 1;
    fn "slice" 2; fn "small" 0; fn "split" 2; fn "strike" 0; fn "sub" 0;
    fn "substr" 2; fn "substring" 2; fn "sup" 0; fn "startsWith" 1;
    fn "toString" 0; fn "toWellFormed" 0; fn "trim" 0; fn "trimStart" 0;
    ("trimLeft", Builtin "trimStart" 0); fn "trimEnd" 0;
    ("trimRight", Builtin "trimEnd" 0); fn "toLocaleLowerCase" 0;
    fn "toLocaleUpperCase" 0; fn "toLowerCase" 0; fn "toUpperCase" 0;
    fn "valueOf" 0 ].

Definition number_prototype_members : list (string * value) :=
  [ ("constructor", Builtin "Number" 1); fn "toExponential" 1;
    fn "toFixed" 1; fn "toLocaleString" 0; fn "toPrecision" 1;
    fn "toString" 1; fn "valueOf" 0 ].

Definition boolean_prototype_members : list (string * value) :=
  [ ("constructor", Builtin "Boolean" 1); fn "toString" 0; fn "valueOf" 0 ].

(** What a constructor owns besides its [length] and its [name]. *)
Definition object_constructor_members : list (string * value) :=
  [ ("prototype", Proto ObjectPrototype);
    fn "assign" 2; fn "getOwnPropertyDescriptor" 2;
    fn "getOwnPropertyDescriptors" 1; fn "getOwnPropertyNames" 1;
    fn "getOwnPropertySymbols" 1; fn "hasOwn" 2; fn "is" 2;
    fn "preventExtensions" 1; fn "seal" 1; fn "create" 2;
    fn "defineProperties" 2; fn "defineProperty" 3; fn "freeze" 1;
    fn "getPrototypeOf" 1; fn "setPrototypeOf" 2; fn "isExtensible" 1;
    fn "isFrozen" 1; fn "isSealed" 1; fn "keys" 1; fn "entries" 1;
    fn "fromEntries" 1; fn "values" 1; fn "groupBy" 2 ].

Definition function_constructor_members : list (string * value) :=
  [ ("prototype", Builtin "" 0) ].

Definition array_constructor_members : list (string * value) :=
  [ ("prototype", Proto ArrayPrototype);
    fn "isArray" 1; fn "from" 1; fn "of" 0 ].

Definition string_constructor_members : list (string * value) :=
  [ ("prototype", Proto StringPrototype);
    fn "fromCharCode" 1; fn "fromCodePoint" 1; fn "raw" 1 ].

Definition number_constructor_members : list (string * value) :=
  [ ("prototype", Proto NumberPrototype);
    fn "isFinite" 1; fn "isInteger" 1; fn "isNaN" 1; fn "isSafeInteger" 1;
    fn "parseFloat" 1; fn "parseInt" 2;
    ("MAX_VALUE", Num (Int (2 ^ 1024 - 2 ^ 971)));
    ("MIN_VALUE", Frac MIN_VALUE);
    ("NaN", Num NaN);
    ("NEGATIVE_INFINITY", Num NegInf);
    ("POSITIVE_INFINITY", Num PosInf);
    ("MAX_SAFE_INTEGER", Num (Int (2 ^ 53 - 1)));
    ("MIN_SAFE_INTEGER", Num (Int (- (2 ^ 53 - 1))));
    ("EPSILON", Frac EPSILON) ].

Definition boolean_constructor_members : list (string * value) :=
  [ ("prototype", Proto BooleanPrototype) ].

Definition constructor_members (name : string) : list (string * value) :=
  if (name =? "Object")%string then object_constructor_members
  else if (name =? "Function")%string then function_constructor_members
  else if (name =? "Array")%string then array_constructor_members
  else if (name =? "String")%string then string_constructor_members
  else if (name =? "Number")%string then number_constructor_members
  else if (name =? "Boolean")%string then boolean_constructor_members
  else [].

(** The properties that a value holds itself. *)
Definition own (v : value) (k : string) : option value :=
  match v with
  | Obj fields => assoc k fields
  | Arr items =>
      if (k =? "length")%string
      then Some (Num (Int (Z.of_nat (List.length items))))
      else
        match array_index k with
        | Some i => nth_error items i
        | None => None
        end
  | Str s =>
      if (k =? "length")%string
      then Some (Num (Int (Z.of_nat (String.length s))))
      else
        match array_index k with
        | Some i =>
            match String.get i s with
            | Some c => Some (Str (String c EmptyString))
            | None => None
            end
        | None => None
        end
  | Builtin name arity =>
      if (k =? "length")%string then Some (Num (Int arity))
      else if (k =? "name")%string then Some (Str name)
      else if (name =? "")%string then assoc k function_prototype_members
      else assoc k (constructor_members name)
  | Proto ObjectPrototype => assoc k object_prototype_members
  | Proto ArrayPrototype => assoc k array_prototype_members
  | Proto StringPrototype => assoc k string_prototype_members
  | Proto NumberPrototype => assoc k number_prototype_members
  | Proto BooleanPrototype => assoc k boolean_prototype_members
  | Undefined | Null | Bool _ | Num _ | Frac _ => None
  end.

(** The prototype chain of a value, nearest first. *)
Definition prototype_chain (v : value) : list value :=
  match v with
  | Obj _ => [Proto ObjectPrototype]
  | Arr _ => [Proto ArrayPrototype; Proto ObjectPrototype]
  | Str _ => [Proto StringPrototype; Proto ObjectPrototype]
  | Num _ | Frac _ => [Proto NumberPrototype; Proto ObjectPrototype]
  | Bool _ => [Proto BooleanPrototype; Proto ObjectPrototype]
  | Builtin name _ =>
      if (name =? "")%string then [Proto ObjectPrototype]
      else [Builtin "" 0; Proto ObjectPrototype]
  | Proto ObjectPrototype => []
  | Proto _ => [Proto ObjectPrototype]
  | Undefined | Null => []
  end.

Fixpoint first_owner (chain : list value) (k : string) : value :=
  match chain with
  | [] => Undefined
  | p :: rest =>
      match own p k with
      | Some x => x
      | None => first_owner rest k
      end
  end.

(** What a value inherits under the name [k].  [__proto__] is an
    accessor of [Object.prototype], where every chain ends: it gives the
    prototype of the value that is read, [null] for [Object.prototype]
    itself. *)
Definition inherited (v : value) (k : string) : value :=
  if (k =? "__proto__")%string
  then match prototype_chain v with
       | [] => Null
       | p :: _ => p
       end
  else first_owner (prototype_chain v) k.

(** [v[k]] for a value that is neither [undefined] nor [null] and a read
    that completes: own properties first, then the prototype chain. *)
Definition member (v : value) (k : string) : value :=
  match v with
  | Undefined | Null => Undefined
  | _ =>
      match own v k with
      | Some x => x
      | None => inherited v k
      end
  end.

(** [caller] and [arguments] are accessors of [Function.prototype] that
    throw: a built-in function cannot be asked for them. *)
Definition restricted (k : string) : bool :=
  (k =? "caller")%string || (k =? "arguments")%string.

(** [v[k]] and [v.k]: reading a property of [undefined] or [null]
    throws, and so does reading a restricted property of a function. *)
Definition get (v : value) (k : string) : result value :=
  match v with
  | Undefined =>
      Throw (TypeError ("Cannot read properties of undefined (reading '"
                          ++ k ++ "')"))
  | Null =>
      Throw (TypeError ("Cannot read properties of null (reading '"
                          ++ k ++ "')"))
  | _ =>
      if is_function v && restricted k
      then Throw (TypeError "'caller', 'callee', and 'arguments' properties may not be accessed on strict mode functions or the arguments objects for calls to them")
      else Ok (member v k)
  end.

(** [v?.k] *)
Definition get_opt (v : value) (k : string) : result value :=
  if nullish v then Ok Undefined else get v k.

(** ** Strict equality

    Primitives compare by value ([NaN] differs from itself).  Objects,
    arrays and functions compare by reference: every [===] of the sources
    has operands read from two different places of a parsed tree, or one
    operand is a literal, so two compound operands are never the same
    object. *)
Definition number_eqb (a b : number) : bool :=
  match a, b with
  | Int x, Int y => x =? y
  | NegInf, NegInf => true
  | PosInf, PosInf => true
  | _, _ => false
  end.

Definition fraction_eqb (a b : fraction) : bool :=
  match a, b with
  | EPSILON, EPSILON => true
  | MIN_VALUE, MIN_VALUE => true
  | _, _ => false
  end.

Definition strict_equal (a b : value) : bool :=
  match a, b with
  | Undefined, Undefined => true
  | Null, Null => true
  | Bool x, Bool y => Bool.eqb x y
  | Num x, Num y => number_eqb x y
  | Frac x, Frac y => fraction_eqb x y
  | Str x, Str y => (x =? y)%string
  | _, _ => false
  end.

(** ** parseInt(s, 10) and Math.max *)

Definition is_whitespace (c : ascii) : bool :=
  let n := nat_of_ascii c in
  (n =? 32)%nat || ((9 <=? n)%nat && (n <=? 13)%nat) || (n =? 160)%nat.

Fixpoint skip_whitespace (s : string) : string :=
  match s with
  | String c rest => if is_whitespace c then skip_whitespace rest else s
  | EmptyString => s
  end.

(** The integer that the leading digits denote, as a double. *)
Definition parse_digits (s : string) : number :=
  match s with
  | String c _ =>
      if is_digit c then round_to_double (digits_value 0 s) else NaN
  | EmptyString => NaN
  end.

Definition number_neg (n : number) : number :=
  match n with
  | NaN => NaN
  | NegInf => PosInf
  | PosInf => NegInf
  | Int z => Int (- z)
  end.

Definition parseInt10 (v : value) : number :=
  match skip_whitespace (to_string v) with
  | String c rest =>
      if Ascii.eqb c "-" then number_neg (parse_digits rest)
      else if Ascii.eqb c "+" then parse_digits rest
      else parse_digits (String c rest)
  | EmptyString => NaN
  end.

Definition number_max (a b : number) : number :=
  match a, b with
  | NaN, _ | _, NaN => NaN
  | PosInf, _ | _, PosInf => PosInf
  | NegInf, x | x, NegInf => x
  | Int x, Int y => Int (Z.max x y)
  end.

(** [Math.max(...args)] *)
Definition math_max (args : list number) : number :=
  fold_left number_max args NegInf.

(** [a + b]: the sum of two integers is rounded to a double. *)
Definition number_add (a b : number) : number :=
  match a, b with
  | NaN, _ | _, NaN => NaN
  | NegInf, PosInf | PosInf, NegInf => NaN
  | NegInf, _ | _, NegInf => NegInf
  | PosInf, _ | _, PosInf => PosInf
  | Int x, Int y => round_to_double (x + y)
  end.

(** ** Object literals, spread syntax and arrays *)

(** [o.k = v] on an object: an existing property keeps its place, a new
    one goes last. *)
Fixpoint set_field {V : Type} (k : string) (v : V) (fields : list (string * V))
  : list (string * V) :=
  match fields with
  | [] => [(k, v)]
  | (k', v') :: rest =>
      if (k' =? k)%string then (k, v) :: rest
      else (k', v') :: set_field k v rest
  end.

Fixpoint indexed {V : Type} (i : Z) (items : list V) : list (string * V) :=
  match items with
  | [] => []
  | x :: rest => (number_to_string (Int i), x) :: indexed (i + 1) rest
  end.

Definition chars (s : string) : list value :=
  map (fun c => Str (String c EmptyString)) (list_ascii_of_string s).

(** The own enumerable properties that [{...v}] copies. *)
Definition own_enumerable (v : value) : list (string * value) :=
  match v with
  | Obj fields => fields
  | Arr items => indexed 0 items
  | Str s => indexed 0 (chars s)
  | _ => []
  end.

(** [{...v}] *)
Definition spread (v : value) : list (string * value) :=
  fold_left (fun acc kv => set_field (fst kv) (snd kv) acc)
            (own_enumerable v) [].

(** [items.splice(start, deleteCount)] with integer arguments: the array
    that is left. *)
Definition splice (items : list value) (start deleteCount : Z) : list value :=
  let len := Z.of_nat (List.length items) in
  let actualStart :=
    if start <? 0 then Z.max (len + start) 0 else Z.min start len in
  let actualDeleteCount := Z.min (Z.max deleteCount 0) (len - actualStart) in
  firstn (Z.to_nat actualStart) items
    ++ skipn (Z.to_nat (actualStart + actualDeleteCount)) items.

(** [s.split(".")] *)
Fixpoint split_dot_aux (current : string) (s : string) : list string :=
  match s with
  | EmptyString => [current]
  | String c rest =>
      if Ascii.eqb c "." then current :: split_dot_aux "" rest
      else split_dot_aux (current ++ String c EmptyString) rest
  end.

Definition split_dot (s : string) : list string := split_dot_aux "" s.

(** [items.filter(f)] and [items.map(f)] with a callback that may throw *)
Fixpoint filter_m (f : value -> result bool) (items : list value)
  : result (list value) :=
  match items with
  | [] => Ok []
  | x :: rest =>
      bind (f x) (fun keep =>
      bind (filter_m f rest) (fun kept =>
      Ok (if keep then x :: kept else kept)))
  end.

Fixpoint map_indexed {A} (f : value -> Z -> result A) (items : list value)
  (index : Z) : result (list A) :=
  match items with
  | [] => Ok []
  | x :: rest =>
      bind (f x index) (fun y =>
      bind (map_indexed f rest (index + 1)) (fun ys =>
      Ok (y :: ys)))
  end.

End Js.

(** ** Regular expressions *)

Module Regex.

Inductive t : Type :=
| Empty
| Eps
| Class (p : ascii -> bool)
| Cat (a b : t)
| Alt (a b : t)
| Star (a : t).

Fixpoint nullable (r : t) : bool :=
  match r with
  | Empty => false
  | Eps => true
  | Class _ => false
  | Cat a b => nullable a && nullable b
  | Alt a b => nullable a || nullable b
  | Star _ => true
  end.

Fixpoint deriv (c : ascii) (r : t) : t :=
  match r with
  | Empty => Empty
  | Eps => Empty
  | Class p => if p c then Eps else Empty
  | Cat a b =>
      if nullable a then Alt (Cat (deriv c a) b) (deriv c b)
      else Cat (deriv c a) b
  | Alt a b => Alt (deriv c a) (deriv c b)
  | Star a => Cat (deriv c a) (Star a)
  end.

(** The whole of [s] matches [r]. *)
Fixpoint matches (r : t) (s : string) : bool :=
  match s with
  | EmptyString => nullable r
  | String c rest => matches (deriv c r) rest
  end.

Definition plus (r : t) : t := Cat r (Star r).

Fixpoint times (n : nat) (r : t) : t :=
  match n with
  | O => Eps
  | S n' => Cat r (times n' r)
  end.

Definition any : t := Class (fun _ => true).

Definition char (c : ascii) : t := Class (Ascii.eqb c).

(** [\d] and [\w] *)
Definition digit : t := Class Js.is_digit.

Definition is_word (c : ascii) : bool :=
  let n := nat_of_ascii c in
  (((48 <=? n) && (n <=? 57)) || ((65 <=? n) && (n <=? 90))
   || ((97 <=? n) && (n <=? 122)) || (n =? 95))%nat.

Definition word : t := Class is_word.

(** [/^r$/.test(s)]: the pattern spans the whole input. *)
Definition test_anchored (r : t) (s : string) : bool := matches r s.

(** [/r/.test(s)]: the pattern matches somewhere in the input. *)
Definition test (r : t) (s : string) : bool :=
  matches (Cat (Star any) (Cat r (Star any))) s.

End Regex.

Import Js.

Notation "x <- m ;; k" := (bind m (fun x => k))
  (at level 61, m at next level, right associativity).

(* ================================================================== *)
(** * src/utils/xmlUtils.ts *)
(* ================================================================== *)

Section Codec.

(** The two entry points of the [xml-js] package, with the options the
    wrappers pass them.  The package is not part of the repository: each
    is a function that returns or throws. *)
Variable xml2js : string -> result value.

Variable js2xml : value -> result string.

(** An [async] function: a rejected promise is a [Throw]. *)
Definition parseXML (xmlString : string) : result value :=
  try_catch (xml2js xmlString)
            (fun _ => Throw (Error "Failed to parse XML file")).

Definition generateXML (jsObject : value) : result string :=
  try_catch (js2xml jsObject)
            (fun _ => Throw (Error "Failed to generate XML")).

End Codec.

(** The [for (const part of parts)] loop of [extractFromXML]. *)
Fixpoint extract_loop (current : value) (parts : list string) : result value :=
  match parts with
  | [] => Ok current
  | part :: rest =>
      v <- get current part ;;
      if falsy v then Ok Undefined else extract_loop v rest
  end.

Definition extractFromXML (xmlObject : value) (path : string) : result value :=
  if falsy xmlObject then Ok Undefined
  else extract_loop xmlObject (split_dot path).

(* ================================================================== *)
(** * src/utils/xmlValidator.ts *)
(* ================================================================== *)

(** Also declared, with the same body, in [src/pages/index.tsx]. *)
Definition getTextContent (obj : value) : result value :=
  if falsy obj then Ok (Str "")
  else if is_string obj then Ok obj
  else
    t <- get obj "_text" ;;
    if truthy t then Ok t else Ok (Str "").

Record ValidationResult : Type := {
  valid : bool;
  errors : list string
}.

(** [/^\d{12}$/] and [/\w+@\w+\.\w+/] *)
Definition twelve_digits : Regex.t := Regex.times 12 Regex.digit.

Definition email_shape : Regex.t :=
  Regex.Cat (Regex.plus Regex.word)
    (Regex.Cat (Regex.char "@")
       (Regex.Cat (Regex.plus Regex.word)
          (Regex.Cat (Regex.char ".") (Regex.plus Regex.word)))).

(** The recurring condition [!x.k || !getTextContent(x.k)]. *)
Definition missing_text (x : value) (k : string) : result bool :=
  v <- get x k ;;
  if falsy v then Ok true
  else t <- getTextContent v ;; Ok (falsy t).

(** [getTextContent(x.k)] *)
Definition text_of (x : value) (k : string) : result value :=
  v <- get x k ;; getTextContent v.

(** [`${index + 1}`] *)
Definition ordinal (index : Z) : string := number_to_string (Int (index + 1)).

(** [`... in Blankett ${index + 1}`] and [`... in Franvarouppgift ${index + 1}`] *)
Definition in_blankett (text : string) (index : Z) : string :=
  text ++ " in Blankett " ++ ordinal index.

Definition in_franvaro (text : string) (index : Z) : string :=
  text ++ " in Franvarouppgift " ++ ordinal index.

Definition check_namespaces (rootElement : value) : result (list string) :=
  let missing := ["Required XML namespaces are missing"] in
  attributes <- get rootElement "_attributes" ;;
  if falsy attributes then Ok missing
  else
    xsi <- get attributes "xmlns:xsi" ;;
    if falsy xsi then Ok missing
    else
      xmlns <- get attributes "xmlns" ;;
      if falsy xmlns then Ok missing else Ok [].

Definition check_kontaktperson (kontaktperson : value) : result (list string) :=
  noNamn <- missing_text kontaktperson "Namn" ;;
  noTelefon <- missing_text kontaktperson "Telefon" ;;
  noEpost <- missing_text kontaktperson "Epostadress" ;;
  epost <- (if noEpost
            then Ok ["Epostadress is missing in TekniskKontaktperson"]
            else
              t <- text_of kontaktperson "Epostadress" ;;
              if negb (Regex.test email_shape (to_string t))
              then Ok ["Epostadress has invalid format"]
              else Ok []) ;;
  Ok ((if noNamn then ["Namn is missing in TekniskKontaktperson"] else [])
      ++ (if noTelefon then ["Telefon is missing in TekniskKontaktperson"]
          else [])
      ++ epost)%list.

Definition check_avsandare (rootElement : value) : result (list string) :=
  avsandare <- get rootElement "Avsandare" ;;
  if falsy avsandare then Ok ["Required element Avsandare is missing"]
  else
    noProgramnamn <- missing_text avsandare "Programnamn" ;;
    noOrgnr <- missing_text avsandare "Organisationsnummer" ;;
    orgnr <- (if noOrgnr
              then Ok ["Organisationsnummer is missing in Avsandare"]
              else
                t <- text_of avsandare "Organisationsnummer" ;;
                if negb (Regex.test_anchored twelve_digits (to_string t))
                then Ok ["Organisationsnummer must be 12 digits"]
                else Ok []) ;;
    kontaktperson <- get avsandare "TekniskKontaktperson" ;;
    kontakt <- (if falsy kontaktperson
                then Ok ["TekniskKontaktperson is missing in Avsandare"]
                else check_kontaktperson kontaktperson) ;;
    noSkapad <- missing_text avsandare "Skapad" ;;
    Ok ((if noProgramnamn then ["Programnamn is missing in Avsandare"] else [])
        ++ orgnr ++ kontakt
        ++ (if noSkapad then ["Skapad is missing in Avsandare"] else []))%list.

(** The callback of [blanketter.forEach]. *)
Definition check_blankett (blankett : value) (index : Z) : result (list string) :=
  arendeInfo <- get blankett "Arendeinformation" ;;
  info <- (if falsy arendeInfo
           then Ok [in_blankett "Arendeinformation is missing" index]
           else
             noAgare <- missing_text arendeInfo "Arendeagare" ;;
             agare <- (if noAgare
                       then Ok [in_blankett "Arendeagare is missing" index]
                       else
                         t <- text_of arendeInfo "Arendeagare" ;;
                         if negb (Regex.test_anchored twelve_digits
                                    (to_string t))
                         then Ok [in_blankett "Arendeagare must be 12 digits" index]
                         else Ok []) ;;
             noPeriod <- missing_text arendeInfo "Period" ;;
             Ok (agare
                 ++ (if noPeriod
                     then [in_blankett "Period is missing" index]
                     else []))%list) ;;
  innehall <- get blankett "Blankettinnehall" ;;
  Ok (info
      ++ (if falsy innehall
          then [in_blankett "Blankettinnehall is missing" index]
          else []))%list.

Definition franvaro_types : list value :=
  [Str "TILLFALLIG_FORALDRAPENNING"; Str "FORALDRAPENNING"].

(** The callback of [franvaroList.forEach]. *)
Definition check_franvaro (franvaro : value) (index : Z) : result (list string) :=
  noAg <- missing_text franvaro "AgRegistreradId" ;;
  noId <- missing_text franvaro "BetalningsmottagarId" ;;
  id <- (if noId then Ok [in_franvaro "BetalningsmottagarId is missing" index]
         else
           t <- text_of franvaro "BetalningsmottagarId" ;;
           if negb (Regex.test_anchored twelve_digits (to_string t))
           then Ok [in_franvaro "BetalningsmottagarId must be 12 digits" index]
           else Ok []) ;;
  noDatum <- missing_text franvaro "FranvaroDatum" ;;
  noSpec <- missing_text franvaro "FranvaroSpecifikationsnummer" ;;
  noTyp <- missing_text franvaro "FranvaroTyp" ;;
  typ <- text_of franvaro "FranvaroTyp" ;;
  noPeriod <- missing_text franvaro "RedovisningsPeriod" ;;
  fp <- (if strict_equal typ (Str "FORALDRAPENNING")
         then
           procent <- text_of franvaro "FranvaroProcentFP" ;;
           if falsy procent
           then
             timmar <- text_of franvaro "FranvaroTimmarFP" ;;
             if falsy timmar
             then Ok [in_franvaro "Either FranvaroProcentFP or FranvaroTimmarFP is required for FORALDRAPENNING" index]
             else Ok []
           else Ok []
         else Ok []) ;;
  tfp <- (if strict_equal typ (Str "TILLFALLIG_FORALDRAPENNING")
          then
            procent <- text_of franvaro "FranvaroProcentTFP" ;;
            if falsy procent
            then
              timmar <- text_of franvaro "FranvaroTimmarTFP" ;;
              if falsy timmar
              then Ok [in_franvaro "Either FranvaroProcentTFP or FranvaroTimmarTFP is required for TILLFALLIG_FORALDRAPENNING" index]
              else Ok []
            else Ok []
          else Ok []) ;;
  Ok ((if noAg then [in_franvaro "AgRegistreradId is missing" index] else [])
      ++ id
      ++ (if noDatum then [in_franvaro "FranvaroDatum is missing" index] else [])
      ++ (if noSpec
          then [in_franvaro "FranvaroSpecifikationsnummer is missing" index] else [])
      ++ (if noTyp then [in_franvaro "FranvaroTyp is missing" index]
          else if negb (existsb (strict_equal typ) franvaro_types)
               then [in_franvaro "FranvaroTyp must be either TILLFALLIG_FORALDRAPENNING or FORALDRAPENNING" index]
               else [])
      ++ (if noPeriod then [in_franvaro "RedovisningsPeriod is missing" index] else [])
      ++ fp ++ tfp)%list.

(** [Array.isArray(x) ? x : [x]] *)
Definition as_sequence (x : value) : list value :=
  match x with
  | Arr items => items
  | _ => [x]
  end.

(** [items.forEach(callback)], the callback's pushes in order. *)
Definition for_each (callback : value -> Z -> result (list string))
  (items : list value) : result (list string) :=
  groups <- map_indexed callback items 0 ;; Ok (List.concat groups).

Definition check_blanketter (rootElement : value) : result (list string) :=
  blankett <- get rootElement "Blankett" ;;
  if falsy blankett then Ok ["No Blankett elements found"]
  else for_each check_blankett (as_sequence blankett).

Definition check_franvarouppgifter (rootElement : value)
  : result (list string) :=
  franvaro <- get rootElement "Franvarouppgift" ;;
  if truthy franvaro then for_each check_franvaro (as_sequence franvaro)
  else Ok [].

Definition no_root_element : ValidationResult :=
  {| valid := false;
     errors := ["XML does not contain a Skatteverket root element"] |}.

(** The rules applied to a parsed document: the [try] block after the
    call of [parseXML]. *)
Definition validate_parsed (parsedXml : value) : result ValidationResult :=
  if falsy parsedXml then Ok no_root_element
  else
    rootElement <- get parsedXml "Skatteverket" ;;
    if falsy rootElement then Ok no_root_element
    else
      namespaces <- check_namespaces rootElement ;;
      avsandare <- check_avsandare rootElement ;;
      blanketter <- check_blanketter rootElement ;;
      franvaro <- check_franvarouppgifter rootElement ;;
      let errors := (namespaces ++ avsandare ++ blanketter ++ franvaro)%list in
      Ok {| valid := (List.length errors =? 0)%nat; errors := errors |}.

Section Validator.

Variable xml2js : string -> result value.

Definition validateXML (xmlString : string) : result ValidationResult :=
  if (xmlString =? "")%string
  then Ok {| valid := false; errors := ["No XML content provided"] |}
  else
    try_catch
      (parsedXml <- parseXML xml2js xmlString ;; validate_parsed parsedXml)
      (fun error =>
         Ok {| valid := false;
               errors := ["Failed to validate XML: " ++ exn_message error] |}).

End Validator.

(* ================================================================== *)
(** * src/pages/index.tsx *)
(* ================================================================== *)

(** An element of [arendeInfoList]: the object literal that
    [extractArendeInformation] returns for each selected Blankett. *)
Record Arende : Type := {
  index : Z;
  arendeAgare : value;
  period : value;
  betalningsmottagarId : value;
  blankettInnehall : value;
  franvaroList : list value
}.

(** The filter callback: [blankett.Blankettinnehall && blankett.Blankettinnehall.IU] *)
Definition contains_IU (blankett : value) : result bool :=
  innehall <- get blankett "Blankettinnehall" ;;
  if falsy innehall then Ok false
  else iu <- get innehall "IU" ;; Ok (truthy iu).

(** The callback that selects the Franvarouppgift entries of one case. *)
Definition same_key (id period : value) (f : value) : result bool :=
  fid <- text_of f "BetalningsmottagarId" ;;
  if strict_equal fid id
  then fperiod <- text_of f "RedovisningsPeriod" ;;
       Ok (strict_equal fperiod period)
  else Ok false.

Definition existing_franvaro (parsedXml id period : value)
  : result (list value) :=
  skatteverket <- get parsedXml "Skatteverket" ;;
  franvaro <- get_opt skatteverket "Franvarouppgift" ;;
  if truthy franvaro
  then
    match franvaro with
    | Arr items => filter_m (same_key id period) items
    | _ =>
        same <- same_key id period franvaro ;;
        Ok (if same then [franvaro] else [])
    end
  else Ok [].

(** The callback of [iuBlanketter.map]. *)
Definition arende_of (parsedXml : value) (blankett : value) (index : Z)
  : result Arende :=
  arendeInfo <- get blankett "Arendeinformation" ;;
  blankettInnehall <- get blankett "Blankettinnehall" ;;
  iuData <- get blankettInnehall "IU" ;;
  arendeAgare <- text_of arendeInfo "Arendeagare" ;;
  period <- text_of arendeInfo "Period" ;;
  group <- get iuData "BetalningsmottagareIUGROUP" ;;
  choice <- get_opt group "BetalningsmottagareIDChoice" ;;
  idElement <- get_opt choice "BetalningsmottagarId" ;;
  betalningsmottagarId <- getTextContent idElement ;;
  existingFranvaro <- existing_franvaro parsedXml betalningsmottagarId period ;;
  Ok {| index := index;
        arendeAgare := arendeAgare;
        period := period;
        betalningsmottagarId := betalningsmottagarId;
        blankettInnehall := blankettInnehall;
        franvaroList := existingFranvaro |}.

(** [None] is the early [return] that leaves the case list as it was;
    [Some l] is the list given to [setArendeInfoList]. *)
Definition extractArendeInformation (parsedXml : value)
  : result (option (list Arende)) :=
  if falsy parsedXml then Ok None
  else
    skatteverket <- get parsedXml "Skatteverket" ;;
    blankett <- get_opt skatteverket "Blankett" ;;
    let blanketter := if truthy blankett then blankett else Arr [] in
    let allBlanketter := as_sequence blanketter in
    iuBlanketter <- filter_m contains_IU allBlanketter ;;
    arendeInfos <- map_indexed (arende_of parsedXml) iuBlanketter 0 ;;
    Ok (Some arendeInfos).

(** The literal, as it stands in the source file. *)
Definition PROGRAMNAMN : string := "Bokio och v√§nner".

(** The object literal [modifiedXml] of [generateModifiedXML]. *)
Definition modifiedXml (parsedXml : value) (arendeInfoList : list Arende)
  : result value :=
  let allFranvaro := flat_map franvaroList arendeInfoList in
  skatteverket <- get parsedXml "Skatteverket" ;;
  avsandare <- get skatteverket "Avsandare" ;;
  programnamn <- get avsandare "Programnamn" ;;
  Ok (Obj
    (set_field "Skatteverket"
       (Obj
          (set_field "Avsandare"
             (Obj
                (set_field "Programnamn"
                   (Obj (set_field "_text" (Str PROGRAMNAMN)
                           (spread programnamn)))
                   (spread avsandare)))
             (set_field "Franvarouppgift"
                (if (0 <? List.length allFranvaro)%nat
                 then Arr allFranvaro else Undefined)
                (spread skatteverket))))
       (spread parsedXml))).

Section Download.

Variable js2xml : value -> result string.

Definition generateModifiedXML (parsedXml : value)
  (arendeInfoList : list Arende) : result string :=
  if falsy parsedXml then Ok ""
  else
    modified <- modifiedXml parsedXml arendeInfoList ;;
    generateXML js2xml modified.

End Download.

(* ================================================================== *)
(** * src/components/ArendeList.tsx *)
(* ================================================================== *)

(** What [FranvaroForm] submits. *)
Record FormData : Type := {
  form_betalningsmottagarId : string;
  franvaroDatum : string;
  franvaroTyp : string;
  franvaroProcentFP : string;
  franvaroTimmarFP : string;
  franvaroProcentTFP : string;
  franvaroTimmarTFP : string
}.

(** [{ _text: text, _attributes: { faltkod: code } }] *)
Definition XMLElement (text : value) (faltkod : string) : value :=
  Obj [("_text", text); ("_attributes", Obj [("faltkod", Str faltkod)])].

(** [arendeList[arendeIndex]] followed by a property read. *)
Definition current_arende (arendeList : list Arende) (arendeIndex : nat)
  : result Arende :=
  match nth_error arendeList arendeIndex with
  | Some arende => Ok arende
  | None =>
      Throw (TypeError
               "Cannot read properties of undefined (reading 'franvaroList')")
  end.

(** [parseInt(f.FranvaroSpecifikationsnummer?._text || '0', 10)] *)
Definition spec_number (f : value) : result number :=
  element <- get f "FranvaroSpecifikationsnummer" ;;
  text <- get_opt element "_text" ;;
  Ok (parseInt10 (if truthy text then text else Str "0")).

Fixpoint map_m {A} (f : value -> result A) (items : list value)
  : result (list A) :=
  match items with
  | [] => Ok []
  | x :: rest => y <- f x ;; ys <- map_m f rest ;; Ok (y :: ys)
  end.

Definition max_spec_number (existingFranvaro : list value) : result number :=
  if (0 <? List.length existingFranvaro)%nat
  then numbers <- map_m spec_number existingFranvaro ;; Ok (math_max numbers)
  else Ok (Int 0).

(** [if (text) newFranvaro.name = { _text: text, ... }] *)
Definition optional_field (name text faltkod : string)
  (fields : list (string * value)) : list (string * value) :=
  if truthy (Str text) then set_field name (XMLElement (Str text) faltkod) fields
  else fields.

Definition new_franvaro (currentArende : Arende) (franvaro : FormData)
  (maxSpecNr : number) : value :=
  Obj
    (optional_field "FranvaroTimmarTFP" (franvaroTimmarTFP franvaro) "825"
    (optional_field "FranvaroProcentTFP" (franvaroProcentTFP franvaro) "824"
    (optional_field "FranvaroTimmarFP" (franvaroTimmarFP franvaro) "827"
    (optional_field "FranvaroProcentFP" (franvaroProcentFP franvaro) "826"
       [ ("AgRegistreradId", XMLElement (arendeAgare currentArende) "201");
         ("BetalningsmottagarId",
          XMLElement
            (if truthy (betalningsmottagarId currentArende)
             then betalningsmottagarId currentArende
             else Str (form_betalningsmottagarId franvaro))
            "215");
         ("FranvaroDatum", XMLElement (Str (franvaroDatum franvaro)) "821");
         ("FranvaroSpecifikationsnummer",
          XMLElement
            (Str (number_to_string (number_add maxSpecNr (Int 1)))) "822");
         ("FranvaroTyp", XMLElement (Str (franvaroTyp franvaro)) "823");
         ("RedovisningsPeriod", XMLElement (period currentArende) "006") ])))).

(** The result is the pair of arguments given to [onFranvaroUpdate].
    [currentArende.franvaroList || []] is the list itself: the field of an
    [Arende] is always an array. *)
Definition handleAddFranvaro (arendeList : list Arende) (arendeIndex : nat)
  (franvaro : FormData) : result (nat * list value) :=
  currentArende <- current_arende arendeList arendeIndex ;;
  let existingFranvaro := franvaroList currentArende in
  maxSpecNr <- max_spec_number existingFranvaro ;;
  let newFranvaro := new_franvaro currentArende franvaro maxSpecNr in
  Ok (arendeIndex, (existingFranvaro ++ [newFranvaro])%list).

Definition handleRemoveFranvaro (arendeList : list Arende) (arendeIndex : nat)
  (franvaroIndex : Z) : result (nat * list value) :=
  currentArende <- current_arende arendeList arendeIndex ;;
  let existingFranvaro := franvaroList currentArende in
  Ok (arendeIndex, splice existingFranvaro franvaroIndex 1).

(* ================================================================== *)
(** * Vocabulary of the statements *)
(* ================================================================== *)

(** [s] is a decimal numeral (one or more digits) that denotes [n]. *)
Definition numeral (s : string) (n : Z) : Prop :=
  s <> ""
  /\ forallb is_digit (list_ascii_of_string s) = true
  /\ digits_value 0 s = n.

(** The record [f] carries the specification number [n], written as a
    decimal numeral. *)
Definition has_spec_number (f : value) (n : Z) : Prop :=
  exists element s,
    get f "FranvaroSpecifikationsnummer" = Ok element
    /\ get element "_text" = Ok (Str s)
    /\ numeral s n.

(** [m] is the greatest element of [ns]. *)
Definition is_maximum (m : Z) (ns : list Z) : Prop :=
  In m ns /\ Forall (fun n => n <= m) ns.

(** The absence records of the document, as a sequence. *)
Definition document_franvaro (parsedXml : value) : result (list value) :=
  skatteverket <- get parsedXml "Skatteverket" ;;
  franvaro <- get_opt skatteverket "Franvarouppgift" ;;
  Ok (if truthy franvaro then as_sequence franvaro else []).

(** The declaration forms of the document, as a sequence. *)
Definition document_blanketter (parsedXml : value) : result (list value) :=
  skatteverket <- get parsedXml "Skatteverket" ;;
  blankett <- get_opt skatteverket "Blankett" ;;
  Ok (as_sequence (if truthy blankett then blankett else Arr [])).

(** The parsed document has no Skatteverket root element. *)
Definition lacks_root (parsedXml : value) : Prop :=
  falsy parsedXml = true
  \/ exists root, get parsedXml "Skatteverket" = Ok root /\ falsy root = true.

(** The language of a regular expression: the strings it denotes. *)
Inductive lang : Regex.t -> string -> Prop :=
| lang_eps : lang Regex.Eps ""
| lang_class p c : p c = true -> lang (Regex.Class p) (String c "")
| lang_cat a b s1 s2 :
    lang a s1 -> lang b s2 -> lang (Regex.Cat a b) (s1 ++ s2)
| lang_alt_l a b s : lang a s -> lang (Regex.Alt a b) s
| lang_alt_r a b s : lang b s -> lang (Regex.Alt a b) s
| lang_star_nil a : lang (Regex.Star a) ""
| lang_star_cons a s1 s2 :
    lang a s1 -> lang (Regex.Star a) s2 -> lang (Regex.Star a) (s1 ++ s2).

(** A non-empty string of word characters *)
Definition word_chars (w : string) : Prop :=
  w <> "" /\ forallb Regex.is_word (list_ascii_of_string w) = true.

(** [P] holds of the result whenever the computation completes. *)
Definition all_results {A} (P : A -> Prop) (m : result A) : Prop :=
  match m with
  | Ok a => P a
  | Throw _ => True
  end.

(** The message of the email format rule, and its absence from a list
    of messages. *)
Definition EMAIL_FORMAT_ERROR : string := "Epostadress has invalid format".

Definition no_email_error (errors : list string) : Prop :=
  ~ In EMAIL_FORMAT_ERROR errors.

(** The contact person's address passes the format check. *)
Definition email_accepted (kontaktperson : value) : Prop :=
  exists epost text,
    get kontaktperson "Epostadress" = Ok epost
    /\ getTextContent epost = Ok text
    /\ Regex.test email_shape (to_string text) = true.

(** The property names of an object, in order. *)
Definition keys {V : Type} (fields : list (string * V)) : list string :=
  map fst fields.

(** The property names after [k] is written: unchanged when [k] is
    already there, extended by [k] at the end otherwise. *)
Definition keys_after {V : Type} (k : string) (old : list (string * V))
  : list string :=
  if in_dec string_dec k (keys old) then keys old else (keys old ++ [k])%list.

(** [new] is [old] with property [k] set to [v] and nothing else changed:
    same value under every other name, same order of the names. *)
Definition updated {V : Type} (k : string) (v : V)
  (old new : list (string * V)) : Prop :=
  assoc k new = Some v
  /\ (forall k', k' <> k -> assoc k' new = assoc k' old)
  /\ keys new = keys_after k old.

(* ================================================================== *)
(** * Sample documents *)
(* ================================================================== *)

(** [<tag>text</tag>] as the parser stores it *)
Definition leaf (text : string) : value := Obj [("_text", Str text)].

Definition sample_franvaro (id period nr : string) : value :=
  Obj [ ("AgRegistreradId", XMLElement (Str "165560269986") "201");
        ("BetalningsmottagarId", XMLElement (Str id) "215");
        ("FranvaroDatum", XMLElement (Str "2024-01-15") "821");
        ("FranvaroSpecifikationsnummer", XMLElement (Str nr) "822");
        ("FranvaroTyp", XMLElement (Str "FORALDRAPENNING") "823");
        ("RedovisningsPeriod", XMLElement (Str period) "006");
        ("FranvaroTimmarFP", XMLElement (Str "8.00") "827") ].

Definition two_records : list value :=
  [ sample_franvaro "198001011234" "202401" "1";
    sample_franvaro "198001011234" "202401" "2" ].

Definition sample_innehall (id : string) : value :=
  Obj [("IU",
        Obj [("BetalningsmottagareIUGROUP",
              Obj [("BetalningsmottagareIDChoice",
                    Obj [("BetalningsmottagarId", leaf id)])])])].

Definition case_two_records : Arende :=
  {| index := 0;
     arendeAgare := Str "165560269986";
     period := Str "202401";
     betalningsmottagarId := Str "198001011234";
     blankettInnehall := sample_innehall "198001011234";
     franvaroList := two_records |}.

(** A case whose only record is numbered above [2^53], and one whose
    only record carries a number that is no numeral. *)
Definition case_large_number : Arende :=
  {| index := 0;
     arendeAgare := Str "165560269986";
     period := Str "202401";
     betalningsmottagarId := Str "198001011234";
     blankettInnehall := sample_innehall "198001011234";
     franvaroList :=
       [sample_franvaro "198001011234" "202401" "9007199254740993"] |}.

Definition case_unreadable_number : Arende :=
  {| index := 0;
     arendeAgare := Str "165560269986";
     period := Str "202401";
     betalningsmottagarId := Str "198001011234";
     blankettInnehall := sample_innehall "198001011234";
     franvaroList := [sample_franvaro "198001011234" "202401" "n/a"] |}.

Definition case_no_records : Arende :=
  {| index := 0;
     arendeAgare := Str "165560269986";
     period := Str "202401";
     betalningsmottagarId := Str "198001011234";
     blankettInnehall := sample_innehall "198001011234";
     franvaroList := [] |}.

Definition sample_form : FormData :=
  {| form_betalningsmottagarId := "198001011234";
     franvaroDatum := "2024-01-16";
     franvaroTyp := "TILLFALLIG_FORALDRAPENNING";
     franvaroProcentFP := "";
     franvaroTimmarFP := "";
     franvaroProcentTFP := "";
     franvaroTimmarTFP := "8.00" |}.

Definition sample_blankett (agare period id : string) : value :=
  Obj [ ("Arendeinformation",
         Obj [("Arendeagare", leaf agare); ("Period", leaf period)]);
        ("Blankettinnehall", sample_innehall id) ].

Definition sample_kontaktperson (epost : string) : list (string * value) :=
  [ ("Namn", leaf "Kim Ek"); ("Telefon", leaf "0701234567");
    ("Epostadress", leaf epost) ].

Definition sample_avsandare (epost : string) : list (string * value) :=
  [ ("Programnamn", leaf "Lonesystemet");
    ("Organisationsnummer", leaf "165560269986");
    ("TekniskKontaktperson", Obj (sample_kontaktperson epost));
    ("Skapad", leaf "2024-02-01T10:00:00") ].

Definition sample_skatteverket (epost : string) (blankett : value)
  : list (string * value) :=
  [ ("_attributes",
     Obj [ ("xmlns", Str "http://xmls.skatteverket.se/se/skatteverket/da/instans/schema/1.1");
           ("xmlns:xsi", Str "http://www.w3.org/2001/XMLSchema-instance") ]);
    ("Avsandare", Obj (sample_avsandare epost));
    ("Blankett", blankett) ].

Definition sample_root (epost : string) (blankett : value)
  : list (string * value) :=
  [ ("_declaration",
     Obj [("_attributes", Obj [("version", Str "1.0");
                               ("encoding", Str "UTF-8")])]);
    ("Skatteverket", Obj (sample_skatteverket epost blankett)) ].

(** One declaration form, stored as a single element. *)
Definition sample_document : value :=
  Obj (sample_root "kim@example.se"
         (sample_blankett "165560269986" "202401" "198001011234")).

(** The address is surrounded by other characters. *)
Definition document_padded_email : value :=
  Obj (sample_root "<<kim@example.se>> (work)"
         (sample_blankett "165560269986" "202401" "198001011234")).

(** Two declaration forms for the same recipient and period, and one
    absence record with that key. *)
Definition shared_record : value := sample_franvaro "198001011234" "202401" "1".

Definition document_shared_key : value :=
  Obj [("Skatteverket",
        Obj [ ("Blankett",
               Arr [ sample_blankett "165560269986" "202401" "198001011234";
                     sample_blankett "165560269986" "202401" "198001011234" ]);
              ("Franvarouppgift", shared_record) ])].

Definition case_a : Arende :=
  {| index := 0;
     arendeAgare := Str "165560269986";
     period := Str "202401";
     betalningsmottagarId := Str "198001011234";
     blankettInnehall := sample_innehall "198001011234";
     franvaroList := [shared_record] |}.

Definition case_b : Arende :=
  {| index := 1;
     arendeAgare := Str "165560269986";
     period := Str "202401";
     betalningsmottagarId := Str "198001011234";
     blankettInnehall := sample_innehall "198001011234";
     franvaroList := [shared_record] |}.

(** A declaration form that holds an IU but no Arendeinformation, as
    parsed from [<Blankett><Blankettinnehall><IU/></Blankettinnehall></Blankett>]. *)
Definition form_without_case_info : value :=
  Obj [("Blankettinnehall", Obj [("IU", Obj [])])].

Definition document_without_case_info : value :=
  Obj [("Skatteverket", Obj [("Blankett", form_without_case_info)])].


(** Two declaration forms: Blankett is a sequence. *)
Definition document_two_forms : value :=
  Obj [("Skatteverket",
        Obj [("Blankett",
              Arr [ sample_blankett "165560269986" "202401" "198001011234";
                    sample_blankett "165560269986" "202401" "198505055678" ])])].

(** A stand-in for the parser: it knows three inputs. *)
Definition sample_xml2js (xmlString : string) : result value :=
  if (xmlString =? "<Skatteverket>...</Skatteverket>")%string
  then Ok sample_document
  else if (xmlString =? "<Skatteverket>padded</Skatteverket>")%string
  then Ok document_padded_email
  else if (xmlString =? "<html></html>")%string
  then Ok (Obj [("html", Obj [])])
  else Throw (Error "Unclosed root tag").

(* ================================================================== *)
(** * The object literal of generateModifiedXML, with the objects in a store *)
(* ================================================================== *)

(** [modifiedXml] above computes the tree that is returned.  To say that
    the original tree is left as it was, objects need an identity: here
    they live in a store, a variable holds a primitive or a reference, an
    object literal allocates, and the spread syntax copies references. *)
Module Store.

Inductive ref_value : Type :=
| RUndefined
| RNull
| RBool (b : bool)
| RNum (n : number)
| RStr (s : string)
| RRef (address : nat).

Inductive cell : Type :=
| CObj (fields : list (string * ref_value))
| CArr (items : list ref_value).

Definition store : Type := list cell.

(** An object literal or a new array takes the next free address. *)
Definition allocate (h : store) (c : cell) : store * ref_value :=
  ((h ++ [c])%list, RRef (List.length h)).

(** [v.k] for a property name that is neither an index, nor [length],
    nor a member of a built-in prototype. *)
Definition read (h : store) (v : ref_value) (k : string) : result ref_value :=
  match v with
  | RUndefined =>
      Throw (TypeError ("Cannot read properties of undefined (reading '"
                          ++ k ++ "')"))
  | RNull =>
      Throw (TypeError ("Cannot read properties of null (reading '"
                          ++ k ++ "')"))
  | RRef a =>
      match nth_error h a with
      | Some (CObj fields) =>
          match assoc k fields with
          | Some x => Ok x
          | None => Ok RUndefined
          end
      | _ => Ok RUndefined
      end
  | _ => Ok RUndefined
  end.

Definition own_enumerable (h : store) (v : ref_value)
  : list (string * ref_value) :=
  match v with
  | RRef a =>
      match nth_error h a with
      | Some (CObj fields) => fields
      | Some (CArr items) => indexed 0 items
      | None => []
      end
  | RStr s =>
      indexed 0 (map (fun c => RStr (String c EmptyString))
                     (list_ascii_of_string s))
  | _ => []
  end.

(** [{...v}]: the references are copied, not the objects behind them. *)
Definition spread (h : store) (v : ref_value) : list (string * ref_value) :=
  fold_left (fun acc kv => set_field (fst kv) (snd kv) acc)
            (own_enumerable h v) [].

(** [lists] are the [franvaroList] arrays of the cases; [flatMap] makes a
    new array of their elements. *)
Definition modifiedXml (h : store) (parsedXml : ref_value)
  (lists : list (list ref_value)) : result (store * ref_value) :=
  let (h0, allFranvaro) := allocate h (CArr (List.concat lists)) in
  skatteverket <- read h0 parsedXml "Skatteverket" ;;
  avsandare <- read h0 skatteverket "Avsandare" ;;
  programnamn <- read h0 avsandare "Programnamn" ;;
  let (h1, newProgramnamn) :=
    allocate h0
      (CObj (set_field "_text" (RStr PROGRAMNAMN) (spread h0 programnamn))) in
  let (h2, newAvsandare) :=
    allocate h1
      (CObj (set_field "Programnamn" newProgramnamn (spread h1 avsandare))) in
  let (h3, newSkatteverket) :=
    allocate h2
      (CObj (set_field "Avsandare" newAvsandare
               (set_field "Franvarouppgift"
                  (if (0 <? List.length (List.concat lists))%nat
                   then allFranvaro else RUndefined)
                  (spread h2 skatteverket)))) in
  let (h4, newRoot) :=
    allocate h3
      (CObj (set_field "Skatteverket" newSkatteverket (spread h3 parsedXml))) in
  Ok (h4, newRoot).

(** The tree behind a stored value, to a given depth. *)
Fixpoint reify (depth : nat) (h : store) (v : ref_value) : value :=
  match v with
  | RUndefined => Undefined
  | RNull => Null
  | RBool b => Bool b
  | RNum n => Num n
  | RStr s => Str s
  | RRef a =>
      match depth with
      | O => Undefined
      | S depth' =>
          match nth_error h a with
          | Some (CObj fields) =>
              Obj (map (fun kv => (fst kv, reify depth' h (snd kv))) fields)
          | Some (CArr items) => Arr (map (reify depth' h) items)
          | None => Undefined
          end
      end
  end.

(** A reference points into the store; a store is closed when all the
    references it holds do. *)
Definition valid_ref (h : store) (v : ref_value) : Prop :=
  match v with
  | RRef a => (a < List.length h)%nat
  | _ => True
  end.

Definition closed (h : store) : Prop :=
  Forall (fun c =>
            match c with
            | CObj fields => Forall (fun kv => valid_ref h (snd kv)) fields
            | CArr items => Forall (valid_ref h) items
            end) h.

End Store.

(** A parsed document in a store: the root at address 0, one absence
    record at address 7. *)
Definition sample_store : Store.store :=
  [ Store.CObj [("Skatteverket", Store.RRef 1)];
    Store.CObj [("_attributes", Store.RRef 2); ("Avsandare", Store.RRef 3); ("Blankett", Store.RRef 6)];
    Store.CObj [("xmlns", Store.RStr "urn:agi"); ("xmlns:xsi", Store.RStr "urn:xsi")];
    Store.CObj [("Programnamn", Store.RRef 4); ("Organisationsnummer", Store.RRef 5)];
    Store.CObj [("_text", Store.RStr "Lonesystemet"); ("_attributes", Store.RRef 8)];
    Store.CObj [("_text", Store.RStr "165560269986")];
    Store.CObj [];
    Store.CObj [("FranvaroDatum", Store.RRef 9)];
    Store.CObj [("faltkod", Store.RStr "001")];
    Store.CObj [("_text", Store.RStr "2024-01-15")] ].

(* ================================================================== *)
(** * src/pages/index.tsx: handleFranvaroUpdate *)
(* ================================================================== *)

(** [{ ...arende, franvaroList }] *)
Definition with_franvaroList (arende : Arende) (franvaroList : list value)
  : Arende :=
  {| index := index arende;
     arendeAgare := arendeAgare arende;
     period := period arende;
     betalningsmottagarId := betalningsmottagarId arende;
     blankettInnehall := blankettInnehall arende;
     franvaroList := franvaroList |}.

(** The array given to [setArendeInfoList].  An index inside the array
    replaces that element by a copy with the new list.  An index past the
    end makes the array grow: the old elements, then [holes] empty slots,
    then the object [{ franvaroList }] that the spread of [undefined]
    leaves. *)
Inductive ArendeListUpdate : Type :=
| Replaced (arendeInfoList : list Arende)
| Extended (arendeInfoList : list Arende) (holes : nat)
    (franvaroList : list value).

Definition handleFranvaroUpdate (arendeInfoList : list Arende)
  (arendeIndex : nat) (franvaroList : list value) : ArendeListUpdate :=
  match nth_error arendeInfoList arendeIndex with
  | Some arende =>
      Replaced (firstn arendeIndex arendeInfoList
                ++ with_franvaroList arende franvaroList
                   :: skipn (S arendeIndex) arendeInfoList)%list
  | None =>
      Extended arendeInfoList (arendeIndex - List.length arendeInfoList)
        franvaroList
  end.

(* ================================================================== *)
(** * src/components/FranvaroForm.tsx: validateForm *)
(* ================================================================== *)

Section Form.

(** The two range tests are comparisons of floating-point numbers,
    [parseFloat(s) < 0.01 || parseFloat(s) > 100 || isNaN(parseFloat(s))]
    and the same with [24]; they are parameters here, and every statement
    below holds whatever they answer. *)
Variable percent_out_of_range : string -> bool.

Variable hours_out_of_range : string -> bool.

Definition EITHER_REQUIRED : string :=
  "Either percentage or hours must be provided".

(** The three [if] statements on the percentage and the hours of one
    absence type; [newErrors] is the object built so far. *)
Definition check_amounts (procentKey timmarKey procent timmar : string)
  (newErrors : list (string * string)) : list (string * string) :=
  let newErrors :=
    if falsy (Str procent) && falsy (Str timmar)
    then set_field timmarKey EITHER_REQUIRED
           (set_field procentKey EITHER_REQUIRED newErrors)
    else newErrors in
  let newErrors :=
    if truthy (Str procent) && percent_out_of_range procent
    then set_field procentKey "Percentage must be between 0.01 and 100.00"
           newErrors
    else newErrors in
  if truthy (Str timmar) && hours_out_of_range timmar
  then set_field timmarKey "Hours must be between 0.01 and 24.00" newErrors
  else newErrors.

(** The object given to [setErrors]. *)
Definition form_errors (formData : FormData) : list (string * string) :=
  let newErrors := [] in
  let newErrors :=
    if falsy (Str (form_betalningsmottagarId formData))
    then set_field "betalningsmottagarId" "Personal ID is required" newErrors
    else if negb (Regex.test_anchored twelve_digits
                    (form_betalningsmottagarId formData))
    then set_field "betalningsmottagarId"
           "Personal ID must be 12 digits (YYYYMMDDNNNN)" newErrors
    else newErrors in
  let newErrors :=
    if falsy (Str (franvaroDatum formData))
    then set_field "franvaroDatum" "Date is required" newErrors
    else newErrors in
  let newErrors :=
    if falsy (Str (franvaroTyp formData))
    then set_field "franvaroTyp" "Type is required" newErrors
    else newErrors in
  let newErrors :=
    if (franvaroTyp formData =? "FORALDRAPENNING")%string
    then check_amounts "franvaroProcentFP" "franvaroTimmarFP"
           (franvaroProcentFP formData) (franvaroTimmarFP formData) newErrors
    else newErrors in
  if (franvaroTyp formData =? "TILLFALLIG_FORALDRAPENNING")%string
  then check_amounts "franvaroProcentTFP" "franvaroTimmarTFP"
         (franvaroProcentTFP formData) (franvaroTimmarTFP formData) newErrors
  else newErrors.

(** [Object.keys(newErrors).length === 0] *)
Definition validateForm (formData : FormData) : bool :=
  (List.length (keys (form_errors formData)) =? 0)%nat.

End Form.

(* ================================================================== *)
(** * Vocabulary of the further statements *)
(* ================================================================== *)

(** Exactly twelve decimal digits. *)
Definition twelve_digit_string (s : string) : Prop :=
  String.length s = 12%nat
  /\ forallb is_digit (list_ascii_of_string s) = true.

(** The element [k] of [x] is present and has a non-empty text [t]. *)
Definition has_text (x : value) (k : string) (t : value) : Prop :=
  text_of x k = Ok t /\ truthy t = true.

(** The text holds, somewhere, [local@domain.tld] with three non-empty
    runs of word characters. *)
Definition contains_address (s : string) : Prop :=
  exists before local domain tld after,
    s = before ++ local ++ "@" ++ domain ++ "." ++ tld ++ after
    /\ word_chars local /\ word_chars domain /\ word_chars tld.

(** The element [k] of [x] is present with a non-empty text. *)
Definition present (x : value) (k : string) : Prop :=
  exists t, has_text x k t.

(** The element [k] of [x] is present and its text is twelve digits. *)
Definition twelve_digits_in (x : value) (k : string) : Prop :=
  exists t, has_text x k t /\ twelve_digit_string (to_string t).

(** What the validator asks of a document, rule by rule. *)
Definition namespaces_declared (root : value) : Prop :=
  exists attributes,
    get root "_attributes" = Ok attributes
    /\ truthy attributes = true
    /\ truthy (member attributes "xmlns:xsi") = true
    /\ truthy (member attributes "xmlns") = true.

Definition contact_complete (kontaktperson : value) : Prop :=
  present kontaktperson "Namn"
  /\ present kontaktperson "Telefon"
  /\ exists t, has_text kontaktperson "Epostadress" t
               /\ contains_address (to_string t).

Definition sender_complete (root : value) : Prop :=
  exists avsandare kontaktperson,
    get root "Avsandare" = Ok avsandare
    /\ truthy avsandare = true
    /\ present avsandare "Programnamn"
    /\ twelve_digits_in avsandare "Organisationsnummer"
    /\ get avsandare "TekniskKontaktperson" = Ok kontaktperson
    /\ truthy kontaktperson = true
    /\ contact_complete kontaktperson
    /\ present avsandare "Skapad".

Definition form_complete (blankett : value) : Prop :=
  exists arendeInfo,
    get blankett "Arendeinformation" = Ok arendeInfo
    /\ truthy arendeInfo = true
    /\ twelve_digits_in arendeInfo "Arendeagare"
    /\ present arendeInfo "Period"
    /\ truthy (member blankett "Blankettinnehall") = true.

Definition record_complete (franvaro : value) : Prop :=
  present franvaro "AgRegistreradId"
  /\ twelve_digits_in franvaro "BetalningsmottagarId"
  /\ present franvaro "FranvaroDatum"
  /\ present franvaro "FranvaroSpecifikationsnummer"
  /\ present franvaro "RedovisningsPeriod"
  /\ ((text_of franvaro "FranvaroTyp" = Ok (Str "FORALDRAPENNING")
       /\ (present franvaro "FranvaroProcentFP"
           \/ present franvaro "FranvaroTimmarFP"))
      \/ (text_of franvaro "FranvaroTyp" = Ok (Str "TILLFALLIG_FORALDRAPENNING")
          /\ (present franvaro "FranvaroProcentTFP"
              \/ present franvaro "FranvaroTimmarTFP"))).

Definition declaration_complete (parsedXml : value) : Prop :=
  truthy parsedXml = true
  /\ exists root,
       get parsedXml "Skatteverket" = Ok root
       /\ truthy root = true
       /\ namespaces_declared root
       /\ sender_complete root
       /\ (exists blankett,
             get root "Blankett" = Ok blankett
             /\ truthy blankett = true
             /\ Forall form_complete (as_sequence blankett))
       /\ (exists franvaro,
             get root "Franvarouppgift" = Ok franvaro
             /\ (truthy franvaro = true ->
                 Forall record_complete (as_sequence franvaro))).

(** What [validateForm] asks of the percentage and the hours of the
    selected absence type, and of the whole entry. *)
Definition amounts_valid (percent_out_of_range hours_out_of_range : string -> bool)
  (procent timmar : string) : Prop :=
  (procent <> "" \/ timmar <> "")
  /\ (procent <> "" -> percent_out_of_range procent = false)
  /\ (timmar <> "" -> hours_out_of_range timmar = false).

Definition entry_valid (percent_out_of_range hours_out_of_range : string -> bool)
  (formData : FormData) : Prop :=
  twelve_digit_string (form_betalningsmottagarId formData)
  /\ franvaroDatum formData <> ""
  /\ franvaroTyp formData <> ""
  /\ (franvaroTyp formData = "FORALDRAPENNING" ->
      amounts_valid percent_out_of_range hours_out_of_range
        (franvaroProcentFP formData) (franvaroTimmarFP formData))
  /\ (franvaroTyp formData = "TILLFALLIG_FORALDRAPENNING" ->
      amounts_valid percent_out_of_range hours_out_of_range
        (franvaroProcentTFP formData) (franvaroTimmarTFP formData)).

(** The element that [handleAddFranvaro] adds for an optional input:
    none for an empty input. *)
Definition given (name text faltkod : string) : list (string * value) :=
  if (text =? "")%string then [] else [(name, XMLElement (Str text) faltkod)].

(** The record [f] carries the recipient id and the period of the case
    [c]: the test by which [extractArendeInformation] keeps it. *)
Definition carries_key (c : Arende) (f : value) : bool :=
  match same_key (betalningsmottagarId c) (period c) f with
  | Ok true => true
  | _ => false
  end.

(** The verdict on a document that raised no message. *)
Definition accepted : ValidationResult := {| valid := true; errors := [] |}.

(** A complete declaration with two absence records, one for the
    recipient of its only form and one for somebody else. *)
Definition document_unmatched_record : value :=
  Obj [("Skatteverket",
        Obj (sample_skatteverket "kim@example.se"
               (sample_blankett "165560269986" "202401" "198001011234")
             ++ [("Franvarouppgift",
                  Arr [ sample_franvaro "198001011234" "202401" "1";
                        sample_franvaro "199912319999" "202401" "2" ])])%list)].

(** A complete declaration with two forms for one recipient and period,
    and one absence record with that key. *)
Definition document_repeated_key : value :=
  Obj [("Skatteverket",
        Obj (sample_skatteverket "kim@example.se"
               (Arr [ sample_blankett "165560269986" "202401" "198001011234";
                      sample_blankett "165560269986" "202401" "198001011234" ])
             ++ [("Franvarouppgift", shared_record)])%list)].

(* ================================================================== *)
(** * Facts about the JavaScript fragment *)
(* ================================================================== *)

Lemma truthy_not_nullish (v : value) : truthy v = true -> nullish v = false.
Proof. destruct v; simpl; congruence. Qed.

Lemma get_not_nullish (v : value) (k : string) :
  nullish v = false -> restricted k = false -> get v k = Ok (member v k).
Proof.
  intros H Hk. destruct v; try discriminate; unfold get; rewrite Hk;
    try rewrite andb_false_r; reflexivity.
Qed.

Lemma get_truthy (v : value) (k : string) :
  truthy v = true -> restricted k = false -> get v k = Ok (member v k).
Proof. intros H Hk. apply get_not_nullish; [apply truthy_not_nullish, H|exact Hk]. Qed.

Lemma get_Ok_member (v x : value) (k : string) :
  get v k = Ok x -> x = member v k /\ nullish v = false.
Proof.
  destruct v; simpl; intro H; try discriminate;
    try (destruct (restricted k); simpl in H; try discriminate);
    inversion H; auto.
Qed.

Lemma get_opt_total (v : value) (k : string) :
  restricted k = false -> exists x, get_opt v k = Ok x.
Proof.
  intro Hk. unfold get_opt. destruct (nullish v) eqn:E.
  - eauto.
  - rewrite get_not_nullish by assumption. eauto.
Qed.

(** A read throws only a TypeError. *)
Lemma get_throws_TypeError (v : value) (k : string) (e : exn) :
  get v k = Throw e -> exists m, e = TypeError m.
Proof.
  destruct v; simpl; intro H;
    try (destruct (restricted k); simpl in H);
    try discriminate; inversion H; eauto.
Qed.

Lemma falsy_truthy (v : value) : falsy v = false <-> truthy v = true.
Proof. unfold falsy. destruct (truthy v); simpl; intuition congruence. Qed.

(** Strict equality of two values implies that they are the same value. *)
Lemma strict_equal_eq (a b : value) : strict_equal a b = true -> a = b.
Proof.
  destruct a, b; simpl; try congruence.
  - intro H. apply Bool.eqb_prop in H. congruence.
  - destruct n, n0; simpl; try congruence.
    intro H. apply Z.eqb_eq in H. congruence.
  - intro H. apply String.eqb_eq in H. congruence.
  - destruct f, f0; simpl; congruence.
Qed.

(** ** Strings *)

Lemma append_assoc (a b c : string) : (a ++ b) ++ c = a ++ (b ++ c).
Proof. induction a as [|x a IH]; simpl; [reflexivity | now rewrite IH]. Qed.

Lemma append_eq_empty (s1 s2 : string) : s1 ++ s2 = "" -> s1 = "" /\ s2 = "".
Proof. destruct s1; simpl; [auto | discriminate]. Qed.

(** ** Decimal numerals: parseInt reads back what toString prints *)

Lemma is_digit_digit_char (d : Z) :
  0 <= d < 10 -> is_digit (digit_char d) = true.
Proof.
  intros H. unfold is_digit, digit_char.
  rewrite nat_ascii_embedding by lia.
  apply andb_true_intro; split; apply Nat.leb_le; lia.
Qed.

Lemma digit_value_digit_char (d : Z) :
  0 <= d < 10 -> digit_value (digit_char d) = d.
Proof.
  intros H. unfold digit_value, digit_char.
  rewrite nat_ascii_embedding by lia. lia.
Qed.

Lemma digits_of_head (fuel : nat) (n : Z) (acc : string) :
  0 <= n ->
  exists c rest,
    digits_of (S fuel) n acc = String c rest /\ is_digit c = true.
Proof.
  revert n acc. induction fuel as [|fuel IH]; intros n acc Hn.
  - simpl. destruct (n <? 10);
      eexists _, _; (split; [reflexivity|]);
      apply is_digit_digit_char, Z.mod_pos_bound; lia.
  - change (digits_of (S (S fuel)) n acc)
      with (if n <? 10 then String (digit_char (n mod 10)) acc
            else digits_of (S fuel) (n / 10)
                   (String (digit_char (n mod 10)) acc)).
    destruct (n <? 10).
    + eexists _, _; split; [reflexivity|].
      apply is_digit_digit_char, Z.mod_pos_bound; lia.
    + apply IH. apply Z.div_pos; lia.
Qed.

Lemma digits_value_digits_of (fuel : nat) :
  forall n acc, 0 <= n < 10 ^ Z.of_nat fuel ->
  exists k : nat, forall a,
    digits_value a (digits_of fuel n acc)
    = digits_value (a * 10 ^ Z.of_nat k + n) acc.
Proof.
  induction fuel as [|fuel IH]; intros n acc Hn.
  - exists 0%nat. intro a. simpl in *. f_equal. lia.
  - assert (Hm : 0 <= n mod 10 < 10) by (apply Z.mod_pos_bound; lia).
    simpl digits_of. destruct (n <? 10) eqn:E.
    + apply Z.ltb_lt in E. exists 1%nat. intro a. cbn [digits_value].
      rewrite is_digit_digit_char, digit_value_digit_char by assumption.
      rewrite Z.mod_small by lia. f_equal.
      change (10 ^ Z.of_nat 1) with 10. lia.
    + apply Z.ltb_ge in E.
      destruct (IH (n / 10) (String (digit_char (n mod 10)) acc)) as [k Hk].
      { split; [apply Z.div_pos; lia|].
        apply Z.div_lt_upper_bound; [lia|].
        rewrite Nat2Z.inj_succ, Z.pow_succ_r in Hn by lia. lia. }
      exists (S k). intro a. rewrite Hk.
      cbn [digits_value].
      rewrite is_digit_digit_char, digit_value_digit_char by assumption.
      f_equal. rewrite Nat2Z.inj_succ, Z.pow_succ_r by lia.
      pose proof (Z.div_mod n 10 ltac:(lia)). lia.
Qed.

Lemma decimal_fuel (n : Z) : 0 <= n -> n < 10 ^ Z.of_nat (S (Z.to_nat (Z.log2 n))).
Proof.
  intro Hn. rewrite Nat2Z.inj_succ, Z2Nat.id by apply Z.log2_nonneg.
  destruct (Z.eq_dec n 0) as [->|Hz]; [reflexivity|].
  pose proof (Z.log2_spec n ltac:(lia)) as [_ Hlt].
  eapply Z.lt_le_trans; [exact Hlt|].
  apply Z.pow_le_mono_l. lia.
Qed.

Lemma digits_value_decimal (n : Z) : 0 <= n -> digits_value 0 (decimal n) = n.
Proof.
  intro Hn. unfold decimal.
  destruct (digits_value_digits_of (S (Z.to_nat (Z.log2 n))) n ""
              (conj Hn (decimal_fuel n Hn))) as [k Hk].
  rewrite Hk. reflexivity.
Qed.

Lemma decimal_head (n : Z) :
  0 <= n -> exists c rest, decimal n = String c rest /\ is_digit c = true.
Proof. intro Hn. unfold decimal. now apply digits_of_head. Qed.

Lemma digit_not_whitespace (c : ascii) :
  is_digit c = true -> is_whitespace c = false.
Proof.
  unfold is_digit, is_whitespace. cbv zeta. intro H.
  apply andb_prop in H as [H1 H2].
  apply Nat.leb_le in H1, H2.
  repeat (apply orb_false_intro || apply andb_false_intro2).
  - apply Nat.eqb_neq. lia.
  - apply Nat.leb_gt. lia.
  - apply Nat.eqb_neq. lia.
Qed.

Lemma digit_not_sign (c : ascii) :
  is_digit c = true -> Ascii.eqb c "-" = false /\ Ascii.eqb c "+" = false.
Proof.
  intro H. split; apply Ascii.eqb_neq; intros ->; discriminate H.
Qed.

(** An integer of magnitude up to [2^53] is a double. *)
Lemma round_to_double_exact (z : Z) :
  Z.abs z <= 2 ^ 53 -> round_to_double z = Int z.
Proof.
  intro H. unfold round_to_double. cbv zeta.
  destruct (Z.leb_spec (Z.abs z) (2 ^ 53)); [reflexivity|lia].
Qed.

(** [parseInt] reads a canonical decimal numeral back. *)
Lemma parseInt10_decimal (n : Z) :
  0 <= n <= 2 ^ 53 -> parseInt10 (Str (decimal n)) = Int n.
Proof.
  intros [Hn Hb]. unfold parseInt10. simpl to_string.
  destruct (decimal_head n Hn) as (c & rest & E & Hc).
  pose proof (digits_value_decimal n Hn) as Hv.
  rewrite E in *. simpl skip_whitespace.
  rewrite (digit_not_whitespace c Hc).
  destruct (digit_not_sign c Hc) as [-> ->].
  unfold parse_digits. rewrite Hc, Hv.
  apply round_to_double_exact. lia.
Qed.

Lemma digits_of_all_digits (fuel : nat) :
  forall n acc, 0 <= n ->
  forallb is_digit (list_ascii_of_string acc) = true ->
  forallb is_digit (list_ascii_of_string (digits_of fuel n acc)) = true.
Proof.
  induction fuel as [|fuel IH]; intros n acc Hn Hacc; simpl; [exact Hacc|].
  assert (Hd : forallb is_digit
                 (list_ascii_of_string (String (digit_char (n mod 10)) acc))
               = true).
  { simpl. rewrite Hacc, is_digit_digit_char; [reflexivity|].
    apply Z.mod_pos_bound. lia. }
  destruct (n <? 10); [exact Hd|].
  apply IH; [apply Z.div_pos; lia | exact Hd].
Qed.

(** Every numeral is read by [parseInt] as the number it denotes, and
    [toString] prints a numeral. *)
Lemma parseInt10_numeral (s : string) (n : Z) :
  numeral s n -> Z.abs n <= 2 ^ 53 -> parseInt10 (Str s) = Int n.
Proof.
  intros (Hne & Hall & Hv) Hb. unfold parseInt10. simpl to_string.
  destruct s as [|c rest]; [congruence|].
  simpl in Hall. apply andb_prop in Hall as [Hc _].
  simpl skip_whitespace. rewrite (digit_not_whitespace c Hc).
  destruct (digit_not_sign c Hc) as [-> ->].
  unfold parse_digits. rewrite Hc, Hv.
  now apply round_to_double_exact.
Qed.

Lemma numeral_truthy (s : string) (n : Z) :
  numeral s n -> truthy (Str s) = true.
Proof. intros (Hne & _). destruct s; [congruence | reflexivity]. Qed.

Lemma numeral_decimal (n : Z) : 0 <= n -> numeral (decimal n) n.
Proof.
  intro Hn. split; [|split].
  - destruct (decimal_head n Hn) as (c & rest & E & _). rewrite E. discriminate.
  - unfold decimal. now apply digits_of_all_digits.
  - now apply digits_value_decimal.
Qed.

(** ** Objects *)

Lemma assoc_set_field_same {V} (k : string) (v : V) fields :
  assoc k (set_field k v fields) = Some v.
Proof.
  induction fields as [|[k' v'] rest IH]; simpl.
  - now rewrite String.eqb_refl.
  - destruct (k' =? k)%string eqn:E; simpl.
    + now rewrite String.eqb_refl.
    + now rewrite E.
Qed.

Lemma assoc_set_field_other {V} (k k' : string) (v : V) fields :
  k <> k' -> assoc k (set_field k' v fields) = assoc k fields.
Proof.
  intro Hne. induction fields as [|[k0 v0] rest IH]; simpl.
  - apply String.eqb_neq in Hne. rewrite String.eqb_sym in Hne. now rewrite Hne.
  - destruct (k0 =? k')%string eqn:E; simpl.
    + apply String.eqb_eq in E. subst k0.
      assert (F : (k' =? k)%string = false)
        by (apply String.eqb_neq; congruence).
      now rewrite F.
    + destruct (k0 =? k)%string; [reflexivity | exact IH].
Qed.

Lemma keys_set_field_present {V} (k : string) (v : V) fields :
  In k (map fst fields) -> map fst (set_field k v fields) = map fst fields.
Proof.
  induction fields as [|[k' v'] rest IH]; simpl; [tauto|].
  intros H. destruct (k' =? k)%string eqn:E; simpl.
  - apply String.eqb_eq in E. now subst.
  - f_equal. apply IH. destruct H as [H|H]; [|exact H].
    apply String.eqb_neq in E. congruence.
Qed.

Lemma keys_set_field_absent {V} (k : string) (v : V) fields :
  ~ In k (map fst fields) ->
  set_field k v fields = (fields ++ [(k, v)])%list.
Proof.
  induction fields as [|[k' v'] rest IH]; simpl; [reflexivity|].
  intros H. destruct (k' =? k)%string eqn:E.
  - apply String.eqb_eq in E. tauto.
  - f_equal. apply IH. tauto.
Qed.

(** Spreading an object whose property names are pairwise different copies
    it as it is. *)
Lemma fold_set_field_fresh {V} (fields acc : list (string * V)) :
  NoDup (map fst (acc ++ fields)%list) ->
  fold_left (fun a kv => set_field (fst kv) (snd kv) a) fields acc
  = (acc ++ fields)%list.
Proof.
  revert acc. induction fields as [|[k v] rest IH]; intros acc Hnd; simpl.
  - now rewrite app_nil_r.
  - rewrite keys_set_field_absent.
    + rewrite IH; rewrite <- app_assoc; [reflexivity | exact Hnd].
    + rewrite map_app in Hnd. simpl in Hnd.
      apply NoDup_remove_2 in Hnd. intro Hin. apply Hnd.
      apply in_or_app. now left.
Qed.

Lemma spread_Obj (fields : list (string * value)) :
  NoDup (map fst fields) -> spread (Obj fields) = fields.
Proof. intro H. unfold spread. simpl. now rewrite fold_set_field_fresh. Qed.

Lemma spread_fresh (v : value) :
  NoDup (keys (own_enumerable v)) -> spread v = own_enumerable v.
Proof. intro H. unfold spread. now rewrite fold_set_field_fresh. Qed.

Lemma get_Obj (fields : list (string * value)) (k : string) (v : value) :
  assoc k fields = Some v -> get (Obj fields) k = Ok v.
Proof. intro H. unfold get, member, own. cbn [is_function andb]. now rewrite H. Qed.

Lemma set_field_updated {V} (k : string) (v : V) (fields : list (string * V)) :
  updated k v fields (set_field k v fields).
Proof.
  split; [apply assoc_set_field_same|]. split.
  - intros k' Hne. now apply assoc_set_field_other.
  - unfold keys_after, keys. destruct (in_dec string_dec k (map fst fields)).
    + now apply keys_set_field_present.
    + rewrite keys_set_field_absent by assumption.
      now rewrite map_app.
Qed.

(** ** Arrays *)

Lemma splice_beyond_end (items : list value) (start : Z) :
  Z.of_nat (List.length items) <= start -> splice items start 1 = items.
Proof.
  intro H. unfold splice. cbv zeta.
  destruct (start <? 0) eqn:E; [apply Z.ltb_lt in E; lia|].
  rewrite (Z.min_r start) by lia.
  replace (Z.min (Z.max 1 0) _) with 0 by lia.
  rewrite Z.add_0_r, Nat2Z.id.
  rewrite firstn_all, skipn_all. apply app_nil_r.
Qed.

Lemma splice_from_end (items : list value) (start : Z) :
  start < 0 ->
  let k := Z.to_nat (Z.max (Z.of_nat (List.length items) + start) 0) in
  splice items start 1 = (firstn k items ++ skipn (S k) items)%list.
Proof.
  intros H k. unfold splice. cbv zeta.
  destruct (start <? 0) eqn:E; [|apply Z.ltb_ge in E; lia].
  fold k. f_equal.
  destruct items as [|x items'].
  - now rewrite !skipn_nil.
  - f_equal. subst k.
    set (len := Z.of_nat (List.length (x :: items'))) in *.
    assert (0 < len) by (subst len; simpl List.length; lia).
    rewrite <- Z2Nat.inj_succ by lia. f_equal. lia.
Qed.

Lemma splice_within (items : list value) (i : nat) :
  (i < List.length items)%nat ->
  splice items (Z.of_nat i) 1 = (firstn i items ++ skipn (S i) items)%list.
Proof.
  intro H. unfold splice. cbv zeta.
  destruct (Z.of_nat i <? 0) eqn:E; [apply Z.ltb_lt in E; lia|].
  rewrite (Z.min_l (Z.of_nat i)) by lia.
  replace (Z.min (Z.max 1 0) _) with 1 by lia.
  rewrite Nat2Z.id. do 2 f_equal. lia.
Qed.

Lemma filter_m_In (f : value -> result bool) (items kept : list value) :
  filter_m f items = Ok kept ->
  forall x, In x kept <-> In x items /\ f x = Ok true.
Proof.
  revert kept. induction items as [|y rest IH]; intros kept H x.
  - inversion H; subst. simpl. tauto.
  - simpl in H. destruct (f y) as [keep|e] eqn:Ey; [|discriminate].
    cbn [bind] in H.
    destruct (filter_m f rest) as [kept'|e] eqn:Er; [|discriminate].
    cbn [bind] in H. inversion H; subst; clear H.
    specialize (IH kept' eq_refl x).
    destruct keep; simpl; rewrite IH.
    + split.
      * intros [->|[H1 H2]]; auto.
      * intros [[->|H1] H2]; auto.
    + split.
      * intros [H1 H2]; auto.
      * intros [[->|H1] H2]; [congruence | auto].
Qed.

Lemma filter_m_total (f : value -> result bool) (items : list value) :
  Forall (fun x => exists r, f x = Ok r) items ->
  exists kept, filter_m f items = Ok kept.
Proof.
  induction 1 as [|x rest [r Hx] _ [kept IH]]; simpl; [eauto|].
  rewrite Hx, IH. cbn [bind]. eauto.
Qed.

Lemma map_indexed_In {A} (f : value -> Z -> result A) (items : list value) :
  forall i ys, map_indexed f items i = Ok ys ->
  forall y, In y ys -> exists x j, In x items /\ f x j = Ok y.
Proof.
  induction items as [|x rest IH]; intros i ys H y Hy.
  - inversion H; subst. destruct Hy.
  - simpl in H. destruct (f x i) as [y0|e] eqn:E0; [|discriminate].
    cbn [bind] in H.
    destruct (map_indexed f rest (i + 1)) as [ys'|e] eqn:Er; [|discriminate].
    cbn [bind] in H. inversion H; subst; clear H.
    destruct Hy as [<-|Hy].
    + exists x, i. split; [now left | exact E0].
    + destruct (IH _ _ Er y Hy) as (x' & j & Hin & Hf).
      exists x', j. split; [now right | exact Hf].
Qed.

Lemma map_indexed_Forall2 {A} (f : value -> Z -> result A)
  (items : list value) :
  forall i ys, map_indexed f items i = Ok ys ->
  Forall2 (fun x y => exists j, f x j = Ok y) items ys.
Proof.
  induction items as [|x rest IH]; intros i ys H.
  - inversion H; subst. constructor.
  - simpl in H. destruct (f x i) as [y0|e] eqn:E0; [|discriminate].
    cbn [bind] in H.
    destruct (map_indexed f rest (i + 1)) as [ys'|e] eqn:Er; [|discriminate].
    cbn [bind] in H. inversion H; subst; clear H.
    constructor; [eauto | eapply IH; eassumption].
Qed.

Lemma map_indexed_total {A} (f : value -> Z -> result A) (items : list value) :
  Forall (fun x => forall i, exists y, f x i = Ok y) items ->
  forall i, exists ys, map_indexed f items i = Ok ys.
Proof.
  induction 1 as [|x rest Hx _ IH]; intro i; simpl; [eauto|].
  destruct (Hx i) as [y ->]. destruct (IH (i + 1)) as [ys ->].
  cbn [bind]. eauto.
Qed.

(** ** The matcher and the language of a regular expression *)

Lemma nullable_complete (r : Regex.t) (s : string) :
  lang r s -> s = "" -> Regex.nullable r = true.
Proof.
  induction 1; intro E; simpl; auto; try discriminate.
  - apply append_eq_empty in E as [-> ->]. rewrite IHlang1, IHlang2; auto.
  - rewrite IHlang; auto.
  - rewrite IHlang; auto. apply orb_true_r.
Qed.

Lemma deriv_complete (r : Regex.t) (w : string) :
  lang r w -> forall c s, w = String c s -> lang (Regex.deriv c r) s.
Proof.
  induction 1 as [ | p c0 Hp | a b s1 s2 Ha IHa Hb IHb | a b s0 Ha IHa
                   | a b s0 Hb IHb | a | a s1 s2 Ha IHa Hs IHs ];
    intros c s E; simpl.
  - discriminate.
  - inversion E; subst. rewrite Hp. constructor.
  - destruct s1 as [|c1 s1'].
    + simpl in E. rewrite (nullable_complete a "" Ha eq_refl).
      apply lang_alt_r. now apply IHb.
    + simpl in E. inversion E; subst.
      assert (L : lang (Regex.Cat (Regex.deriv c a) b) (s1' ++ s2))
        by (constructor; auto).
      destruct (Regex.nullable a); [now apply lang_alt_l | exact L].
  - apply lang_alt_l. now apply IHa.
  - apply lang_alt_r. now apply IHb.
  - discriminate.
  - destruct s1 as [|c1 s1'].
    + simpl in E. now apply IHs.
    + simpl in E. inversion E; subst. constructor; auto.
Qed.

(** The matcher accepts every string of the language. *)
Lemma matches_complete (s : string) :
  forall r, lang r s -> Regex.matches r s = true.
Proof.
  induction s as [|c s IH]; intros r H; simpl.
  - now apply (nullable_complete r "").
  - apply IH. now apply (deriv_complete r (String c s)).
Qed.

Lemma nullable_sound (r : Regex.t) : Regex.nullable r = true -> lang r "".
Proof.
  induction r; simpl; intro H; try discriminate.
  - constructor.
  - apply andb_prop in H as [H1 H2].
    change "" with ("" ++ ""). constructor; auto.
  - apply orb_prop in H as [H|H]; [apply lang_alt_l | apply lang_alt_r]; auto.
  - constructor.
Qed.

Lemma deriv_sound (c : ascii) (r : Regex.t) :
  forall s, lang (Regex.deriv c r) s -> lang r (String c s).
Proof.
  induction r as [ | | p | a IHa b IHb | a IHa b IHb | a IHa ];
    simpl; intros s H.
  - inversion H.
  - inversion H.
  - destruct (p c) eqn:E; inversion H; subst. now constructor.
  - assert (Hcat : forall s', lang (Regex.Cat (Regex.deriv c a) b) s' ->
                              lang (Regex.Cat a b) (String c s')).
    { intros s' H'. inversion H'; subst.
      change (String c (s1 ++ s2)) with (String c s1 ++ s2).
      constructor; auto. }
    destruct (Regex.nullable a) eqn:N; [|now apply Hcat].
    inversion H; subst; [now apply Hcat|].
    change (String c s) with ("" ++ String c s).
    constructor; [now apply nullable_sound | auto].
  - inversion H; subst; [apply lang_alt_l | apply lang_alt_r]; auto.
  - inversion H; subst.
    change (String c (s1 ++ s2)) with (String c s1 ++ s2).
    constructor; auto.
Qed.

(** The matcher accepts only strings of the language. *)
Lemma matches_sound (s : string) :
  forall r, Regex.matches r s = true -> lang r s.
Proof.
  induction s as [|c s IH]; intros r H; simpl in H.
  - now apply nullable_sound.
  - apply deriv_sound. now apply IH.
Qed.

Lemma lang_star_any (s : string) : lang (Regex.Star Regex.any) s.
Proof.
  induction s as [|c s IH]; [constructor|].
  change (String c s) with (String c "" ++ s).
  constructor; [now constructor | exact IH].
Qed.

Lemma lang_star_word (w : string) :
  forallb Regex.is_word (list_ascii_of_string w) = true ->
  lang (Regex.Star Regex.word) w.
Proof.
  induction w as [|c w IH]; simpl; intro H; [constructor|].
  apply andb_prop in H as [Hc Hw].
  change (String c w) with (String c "" ++ w).
  constructor; [now constructor | auto].
Qed.

Lemma lang_plus_word (w : string) :
  word_chars w -> lang (Regex.plus Regex.word) w.
Proof.
  intros [Hne Hall]. destruct w as [|c w]; [congruence|].
  simpl in Hall. apply andb_prop in Hall as [Hc Hw].
  change (String c w) with (String c "" ++ w).
  constructor; [now constructor | now apply lang_star_word].
Qed.

Lemma lang_char (c : ascii) : lang (Regex.char c) (String c "").
Proof. constructor. apply Ascii.eqb_refl. Qed.

Lemma lang_email_shape (local domain tld : string) :
  word_chars local -> word_chars domain -> word_chars tld ->
  lang email_shape (local ++ "@" ++ domain ++ "." ++ tld).
Proof.
  intros Hl Hd Ht. unfold email_shape.
  constructor; [now apply lang_plus_word|].
  change ("@" ++ domain ++ "." ++ tld)
    with (String "@" "" ++ (domain ++ "." ++ tld)).
  constructor; [apply lang_char|].
  constructor; [now apply lang_plus_word|].
  change ("." ++ tld) with (String "." "" ++ tld).
  constructor; [apply lang_char | now apply lang_plus_word].
Qed.

(** [/\w+@\w+\.\w+/.test] accepts any text that holds an address-shaped
    substring, whatever stands before and after it. *)
Lemma email_test_substring (before local domain tld after : string) :
  word_chars local -> word_chars domain -> word_chars tld ->
  Regex.test email_shape
    (before ++ local ++ "@" ++ domain ++ "." ++ tld ++ after) = true.
Proof.
  intros Hl Hd Ht. unfold Regex.test. apply matches_complete.
  constructor; [apply lang_star_any|].
  replace (local ++ "@" ++ domain ++ "." ++ tld ++ after)
    with ((local ++ "@" ++ domain ++ "." ++ tld) ++ after).
  - constructor; [now apply lang_email_shape | apply lang_star_any].
  - rewrite append_assoc. f_equal. simpl. f_equal.
    rewrite append_assoc. reflexivity.
Qed.

(** ** Postconditions of computations that may throw *)

Lemma all_ok {A} (P : A -> Prop) (a : A) : P a -> all_results P (Ok a).
Proof. exact (fun H => H). Qed.

Lemma all_bind {A B} (Q : A -> Prop) (P : B -> Prop)
  (m : result A) (k : A -> result B) :
  all_results Q m -> (forall a, Q a -> all_results P (k a)) ->
  all_results P (bind m k).
Proof. destruct m; simpl; auto. Qed.

Lemma all_trivial {A} (m : result A) : all_results (fun _ => True) m.
Proof. now destruct m. Qed.

Lemma all_if {A} (P : A -> Prop) (b : bool) (x y : result A) :
  all_results P x -> all_results P y -> all_results P (if b then x else y).
Proof. now destruct b. Qed.

Lemma map_indexed_all {A} (P : A -> Prop) (f : value -> Z -> result A)
  (items : list value) :
  (forall x i, all_results P (f x i)) ->
  forall i, all_results (Forall P) (map_indexed f items i).
Proof.
  intro Hf. induction items as [|x rest IH]; intro i; simpl.
  - constructor.
  - apply (all_bind P); [apply Hf|]. intros y Hy.
    apply (all_bind (Forall P)); [apply IH|]. intros ys Hys.
    simpl. now constructor.
Qed.

(* ================================================================== *)
(** * Adding an absence record *)
(* ================================================================== *)

Lemma spec_number_decimal (f : value) (n : Z) :
  has_spec_number f n -> Z.abs n <= 2 ^ 53 -> spec_number f = Ok (Int n).
Proof.
  intros (element & s & Hf & Ht & Hs) Hb. unfold spec_number.
  rewrite Hf. cbn [bind].
  destruct (get_Ok_member _ _ _ Ht) as [_ Hnn].
  unfold get_opt. rewrite Hnn, Ht. cbn [bind].
  rewrite (numeral_truthy s n Hs).
  now rewrite (parseInt10_numeral s n Hs Hb).
Qed.

Lemma map_m_spec_number (fs : list value) (ns : list Z) :
  Forall2 has_spec_number fs ns ->
  Forall (fun n => Z.abs n <= 2 ^ 53) ns ->
  map_m spec_number fs = Ok (map Int ns).
Proof.
  induction 1 as [|f n fs ns Hf _ IH]; intro Hb; [reflexivity|].
  inversion Hb as [|? ? Hn Hrest]; subst.
  simpl. rewrite (spec_number_decimal f n) by assumption. simpl.
  rewrite IH by assumption. reflexivity.
Qed.

Lemma fold_number_max_Int (ns : list Z) (a : Z) :
  fold_left number_max (map Int ns) (Int a) = Int (fold_left Z.max ns a).
Proof. revert a. induction ns as [|n ns IH]; intro a; simpl; auto. Qed.

Lemma fold_max_is_maximum (ns : list Z) (a : Z) :
  is_maximum (fold_left Z.max ns a) (a :: ns).
Proof.
  revert a. induction ns as [|n ns IH]; intro a; simpl.
  - split; [now left | constructor; [lia | constructor]].
  - destruct (IH (Z.max a n)) as [Hin Hall]. split.
    + destruct Hin as [Hin|Hin]; [|now right; right].
      destruct (Z.max_spec a n) as [[_ E]|[_ E]]; rewrite E in *;
        [right; left | left]; exact Hin.
    + inversion Hall as [|? ? Hmax Hrest]; subst.
      constructor; [lia|]. constructor; [lia | exact Hrest].
Qed.

Lemma math_max_Int (n : Z) (ns : list Z) :
  math_max (map Int (n :: ns)) = Int (fold_left Z.max ns n).
Proof. unfold math_max. simpl. apply fold_number_max_Int. Qed.

Lemma max_spec_number_decimal (fs : list value) (ns : list Z) :
  Forall2 has_spec_number fs ns ->
  Forall (fun n => Z.abs n <= 2 ^ 53) ns ->
  exists m, max_spec_number fs = Ok (Int m)
            /\ (ns = [] -> m = 0) /\ (ns <> [] -> is_maximum m ns).
Proof.
  intros H2 Hb. unfold max_spec_number.
  destruct H2 as [|f n fs ns Hf Hrest].
  - exists 0. simpl. repeat split; congruence.
  - exists (fold_left Z.max ns n).
    change (0 <? List.length (f :: fs))%nat with true. cbv iota.
    rewrite (map_m_spec_number (f :: fs) (n :: ns))
      by (assumption || constructor; assumption).
    cbn [bind]. rewrite math_max_Int.
    split; [reflexivity|]. split; [discriminate|].
    intros _. apply fold_max_is_maximum.
Qed.

Lemma assoc_optional_field (k name text faltkod : string) fields :
  k <> name -> assoc k (optional_field name text faltkod fields) = assoc k fields.
Proof.
  intro Hne. unfold optional_field.
  destruct (truthy (Str text)); [|reflexivity].
  now apply assoc_set_field_other.
Qed.

(** A non-negative integer up to [2^53] prints as its decimal numeral. *)
Lemma number_to_string_decimal (z : Z) :
  0 <= z <= 2 ^ 53 -> number_to_string (Int z) = decimal z.
Proof.
  intros [H0 Hb]. unfold number_to_string, magnitude_to_string.
  destruct (Z.ltb_spec z 0); [lia|].
  destruct (Z.leb_spec z (2 ^ 53)); [reflexivity|lia].
Qed.

Lemma new_franvaro_spec_number (arende : Arende) (franvaro : FormData) (m : Z) :
  0 <= m + 1 <= 2 ^ 53 -> Z.abs m <= 2 ^ 53 ->
  has_spec_number (new_franvaro arende franvaro (Int m)) (m + 1).
Proof.
  intros Hm Hb. unfold has_spec_number, new_franvaro.
  eexists _, (decimal (m + 1)). split; [|split].
  - apply get_Obj.
    repeat rewrite assoc_optional_field by discriminate.
    reflexivity.
  - unfold XMLElement. erewrite get_Obj by reflexivity.
    cbn [number_add]. rewrite round_to_double_exact by lia.
    now rewrite number_to_string_decimal.
  - apply numeral_decimal. lia.
Qed.

(** C4, as amended.  For a case whose absence records carry positive
    specification numbers [ns], written as decimal numerals and below
    [2^53], [handleAddFranvaro] appends one record to the case's list,
    and that record's specification number is one greater than the
    greatest of [ns], or 1 when the case has no absence record. *)
Theorem addAbsence_next_specification_number
  (arendeList : list Arende) (arendeIndex : nat) (arende : Arende)
  (franvaro : FormData) (ns : list Z) :
  nth_error arendeList arendeIndex = Some arende ->
  Forall2 has_spec_number (franvaroList arende) ns ->
  Forall (fun n => 0 < n < 2 ^ 53) ns ->
  exists newFranvaro m,
    handleAddFranvaro arendeList arendeIndex franvaro
    = Ok (arendeIndex, (franvaroList arende ++ [newFranvaro])%list)
    /\ (ns = [] -> m = 0)
    /\ (ns <> [] -> is_maximum m ns)
    /\ has_spec_number newFranvaro (m + 1).
Proof.
  intros Hnth H2 Hrange.
  assert (Hexact : Forall (fun n => Z.abs n <= 2 ^ 53) ns).
  { eapply Forall_impl; [|exact Hrange]. simpl. intros; lia. }
  destruct (max_spec_number_decimal _ _ H2 Hexact)
    as (m & Hmax & Hnil & Hcons).
  exists (new_franvaro arende franvaro (Int m)), m.
  unfold handleAddFranvaro, current_arende. rewrite Hnth. cbn [bind].
  rewrite Hmax. cbn [bind].
  split; [reflexivity|]. split; [exact Hnil|]. split; [exact Hcons|].
  assert (0 <= m < 2 ^ 53) as Hm.
  { destruct ns as [|n ns']; [rewrite Hnil by reflexivity; lia|].
    destruct (Hcons ltac:(discriminate)) as [Hin _].
    rewrite Forall_forall in Hrange. specialize (Hrange m Hin). lia. }
  apply new_franvaro_spec_number; lia.
Qed.

Lemma addAbsence_next_specification_number_witness :
  nth_error [case_two_records] 0 = Some case_two_records
  /\ Forall2 has_spec_number (franvaroList case_two_records) [1; 2]
  /\ Forall (fun n => 0 < n < 2 ^ 53) [1; 2]
  /\ exists newFranvaro m,
       handleAddFranvaro [case_two_records] 0 sample_form
       = Ok (0%nat, (franvaroList case_two_records ++ [newFranvaro])%list)
       /\ ([1; 2] = [] -> m = 0)
       /\ ([1; 2] <> [] -> is_maximum m [1; 2])
       /\ has_spec_number newFranvaro (m + 1).
Proof.
  assert (H1 : nth_error [case_two_records] 0 = Some case_two_records)
    by reflexivity.
  assert (H2 : Forall2 has_spec_number (franvaroList case_two_records) [1; 2]).
  { repeat constructor; eexists _, _;
      (split; [reflexivity|]); (split; [reflexivity|]);
      (split; [discriminate|]); split; reflexivity. }
  assert (H3 : Forall (fun n => 0 < n < 2 ^ 53) [1; 2]).
  { repeat constructor; lia. }
  repeat (split; [assumption|]).
  exact (addAbsence_next_specification_number
           [case_two_records] 0 case_two_records sample_form [1; 2] H1 H2 H3).
Defined.

(** C4 does not hold for every case.  The number of a record is read by
    [parseInt] into a double and the new number is printed from a double:
    after a record numbered 9007199254740993 the new record is numbered
    9007199254740992, which is smaller; after a record whose number is
    the text "n/a" the new record is numbered "NaN". *)
Lemma addAbsence_number_not_successor :
  (exists newFranvaro,
     Forall2 has_spec_number (franvaroList case_large_number)
       [9007199254740993]
     /\ handleAddFranvaro [case_large_number] 0 sample_form
        = Ok (0%nat, (franvaroList case_large_number ++ [newFranvaro])%list)
     /\ text_of newFranvaro "FranvaroSpecifikationsnummer"
        = Ok (Str "9007199254740992")
     /\ has_spec_number newFranvaro 9007199254740992
     /\ ~ has_spec_number newFranvaro (9007199254740993 + 1))
  /\ (exists newFranvaro,
        handleAddFranvaro [case_unreadable_number] 0 sample_form
        = Ok (0%nat,
              (franvaroList case_unreadable_number ++ [newFranvaro])%list)
        /\ text_of newFranvaro "FranvaroSpecifikationsnummer"
           = Ok (Str "NaN")
        /\ forall n, ~ has_spec_number newFranvaro n).
Proof.
  split.
  - eexists. split; [|split; [vm_compute; reflexivity|]].
    + repeat constructor.
      eexists _, "9007199254740993". split; [vm_compute; reflexivity|].
      split; [vm_compute; reflexivity|].
      vm_compute. repeat split. discriminate.
    + split; [vm_compute; reflexivity|]. split.
      * eexists _, "9007199254740992". split; [vm_compute; reflexivity|].
        split; [vm_compute; reflexivity|].
        vm_compute. repeat split. discriminate.
      * intros (element & t & He & Ht & _ & _ & Hv).
        vm_compute in He. injection He as <-.
        vm_compute in Ht. injection Ht as <-.
        vm_compute in Hv. discriminate.
  - eexists. split; [vm_compute; reflexivity|].
    split; [vm_compute; reflexivity|].
    intros n (element & t & He & Ht & _ & Hd & _).
    vm_compute in He. injection He as <-.
    vm_compute in Ht. injection Ht as <-.
    vm_compute in Hd. discriminate.
Qed.

(** The two examples of the specification: numbers 1 and 2 give 3, no
    record gives 1. *)
Example addAbsence_after_1_and_2 :
  exists newFranvaro,
    handleAddFranvaro [case_two_records] 0 sample_form
    = Ok (0%nat, (two_records ++ [newFranvaro])%list)
    /\ text_of newFranvaro "FranvaroSpecifikationsnummer" = Ok (Str "3").
Proof. eexists. split; reflexivity. Qed.

Example addAbsence_first_record :
  exists newFranvaro,
    handleAddFranvaro [case_no_records] 0 sample_form = Ok (0%nat, [newFranvaro])
    /\ text_of newFranvaro "FranvaroSpecifikationsnummer" = Ok (Str "1").
Proof. eexists. split; reflexivity. Qed.

(* ================================================================== *)
(** * Removing an absence record *)
(* ================================================================== *)

(** C1, counterexample.  With two records and index 2 (the length of the
    list) nothing is reported: the update callback receives the same two
    records. *)
Lemma removeAbsence_at_length_returns_list :
  handleRemoveFranvaro [case_two_records] 0 2 = Ok (0%nat, two_records).
Proof. reflexivity. Qed.

(** C1, as amended.  [handleRemoveFranvaro] has no range check.  For an
    index at or beyond the length of the case's absence list it reports no
    error and hands the list back unchanged; a negative index counts back
    from the end of the list, stopping at its start, and the record found
    there is removed. *)
Theorem removeAbsence_outside_list
  (arendeList : list Arende) (arendeIndex : nat) (arende : Arende)
  (franvaroIndex : Z) :
  nth_error arendeList arendeIndex = Some arende ->
  (Z.of_nat (List.length (franvaroList arende)) <= franvaroIndex ->
   handleRemoveFranvaro arendeList arendeIndex franvaroIndex
   = Ok (arendeIndex, franvaroList arende))
  /\ (franvaroIndex < 0 ->
      let k := Z.to_nat
                 (Z.max (Z.of_nat (List.length (franvaroList arende))
                         + franvaroIndex) 0) in
      handleRemoveFranvaro arendeList arendeIndex franvaroIndex
      = Ok (arendeIndex,
            (firstn k (franvaroList arende)
             ++ skipn (S k) (franvaroList arende))%list)).
Proof.
  intro Hnth. unfold handleRemoveFranvaro, current_arende.
  rewrite Hnth. cbn [bind]. split; intro H.
  - now rewrite splice_beyond_end.
  - cbv zeta. now rewrite splice_from_end.
Qed.

Lemma removeAbsence_outside_list_witness :
  nth_error [case_two_records] 0 = Some case_two_records
  /\ handleRemoveFranvaro [case_two_records] 0 5 = Ok (0%nat, two_records)
  /\ handleRemoveFranvaro [case_two_records] 0 (-1)
     = Ok (0%nat, [sample_franvaro "198001011234" "202401" "1"]).
Proof.
  split; [reflexivity|].
  destruct (removeAbsence_outside_list [case_two_records] 0 case_two_records 5
              eq_refl) as [Hbeyond _].
  destruct (removeAbsence_outside_list [case_two_records] 0 case_two_records
              (-1) eq_refl) as [_ Hnegative].
  split.
  - apply Hbeyond. simpl. lia.
  - apply Hnegative. lia.
Defined.

(** With an index inside the list the record there is removed, the others
    keep their order, and nothing is renumbered. *)
Lemma removeAbsence_inside_list
  (arendeList : list Arende) (arendeIndex : nat) (arende : Arende) (i : nat) :
  nth_error arendeList arendeIndex = Some arende ->
  (i < List.length (franvaroList arende))%nat ->
  handleRemoveFranvaro arendeList arendeIndex (Z.of_nat i)
  = Ok (arendeIndex,
        (firstn i (franvaroList arende)
         ++ skipn (S i) (franvaroList arende))%list).
Proof.
  intros Hnth Hi. unfold handleRemoveFranvaro, current_arende.
  rewrite Hnth. cbn [bind]. now rewrite splice_within.
Qed.

(* ================================================================== *)
(** * Extracting the cases *)
(* ================================================================== *)

Lemma same_key_true (id period f : value) :
  same_key id period f = Ok true ->
  text_of f "BetalningsmottagarId" = Ok id
  /\ text_of f "RedovisningsPeriod" = Ok period.
Proof.
  unfold same_key. intro H.
  destruct (text_of f "BetalningsmottagarId") as [a|e]; [|discriminate].
  cbn [bind] in H. destruct (strict_equal a id) eqn:Ea; [|discriminate].
  destruct (text_of f "RedovisningsPeriod") as [b|e]; [|discriminate].
  cbn [bind] in H. inversion H as [Eb].
  apply strict_equal_eq in Ea, Eb. now subst.
Qed.

Lemma existing_franvaro_In (parsedXml id period : value) (l : list value) :
  existing_franvaro parsedXml id period = Ok l ->
  forall f, In f l -> same_key id period f = Ok true.
Proof.
  unfold existing_franvaro. intros H f Hf.
  destruct (get parsedXml "Skatteverket") as [sk|e]; [|discriminate].
  cbn [bind] in H.
  destruct (get_opt sk "Franvarouppgift") as [fu|e]; [|discriminate].
  cbn [bind] in H.
  destruct (truthy fu); [|inversion H; subst; destruct Hf].
  assert (Hsingle :
            (same <- same_key id period fu ;; Ok (if same then [fu] else []))
            = Ok l -> same_key id period f = Ok true).
  { intro Hs. destruct (same_key id period fu) as [[|]|e] eqn:E;
      cbn [bind] in Hs; inversion Hs; subst; clear Hs.
    - destruct Hf as [<-|[]]. exact E.
    - destruct Hf. }
  destruct fu; try (exact (Hsingle H)).
  apply (filter_m_In _ _ _ H) in Hf. tauto.
Qed.

Lemma arende_of_franvaroList (parsedXml blankett : value) (i : Z) (c : Arende) :
  arende_of parsedXml blankett i = Ok c ->
  existing_franvaro parsedXml (betalningsmottagarId c) (period c)
  = Ok (franvaroList c).
Proof.
  unfold arende_of. intro H.
  repeat match type of H with
         | bind ?m _ = Ok _ =>
             let E := fresh "E" in
             destruct m eqn:E; [cbn [bind] in H | discriminate H]
         end.
  inversion H; subst; clear H. simpl. assumption.
Qed.

(** C2, counterexample.  Both forms of the document have the same
    recipient and period; the two cases differ and both lists hold the
    document's one absence record. *)
Lemma extractCases_record_in_two_cases :
  extractArendeInformation document_shared_key = Ok (Some [case_a; case_b])
  /\ case_a <> case_b
  /\ In shared_record (franvaroList case_a)
  /\ In shared_record (franvaroList case_b).
Proof.
  split; [reflexivity|]. split; [discriminate|].
  split; left; reflexivity.
Qed.

(** C2, as amended.  A record of the document that is attached to two
    cases forces those cases to have the same recipient id and the same
    period: the lists of two cases whose keys differ are disjoint. *)
Theorem extractCases_shared_record_same_key
  (parsedXml : value) (cases : list Arende) (c1 c2 : Arende) (f : value) :
  extractArendeInformation parsedXml = Ok (Some cases) ->
  In c1 cases -> In c2 cases ->
  In f (franvaroList c1) -> In f (franvaroList c2) ->
  betalningsmottagarId c1 = betalningsmottagarId c2
  /\ period c1 = period c2.
Proof.
  unfold extractArendeInformation. intros H H1 H2 Hf1 Hf2.
  destruct (falsy parsedXml); [discriminate|].
  repeat match type of H with
         | bind ?m _ = Ok _ =>
             let E := fresh "E" in
             destruct m eqn:E; [cbn [bind] in H | discriminate H]
         end.
  inversion H; subst; clear H.
  match goal with
  | Hm : map_indexed _ _ _ = Ok cases |- _ =>
      destruct (map_indexed_In _ _ _ _ Hm c1 H1) as (b1 & j1 & _ & A1);
      destruct (map_indexed_In _ _ _ _ Hm c2 H2) as (b2 & j2 & _ & A2)
  end.
  apply arende_of_franvaroList in A1, A2.
  destruct (same_key_true _ _ _ (existing_franvaro_In _ _ _ _ A1 f Hf1))
    as [I1 P1].
  destruct (same_key_true _ _ _ (existing_franvaro_In _ _ _ _ A2 f Hf2))
    as [I2 P2].
  split; congruence.
Qed.

Lemma extractCases_shared_record_same_key_witness :
  extractArendeInformation document_shared_key = Ok (Some [case_a; case_b])
  /\ In case_a [case_a; case_b] /\ In case_b [case_a; case_b]
  /\ In shared_record (franvaroList case_a)
  /\ In shared_record (franvaroList case_b)
  /\ betalningsmottagarId case_a = betalningsmottagarId case_b
  /\ period case_a = period case_b.
Proof.
  assert (H : extractArendeInformation document_shared_key
              = Ok (Some [case_a; case_b])) by reflexivity.
  assert (Ha : In case_a [case_a; case_b]) by (left; reflexivity).
  assert (Hb : In case_b [case_a; case_b]) by (right; left; reflexivity).
  assert (Fa : In shared_record (franvaroList case_a)) by (left; reflexivity).
  assert (Fb : In shared_record (franvaroList case_b)) by (left; reflexivity).
  repeat (split; [assumption|]).
  exact (extractCases_shared_record_same_key
           document_shared_key [case_a; case_b] case_a case_b shared_record
           H Ha Hb Fa Fb).
Defined.

Lemma existing_franvaro_iff (parsedXml id period : value) (l : list value) :
  existing_franvaro parsedXml id period = Ok l ->
  exists records,
    document_franvaro parsedXml = Ok records
    /\ forall f, In f l <-> In f records /\ same_key id period f = Ok true.
Proof.
  unfold existing_franvaro, document_franvaro. intros H.
  destruct (get parsedXml "Skatteverket") as [sk|e]; [|discriminate].
  cbn [bind] in *.
  destruct (get_opt sk "Franvarouppgift") as [fu|e]; [|discriminate].
  cbn [bind] in *. eexists. split; [reflexivity|].
  destruct (truthy fu).
  - assert (Hsingle :
        (same <- same_key id period fu ;; Ok (if same then [fu] else []))
        = Ok l ->
        forall f, In f l <-> In f [fu] /\ same_key id period f = Ok true).
    { intros Hs f. destruct (same_key id period fu) as [[|]|e] eqn:E;
        cbn [bind] in Hs; inversion Hs; subst; clear Hs; simpl.
      - split; [intros [<-|[]]; auto | tauto].
      - split; [tauto | intros [[<-|[]] E']; congruence]. }
    destruct fu; try (exact (Hsingle H)).
    simpl as_sequence. apply (filter_m_In _ _ _ H).
  - inversion H; subst. simpl. tauto.
Qed.

Lemma arende_of_blankettInnehall (parsedXml blankett : value) (i : Z)
  (c : Arende) :
  arende_of parsedXml blankett i = Ok c ->
  blankettInnehall c = member blankett "Blankettinnehall" /\ index c = i.
Proof.
  unfold arende_of. intro H.
  repeat match type of H with
         | bind ?m _ = Ok _ =>
             let E := fresh "E" in
             destruct m eqn:E; [cbn [bind] in H | discriminate H]
         end.
  inversion H; subst; clear H. simpl. split; [|reflexivity].
  match goal with
  | Hg : get blankett "Blankettinnehall" = Ok _ |- _ =>
      now apply get_Ok_member in Hg
  end.
Qed.

(** Whenever [extractArendeInformation] completes, the cases are, in
    order, the declaration forms whose Blankettinnehall holds an IU, and
    the absence records attached to a case are the records of the document
    whose recipient id and period both equal the case's. *)
Lemma extractCases_selection_and_matching
  (parsedXml : value) (cases : list Arende) :
  extractArendeInformation parsedXml = Ok (Some cases) ->
  exists blanketter selected records,
    document_blanketter parsedXml = Ok blanketter
    /\ filter_m contains_IU blanketter = Ok selected
    /\ (forall b, In b selected <-> In b blanketter /\ contains_IU b = Ok true)
    /\ Forall2 (fun b c => blankettInnehall c = member b "Blankettinnehall")
               selected cases
    /\ document_franvaro parsedXml = Ok records
    /\ forall c, In c cases ->
       forall f, In f (franvaroList c) <->
                 In f records
                 /\ same_key (betalningsmottagarId c) (period c) f = Ok true.
Proof.
  unfold extractArendeInformation, document_blanketter. intro H.
  destruct (falsy parsedXml) eqn:Hf; [discriminate|].
  destruct (get parsedXml "Skatteverket") as [sk|e] eqn:Esk; [|discriminate].
  cbn [bind] in *.
  destruct (get_opt sk "Blankett") as [bl|e] eqn:Ebl; [|discriminate].
  cbn [bind] in *.
  destruct (filter_m contains_IU _) as [selected|e] eqn:Efil; [|discriminate].
  cbn [bind] in H.
  destruct (map_indexed _ selected 0) as [cs|e] eqn:Emap; [|discriminate].
  cbn [bind] in H. inversion H; subst cs; clear H.
  destruct (get_opt_total sk "Franvarouppgift" eq_refl) as [fu Efu].
  exists (as_sequence (if truthy bl then bl else Arr [])), selected,
    (if truthy fu then as_sequence fu else []).
  split; [reflexivity|].
  split; [exact Efil|].
  split; [exact (filter_m_In _ _ _ Efil)|].
  split.
  { eapply Forall2_impl; [|exact (map_indexed_Forall2 _ _ _ _ Emap)].
    intros b c [j Hj]. now apply arende_of_blankettInnehall in Hj. }
  assert (Hdoc : document_franvaro parsedXml
                 = Ok (if truthy fu then as_sequence fu else [])).
  { unfold document_franvaro. rewrite Esk. cbn [bind]. now rewrite Efu. }
  split; [exact Hdoc|].
  intros c Hc f.
  destruct (map_indexed_In _ _ _ _ Emap c Hc) as (b & j & _ & Hb).
  apply arende_of_franvaroList in Hb.
  destruct (existing_franvaro_iff _ _ _ _ Hb) as (records & Hr & Hiff).
  rewrite Hdoc in Hr. inversion Hr; subst records. apply Hiff.
Qed.

(** C5, at the input where the code fails.  The only declaration form
    of the document holds an IU, so it belongs in the result; it lacks
    the Arendeinformation element, the case owner is read from it without
    a guard, and the extraction throws instead of returning the case. *)
Theorem extractCases_throws_without_case_info :
  contains_IU form_without_case_info = Ok true
  /\ extractArendeInformation document_without_case_info
     = Throw (TypeError
                "Cannot read properties of undefined (reading 'Arendeagare')").
Proof. split; reflexivity. Qed.

Lemma getTextContent_total (obj : value) : exists t, getTextContent obj = Ok t.
Proof.
  unfold getTextContent. destruct (falsy obj) eqn:F; [eauto|].
  destruct (is_string obj); [eauto|].
  apply falsy_truthy in F. rewrite (get_truthy _ _ F) by reflexivity. cbn [bind].
  destruct (truthy (member obj "_text")); eauto.
Qed.

Lemma text_of_total (x : value) (k : string) :
  nullish x = false -> restricted k = false -> exists t, text_of x k = Ok t.
Proof.
  intros H Hk. unfold text_of. rewrite (get_not_nullish _ _ H Hk). cbn [bind].
  apply getTextContent_total.
Qed.

Lemma contains_IU_total (blankett : value) :
  nullish blankett = false -> exists r, contains_IU blankett = Ok r.
Proof.
  intro H. unfold contains_IU. rewrite (get_not_nullish _ _ H) by reflexivity. cbn [bind].
  destruct (falsy (member blankett "Blankettinnehall")) eqn:F; [eauto|].
  apply falsy_truthy in F. rewrite (get_truthy _ _ F) by reflexivity. cbn [bind]. eauto.
Qed.

Lemma same_key_total (id period f : value) :
  nullish f = false -> exists r, same_key id period f = Ok r.
Proof.
  intro H. unfold same_key.
  destruct (text_of_total f "BetalningsmottagarId" H eq_refl) as [a ->]. cbn [bind].
  destruct (strict_equal a id); [|eauto].
  destruct (text_of_total f "RedovisningsPeriod" H eq_refl) as [b ->]. cbn [bind].
  eauto.
Qed.

Lemma existing_franvaro_total (parsedXml id period : value)
  (records : list value) :
  document_franvaro parsedXml = Ok records ->
  Forall (fun f => nullish f = false) records ->
  exists l, existing_franvaro parsedXml id period = Ok l.
Proof.
  unfold document_franvaro, existing_franvaro. intros Hd Hall.
  destruct (get parsedXml "Skatteverket") as [sk|e]; [|discriminate].
  cbn [bind] in *.
  destruct (get_opt sk "Franvarouppgift") as [fu|e]; [|discriminate].
  cbn [bind] in *. inversion Hd; subst records; clear Hd.
  destruct (truthy fu); [|eauto].
  assert (Hsingle : as_sequence fu = [fu] ->
            exists l, (same <- same_key id period fu ;;
                       Ok (if same then [fu] else [])) = Ok l).
  { intro E. rewrite E in Hall. inversion Hall; subst.
    destruct (same_key_total id period fu) as [r ->]; [assumption|].
    cbn [bind]. eauto. }
  destruct fu; try (apply Hsingle; reflexivity).
  simpl in Hall. apply filter_m_total.
  eapply Forall_impl; [|exact Hall]. intros f Hf.
  now apply same_key_total.
Qed.

Lemma arende_of_total (parsedXml blankett : value) (records : list value)
  (i : Z) :
  contains_IU blankett = Ok true ->
  nullish (member blankett "Arendeinformation") = false ->
  document_franvaro parsedXml = Ok records ->
  Forall (fun f => nullish f = false) records ->
  exists c, arende_of parsedXml blankett i = Ok c.
Proof.
  intros Hiu Hinfo Hd Hall. unfold contains_IU in Hiu. unfold arende_of.
  destruct (get blankett "Blankettinnehall") as [bi|e] eqn:Ebi;
    [|discriminate].
  destruct (get_Ok_member _ _ _ Ebi) as [-> Hb].
  rewrite (get_not_nullish _ _ Hb) by reflexivity. cbn [bind] in *.
  destruct (falsy (member blankett "Blankettinnehall")) eqn:F;
    [discriminate|].
  apply falsy_truthy in F. rewrite (get_truthy _ _ F) in * by reflexivity. cbn [bind] in *.
  assert (Hiu' : truthy (member (member blankett "Blankettinnehall") "IU")
                 = true) by congruence.
  destruct (text_of_total _ "Arendeagare" Hinfo eq_refl) as [agare ->].
  destruct (text_of_total _ "Period" Hinfo eq_refl) as [per ->]. cbn [bind].
  rewrite (get_truthy _ _ Hiu') by reflexivity. cbn [bind].
  destruct (get_opt_total
              (member (member (member blankett "Blankettinnehall") "IU")
                      "BetalningsmottagareIUGROUP")
              "BetalningsmottagareIDChoice" eq_refl) as [choice ->].
  cbn [bind].
  destruct (get_opt_total choice "BetalningsmottagarId" eq_refl) as [idElement ->].
  cbn [bind].
  destruct (getTextContent_total idElement) as [id ->]. cbn [bind].
  destruct (existing_franvaro_total parsedXml id per records Hd Hall)
    as [l ->].
  cbn [bind]. eauto.
Qed.

(** The extraction completes on every document whose forms and absence
    records are elements and whose forms with an IU carry an
    Arendeinformation element. *)
Lemma extractCases_completes (parsedXml : value)
  (blanketter records : list value) :
  truthy parsedXml = true ->
  document_blanketter parsedXml = Ok blanketter ->
  Forall (fun b => nullish b = false) blanketter ->
  Forall (fun b => contains_IU b = Ok true ->
                   nullish (member b "Arendeinformation") = false)
         blanketter ->
  document_franvaro parsedXml = Ok records ->
  Forall (fun f => nullish f = false) records ->
  exists cases, extractArendeInformation parsedXml = Ok (Some cases).
Proof.
  intros Ht Hb Hnn Hinfo Hd Hrec.
  unfold extractArendeInformation, document_blanketter in *.
  apply falsy_truthy in Ht. rewrite Ht.
  destruct (get parsedXml "Skatteverket") as [sk|e]; [|discriminate].
  cbn [bind] in *.
  destruct (get_opt sk "Blankett") as [bl|e]; [|discriminate].
  cbn [bind] in *. inversion Hb; subst blanketter; clear Hb.
  destruct (filter_m_total contains_IU
              (as_sequence (if truthy bl then bl else Arr [])))
    as [selected Hsel].
  { eapply Forall_impl; [|exact Hnn]. intros b. apply contains_IU_total. }
  rewrite Hsel. cbn [bind].
  destruct (map_indexed_total (arende_of parsedXml) selected) with (i := 0)
    as [cases Hc].
  { apply Forall_forall. intros b Hin i.
    apply (filter_m_In _ _ _ Hsel) in Hin as [Hin Hiu].
    rewrite Forall_forall in Hinfo.
    eapply arende_of_total; eauto. }
  rewrite Hc. cbn [bind]. eauto.
Qed.

(* ================================================================== *)
(** * The path accessor *)
(* ================================================================== *)

Lemma restricted_false (k : string) :
  restricted k = false <-> k <> "caller" /\ k <> "arguments".
Proof.
  unfold restricted.
  destruct (String.eqb_spec k "caller"), (String.eqb_spec k "arguments");
    simpl; intuition congruence.
Qed.

Lemma restricted_true (k : string) :
  restricted k = true -> k = "caller" \/ k = "arguments".
Proof.
  unfold restricted.
  destruct (String.eqb_spec k "caller"), (String.eqb_spec k "arguments");
    simpl; intuition congruence.
Qed.

(** A read from a value that is not [undefined] or [null] throws only
    when a restricted property of a function is asked for. *)
Lemma get_throws_on_function (v : value) (k : string) (e : exn) :
  nullish v = false -> get v k = Throw e ->
  is_function v = true /\ restricted k = true /\ exists m, e = TypeError m.
Proof.
  intros Hn H. pose proof (get_throws_TypeError v k e H) as Hm.
  destruct v; try discriminate; simpl in H; try discriminate.
  destruct (restricted k); [auto|discriminate].
Qed.

Lemma extract_loop_total (parts : list string) :
  Forall (fun part => restricted part = false) parts ->
  forall current, truthy current = true ->
  exists v, extract_loop current parts = Ok v.
Proof.
  induction 1 as [|part rest Hpart _ IH]; intros current Ht; simpl.
  - eauto.
  - rewrite get_truthy by assumption. cbn [bind].
    destruct (falsy (member current part)) eqn:E; [eauto|].
    apply IH. now apply falsy_truthy.
Qed.

Lemma extract_loop_app (before rest : list string) :
  forall tree current,
  extract_loop tree before = Ok current -> truthy current = true ->
  extract_loop tree (before ++ rest) = extract_loop current rest.
Proof.
  induction before as [|part before IH]; intros tree current H Ht; simpl in *.
  - now inversion H.
  - destruct (get tree part) as [v|e]; [|discriminate]. cbn [bind] in *.
    destruct (falsy v).
    + inversion H; subst. discriminate Ht.
    + now apply IH.
Qed.

Lemma extract_loop_falsy (current x : value) (part : string)
  (rest : list string) :
  get current part = Ok x -> falsy x = true ->
  extract_loop current (part :: rest) = Ok Undefined.
Proof.
  intros Hget Hf. simpl. rewrite Hget. cbn [bind]. now rewrite Hf.
Qed.

(** The walk throws only at a segment [caller] or [arguments] that is
    read from a function. *)
Lemma extract_loop_throws (parts : list string) :
  forall current e,
  truthy current = true -> extract_loop current parts = Throw e ->
  exists before part rest f m,
    parts = (before ++ part :: rest)%list
    /\ restricted part = true
    /\ extract_loop current before = Ok f
    /\ is_function f = true
    /\ e = TypeError m.
Proof.
  induction parts as [|part rest IH]; intros current e Ht H; simpl in H;
    [discriminate|].
  destruct (get current part) as [v|e'] eqn:Eget; cbn [bind] in H.
  - destruct (falsy v) eqn:Ef; [discriminate|].
    apply falsy_truthy in Ef.
    destruct (IH v e Ef H) as (before & part' & rest' & f & m & -> & Hr & Hw
                               & Hf & ->).
    exists (part :: before), part', rest', f, m.
    split; [reflexivity|]. split; [assumption|]. split; [|auto].
    simpl. rewrite Eget. cbn [bind].
    apply falsy_truthy in Ef. now rewrite Ef.
  - assert (e' = e) by congruence. subst e'.
    destruct (get_throws_on_function current part e
                (truthy_not_nullish _ Ht) Eget) as (Hf & Hr & m & ->).
    exists [], part, rest, current, m. auto.
Qed.

(** C9, counterexample.  The segment Blankett resolves to a sequence of
    two forms, and the next segment, an index, is looked up in it: the
    result is the case information of the first form, not [undefined]. *)
Lemma extract_indexes_into_sequence :
  extractFromXML document_two_forms "Skatteverket.Blankett"
  = Ok (Arr [ sample_blankett "165560269986" "202401" "198001011234";
              sample_blankett "165560269986" "202401" "198505055678" ])
  /\ extractFromXML document_two_forms
       "Skatteverket.Blankett.0.Arendeinformation.Period._text"
     = Ok (Str "202401").
Proof. split; reflexivity. Qed.

(** C9, a second way in which the claim fails.  The segment toString
    resolves to the function that every object inherits, and reading
    [caller] from a built-in function throws. *)
Lemma extract_raises_on_function_accessor :
  extractFromXML document_two_forms "Skatteverket.toString"
  = Ok (Builtin "toString" 0)
  /\ extractFromXML document_two_forms "Skatteverket.toString.caller"
     = Throw (TypeError "'caller', 'callee', and 'arguments' properties may not be accessed on strict mode functions or the arguments objects for calls to them").
Proof. split; reflexivity. Qed.

(** C9, as amended.  [extractFromXML] returns [undefined] as soon as the
    property read for a segment gives a falsy value (a missing property,
    [null], the empty string).  It throws only when a segment [caller]
    or [arguments] is read from a function, which a path reaches through
    an inherited member; on a path without such a segment it never
    throws.  A sequence is read like any other object: a segment that is
    neither an element index, nor [length], nor a built-in array member
    is missing on it, so the result is [undefined]; a segment that is the
    index of an element selects that element and the walk goes on inside
    it. *)
Theorem extract_absent_on_falsy_raises_on_accessor_only
  (tree : value) (path : string) :
  (Forall (fun part => part <> "caller" /\ part <> "arguments")
          (split_dot path) ->
   exists v, extractFromXML tree path = Ok v)
  /\ (forall e,
        extractFromXML tree path = Throw e ->
        exists before part rest f m,
          split_dot path = (before ++ part :: rest)%list
          /\ (part = "caller" \/ part = "arguments")
          /\ extract_loop tree before = Ok f
          /\ is_function f = true
          /\ e = TypeError m)
  /\ (forall before part rest current x,
        split_dot path = (before ++ part :: rest)%list ->
        truthy tree = true ->
        extract_loop tree before = Ok current -> truthy current = true ->
        get current part = Ok x -> falsy x = true ->
        extractFromXML tree path = Ok Undefined)
  /\ (forall before part rest items,
        split_dot path = (before ++ part :: rest)%list ->
        truthy tree = true ->
        extract_loop tree before = Ok (Arr items) ->
        (array_index part = None -> part <> "length" ->
         inherited (Arr items) part = Undefined ->
         extractFromXML tree path = Ok Undefined)
        /\ (forall i x,
              array_index part = Some i ->
              nth_error items i = Some x -> truthy x = true ->
              extractFromXML tree path = extract_loop x rest)).
Proof.
  unfold extractFromXML. split; [|split; [|split]].
  - intro Hplain. destruct (falsy tree) eqn:E; [eauto|].
    apply extract_loop_total; [|now apply falsy_truthy].
    eapply Forall_impl; [|exact Hplain]. intros part Hp.
    now apply restricted_false.
  - intros e H. destruct (falsy tree) eqn:E; [discriminate|].
    apply falsy_truthy in E.
    destruct (extract_loop_throws _ _ _ E H)
      as (before & part & rest & f & m & Hs & Hr & Hw & Hf & He).
    exists before, part, rest, f, m.
    split; [assumption|]. split; [now apply restricted_true|]. auto.
  - intros before part rest current x Hsplit Ht Hwalk Hc Hget Hf.
    apply falsy_truthy in Ht. rewrite Ht, Hsplit.
    rewrite (extract_loop_app _ _ _ _ Hwalk Hc).
    now apply (extract_loop_falsy current x).
  - intros before part rest items Hsplit Ht Hwalk.
    apply falsy_truthy in Ht. rewrite Ht, Hsplit.
    rewrite (extract_loop_app _ _ _ _ Hwalk eq_refl).
    assert (Hget : get (Arr items) part = Ok (member (Arr items) part))
      by reflexivity.
    split.
    + intros Hidx Hlen Hinh.
      apply (extract_loop_falsy _ _ _ _ Hget).
      unfold member, own. apply String.eqb_neq in Hlen.
      rewrite Hlen, Hidx, Hinh. reflexivity.
    + intros i x Hidx Hnth Hx. cbn [extract_loop]. rewrite Hget.
      cbn [bind].
      assert (Hlen : (part =? "length")%string = false).
      { apply String.eqb_neq. intros ->. discriminate Hidx. }
      unfold member, own. rewrite Hlen, Hidx, Hnth.
      apply falsy_truthy in Hx. now rewrite Hx.
Qed.

Lemma extract_absent_on_falsy_raises_on_accessor_only_witness :
  extractFromXML document_two_forms "Skatteverket.Blankett.Arendeinformation"
  = Ok Undefined
  /\ extractFromXML document_two_forms "Skatteverket.Avsandare.Programnamn"
     = Ok Undefined
  /\ extractFromXML document_two_forms "Skatteverket.Blankett.1.Blankettinnehall"
     = Ok (sample_innehall "198505055678")
  /\ (exists v,
        extractFromXML document_two_forms "Skatteverket.toString.name"
        = Ok v).
Proof.
  destruct (extract_absent_on_falsy_raises_on_accessor_only
              document_two_forms "Skatteverket.Blankett.Arendeinformation")
    as (_ & _ & _ & Hseq).
  destruct (Hseq ["Skatteverket"; "Blankett"] "Arendeinformation" []
              [ sample_blankett "165560269986" "202401" "198001011234";
                sample_blankett "165560269986" "202401" "198505055678" ]
              eq_refl eq_refl eq_refl) as [Hname _].
  destruct (extract_absent_on_falsy_raises_on_accessor_only
              document_two_forms "Skatteverket.Avsandare.Programnamn")
    as (_ & _ & Hfalsy & _).
  destruct (extract_absent_on_falsy_raises_on_accessor_only
              document_two_forms "Skatteverket.Blankett.1.Blankettinnehall")
    as (_ & _ & _ & Hseq').
  destruct (Hseq' ["Skatteverket"; "Blankett"] "1" ["Blankettinnehall"]
              [ sample_blankett "165560269986" "202401" "198001011234";
                sample_blankett "165560269986" "202401" "198505055678" ]
              eq_refl eq_refl eq_refl) as [_ Hindex].
  destruct (extract_absent_on_falsy_raises_on_accessor_only
              document_two_forms "Skatteverket.toString.name")
    as (Hplain & _).
  split; [apply Hname; (reflexivity || discriminate)|].
  split; [|split].
  - apply (Hfalsy ["Skatteverket"] "Avsandare" ["Programnamn"]
             (member document_two_forms "Skatteverket") Undefined);
      reflexivity.
  - rewrite (Hindex 1%nat
               (sample_blankett "165560269986" "202401" "198505055678")
               eq_refl eq_refl eq_refl).
    reflexivity.
  - apply Hplain. repeat constructor; discriminate.
Defined.

(* ================================================================== *)
(** * The validator *)
(* ================================================================== *)

(** C7.  [validateXML] never throws: it always returns a result.  For an
    empty input, for an input that [xml-js] rejects and for a document
    without the Skatteverket root element, the result is invalid and
    carries exactly one message that names the cause. *)
Theorem validate_never_raises
  (xml2js : string -> result value) (xmlString : string) :
  exists r,
    validateXML xml2js xmlString = Ok r
    /\ (xmlString = "" ->
        r = {| valid := false; errors := ["No XML content provided"] |})
    /\ (xmlString <> "" -> (exists e, xml2js xmlString = Throw e) ->
        r = {| valid := false;
               errors := ["Failed to validate XML: Failed to parse XML file"] |})
    /\ (xmlString <> "" ->
        (exists parsedXml,
           xml2js xmlString = Ok parsedXml /\ lacks_root parsedXml) ->
        r = {| valid := false;
               errors := ["XML does not contain a Skatteverket root element"] |}).
Proof.
  unfold validateXML, parseXML.
  destruct (xmlString =? "")%string eqn:E.
  - apply String.eqb_eq in E. eexists. split; [reflexivity|].
    repeat split; intros; congruence.
  - apply String.eqb_neq in E.
    destruct (xml2js xmlString) as [parsedXml|e0] eqn:Ex; cbn [try_catch bind].
    + destruct (validate_parsed parsedXml) as [r|e] eqn:Ev.
      * exists r. split; [reflexivity|].
        split; [congruence|]. split.
        -- intros _ [e He]. discriminate He.
        -- intros _ (doc & Hdoc & Hlack). inversion Hdoc; subst doc.
           unfold validate_parsed in Ev.
           destruct Hlack as [Hf|(root & Hroot & Hf)].
           ++ rewrite Hf in Ev. now inversion Ev.
           ++ destruct (falsy parsedXml); [now inversion Ev|].
              rewrite Hroot in Ev. cbn [bind] in Ev. rewrite Hf in Ev.
              now inversion Ev.
      * eexists. split; [reflexivity|].
        split; [congruence|]. split.
        -- intros _ [e' He]. discriminate He.
        -- intros _ (doc & Hdoc & Hlack). inversion Hdoc; subst doc.
           unfold validate_parsed in Ev.
           destruct Hlack as [Hf|(root & Hroot & Hf)].
           ++ rewrite Hf in Ev. discriminate Ev.
           ++ destruct (falsy parsedXml); [discriminate Ev|].
              rewrite Hroot in Ev. cbn [bind] in Ev. rewrite Hf in Ev.
              discriminate Ev.
    + eexists. split; [reflexivity|].
      split; [congruence|]. split.
      * reflexivity.
      * intros _ (doc & Hdoc & _). discriminate Hdoc.
Qed.

Lemma validate_never_raises_witness :
  validateXML sample_xml2js ""
  = Ok {| valid := false; errors := ["No XML content provided"] |}
  /\ validateXML sample_xml2js "<Skatteverket>"
     = Ok {| valid := false;
             errors := ["Failed to validate XML: Failed to parse XML file"] |}
  /\ validateXML sample_xml2js "<html></html>"
     = Ok {| valid := false;
             errors := ["XML does not contain a Skatteverket root element"] |}.
Proof.
  destruct (validate_never_raises sample_xml2js "") as (r1 & E1 & H1 & _).
  destruct (validate_never_raises sample_xml2js "<Skatteverket>")
    as (r2 & E2 & _ & H2 & _).
  destruct (validate_never_raises sample_xml2js "<html></html>")
    as (r3 & E3 & _ & _ & H3).
  rewrite E1, E2, E3.
  rewrite (H1 eq_refl).
  rewrite H2;
    [|discriminate | exists (Error "Unclosed root tag"); reflexivity].
  rewrite H3; [repeat split|discriminate|].
  exists (Obj [("html", Obj [])]). split; [reflexivity|].
  right. exists Undefined. split; reflexivity.
Defined.

Lemma for_each_single (callback : value -> Z -> result (list string))
  (x : value) :
  for_each callback [x] = callback x 0.
Proof.
  unfold for_each. simpl. destruct (callback x 0) as [es|e]; cbn [bind].
  - simpl. now rewrite app_nil_r.
  - reflexivity.
Qed.

Lemma as_sequence_single (x : value) : isArray x = false -> as_sequence x = [x].
Proof. destruct x; simpl; congruence. Qed.

(** The minimal valid document passes; a case owner of eleven or thirteen
    digits is reported, one of twelve is not. *)
Example validate_sample_document :
  validate_parsed sample_document = Ok {| valid := true; errors := [] |}.
Proof. reflexivity. Qed.

Example validate_case_owner_digits :
  check_blankett (sample_blankett "16556026998" "202401" "198001011234") 0
  = Ok ["Arendeagare must be 12 digits in Blankett 1"]
  /\ check_blankett (sample_blankett "1655602699861" "202401" "198001011234") 0
     = Ok ["Arendeagare must be 12 digits in Blankett 1"]
  /\ check_blankett (sample_blankett "165560269986" "202401" "198001011234") 0
     = Ok [].
Proof. repeat split; reflexivity. Qed.

(** C8.  When the document holds exactly one Blankett (the parser then
    stores the element itself, not a sequence), the validator turns it
    into a one-element sequence and applies the per-Blankett rules to it as
    Blankett 1; likewise for a single Franvarouppgift.  The single
    occurrence is never skipped. *)
Theorem single_occurrence_is_validated (parsedXml root : value) :
  truthy parsedXml = true ->
  get parsedXml "Skatteverket" = Ok root -> truthy root = true ->
  (forall blankett,
     get root "Blankett" = Ok blankett ->
     truthy blankett = true -> isArray blankett = false ->
     as_sequence blankett = [blankett]
     /\ check_blanketter root = check_blankett blankett 0
     /\ validate_parsed parsedXml
        = (namespaces <- check_namespaces root ;;
           avsandare <- check_avsandare root ;;
           blanketter <- check_blankett blankett 0 ;;
           franvaro <- check_franvarouppgifter root ;;
           let errors :=
             (namespaces ++ avsandare ++ blanketter ++ franvaro)%list in
           Ok {| valid := (List.length errors =? 0)%nat; errors := errors |}))
  /\ (forall franvaro,
        get root "Franvarouppgift" = Ok franvaro ->
        truthy franvaro = true -> isArray franvaro = false ->
        as_sequence franvaro = [franvaro]
        /\ check_franvarouppgifter root = check_franvaro franvaro 0
        /\ validate_parsed parsedXml
           = (namespaces <- check_namespaces root ;;
              avsandare <- check_avsandare root ;;
              blanketter <- check_blanketter root ;;
              uppgifter <- check_franvaro franvaro 0 ;;
              let errors :=
                (namespaces ++ avsandare ++ blanketter ++ uppgifter)%list in
              Ok {| valid := (List.length errors =? 0)%nat;
                    errors := errors |})).
Proof.
  intros Hdoc Hroot Htroot.
  assert (Hv : validate_parsed parsedXml
               = (namespaces <- check_namespaces root ;;
                  avsandare <- check_avsandare root ;;
                  blanketter <- check_blanketter root ;;
                  franvaro <- check_franvarouppgifter root ;;
                  let errors :=
                    (namespaces ++ avsandare ++ blanketter ++ franvaro)%list in
                  Ok {| valid := (List.length errors =? 0)%nat;
                        errors := errors |})).
  { unfold validate_parsed. apply falsy_truthy in Hdoc, Htroot.
    rewrite Hdoc, Hroot. cbn [bind]. now rewrite Htroot. }
  split.
  - intros blankett Hb Ht Ha.
    assert (Hc : check_blanketter root = check_blankett blankett 0).
    { unfold check_blanketter. rewrite Hb. cbn [bind].
      apply falsy_truthy in Ht. rewrite Ht.
      rewrite as_sequence_single by assumption. apply for_each_single. }
    split; [now apply as_sequence_single|]. split; [exact Hc|].
    rewrite Hv, Hc. reflexivity.
  - intros franvaro Hf Ht Ha.
    assert (Hc : check_franvarouppgifter root = check_franvaro franvaro 0).
    { unfold check_franvarouppgifter. rewrite Hf. cbn [bind]. rewrite Ht.
      rewrite as_sequence_single by assumption. apply for_each_single. }
    split; [now apply as_sequence_single|]. split; [exact Hc|].
    rewrite Hv, Hc. reflexivity.
Qed.

Lemma single_occurrence_is_validated_witness :
  let root :=
    Obj (sample_skatteverket "kim@example.se"
           (sample_blankett "1655602699" "202401" "198001011234")) in
  let parsedXml := Obj [("Skatteverket", root)] in
  let blankett := sample_blankett "1655602699" "202401" "198001011234" in
  truthy parsedXml = true
  /\ get parsedXml "Skatteverket" = Ok root
  /\ truthy root = true
  /\ get root "Blankett" = Ok blankett
  /\ truthy blankett = true
  /\ isArray blankett = false
  /\ check_blanketter root = check_blankett blankett 0
  /\ check_blankett blankett 0
     = Ok ["Arendeagare must be 12 digits in Blankett 1"].
Proof.
  intros root parsedXml blankett.
  destruct (single_occurrence_is_validated parsedXml root
              eq_refl eq_refl eq_refl) as [Hb _].
  destruct (Hb blankett eq_refl eq_refl eq_refl) as (_ & Hc & _).
  do 6 (split; [reflexivity|]). split; [exact Hc | reflexivity].
Defined.

(** ** The email format check *)

Lemma no_email_nil : no_email_error [].
Proof. intros []. Qed.

Lemma no_email_app (a b : list string) :
  no_email_error a -> no_email_error b -> no_email_error (a ++ b)%list.
Proof. unfold no_email_error. intros Ha Hb H. apply in_app_or in H. tauto. Qed.

Lemma no_email_one (m : string) :
  m <> EMAIL_FORMAT_ERROR -> no_email_error [m].
Proof. intros Hne [H|[]]. contradiction. Qed.

Lemma no_email_if (b : bool) (x y : list string) :
  no_email_error x -> no_email_error y -> no_email_error (if b then x else y).
Proof. now destruct b. Qed.

Ltac not_email :=
  unfold in_blankett, in_franvaro, EMAIL_FORMAT_ERROR;
  cbn [append]; discriminate.

(** Walks through a computation, keeping [no_email_error] for the lists
    of messages and nothing for the other intermediate results. *)
Ltac post_step :=
  match goal with
  | |- all_results _ (Ok _) => apply all_ok
  | |- all_results _ (if _ then _ else _) => apply all_if
  | |- all_results _ (@bind (list string) _ _ _) =>
      apply (all_bind no_email_error); [|intros ? ?]
  | |- all_results _ (@bind _ _ _ _) =>
      apply (all_bind (fun _ => True)); [apply all_trivial | intros ? _]
  | |- no_email_error (_ ++ _)%list => apply no_email_app
  | |- no_email_error (if _ then _ else _) => apply no_email_if
  | |- no_email_error [] => apply no_email_nil
  | |- no_email_error [_] => apply no_email_one; not_email
  | |- no_email_error _ => assumption
  end.

Lemma no_email_concat (groups : list (list string)) :
  Forall no_email_error groups -> no_email_error (List.concat groups).
Proof.
  induction 1; simpl; [apply no_email_nil | now apply no_email_app].
Qed.

Lemma for_each_no_email (callback : value -> Z -> result (list string))
  (items : list value) :
  (forall x i, all_results no_email_error (callback x i)) ->
  all_results no_email_error (for_each callback items).
Proof.
  intro H. unfold for_each.
  apply (all_bind (Forall no_email_error)); [now apply map_indexed_all|].
  intros groups Hg. simpl. now apply no_email_concat.
Qed.

Lemma check_namespaces_no_email (root : value) :
  all_results no_email_error (check_namespaces root).
Proof. unfold check_namespaces. cbv zeta. repeat post_step. Qed.

Lemma check_blankett_no_email (blankett : value) (index : Z) :
  all_results no_email_error (check_blankett blankett index).
Proof. unfold check_blankett. repeat post_step. Qed.

Lemma check_franvaro_no_email (franvaro : value) (index : Z) :
  all_results no_email_error (check_franvaro franvaro index).
Proof. unfold check_franvaro. repeat post_step. Qed.

Lemma check_blanketter_no_email (root : value) :
  all_results no_email_error (check_blanketter root).
Proof.
  unfold check_blanketter. repeat post_step.
  apply for_each_no_email, check_blankett_no_email.
Qed.

Lemma check_franvarouppgifter_no_email (root : value) :
  all_results no_email_error (check_franvarouppgifter root).
Proof.
  unfold check_franvarouppgifter. repeat post_step.
  apply for_each_no_email, check_franvaro_no_email.
Qed.

Lemma check_kontaktperson_no_email (kontaktperson : value) :
  email_accepted kontaktperson ->
  all_results no_email_error (check_kontaktperson kontaktperson).
Proof.
  intros (epost & text & He & Ht & Hre). unfold check_kontaktperson.
  do 3 post_step. post_step.
  - post_step; [repeat post_step|].
    unfold text_of. rewrite He. cbn [bind]. rewrite Ht. cbn [bind].
    rewrite Hre. cbn [negb]. repeat post_step.
  - repeat post_step.
Qed.

Lemma check_avsandare_no_email (root avsandare kontaktperson : value) :
  get root "Avsandare" = Ok avsandare ->
  get avsandare "TekniskKontaktperson" = Ok kontaktperson ->
  email_accepted kontaktperson ->
  all_results no_email_error (check_avsandare root).
Proof.
  intros Ha Hk He. unfold check_avsandare. rewrite Ha. cbn [bind].
  post_step; [repeat post_step|].
  do 2 post_step. post_step; [repeat post_step|].
  rewrite Hk. cbn [bind].
  post_step.
  - post_step; [repeat post_step|].
    now apply check_kontaktperson_no_email.
  - repeat post_step.
Qed.

Lemma validate_parsed_no_email (parsedXml root avsandare kontaktperson : value) :
  get parsedXml "Skatteverket" = Ok root ->
  get root "Avsandare" = Ok avsandare ->
  get avsandare "TekniskKontaktperson" = Ok kontaktperson ->
  email_accepted kontaktperson ->
  all_results (fun r => no_email_error (errors r)) (validate_parsed parsedXml).
Proof.
  intros Hr Ha Hk He. unfold validate_parsed.
  apply all_if; [apply all_ok, no_email_one; not_email|].
  rewrite Hr. cbn [bind].
  apply all_if; [apply all_ok, no_email_one; not_email|].
  apply (all_bind no_email_error); [apply check_namespaces_no_email|].
  intros e1 H1.
  apply (all_bind no_email_error);
    [now apply (check_avsandare_no_email root avsandare kontaktperson)|].
  intros e2 H2.
  apply (all_bind no_email_error); [apply check_blanketter_no_email|].
  intros e3 H3.
  apply (all_bind no_email_error); [apply check_franvarouppgifter_no_email|].
  intros e4 H4.
  cbv zeta. apply all_ok. simpl errors. repeat post_step.
Qed.

(** C10.  The address check is an unanchored search.  When the text of
    the technical contact's Epostadress holds, anywhere, word characters,
    an at sign, word characters, a dot and word characters, the result of
    [validateXML] has no email format error, whatever precedes or follows
    that substring. *)
Theorem email_check_is_unanchored
  (xml2js : string -> result value) (xmlString : string)
  (parsedXml root avsandare kontaktperson epost : value)
  (before local domain tld after : string) :
  xml2js xmlString = Ok parsedXml ->
  get parsedXml "Skatteverket" = Ok root ->
  get root "Avsandare" = Ok avsandare ->
  get avsandare "TekniskKontaktperson" = Ok kontaktperson ->
  get kontaktperson "Epostadress" = Ok epost ->
  getTextContent epost
  = Ok (Str (before ++ local ++ "@" ++ domain ++ "." ++ tld ++ after)) ->
  word_chars local -> word_chars domain -> word_chars tld ->
  exists r,
    validateXML xml2js xmlString = Ok r
    /\ ~ In "Epostadress has invalid format" (errors r).
Proof.
  intros Hx Hr Ha Hk He Ht Hl Hd Htld.
  assert (Hacc : email_accepted kontaktperson).
  { eexists _, _. split; [exact He|]. split; [exact Ht|].
    simpl to_string. now apply email_test_substring. }
  pose proof (validate_parsed_no_email _ _ _ _ Hr Ha Hk Hacc) as Hv.
  unfold validateXML, parseXML.
  destruct (xmlString =? "")%string.
  - eexists. split; [reflexivity|]. apply no_email_one. not_email.
  - rewrite Hx. cbn [try_catch bind].
    destruct (validate_parsed parsedXml) as [r|e]; cbn [try_catch].
    + exists r. split; [reflexivity | exact Hv].
    + eexists. split; [reflexivity|]. apply no_email_one. not_email.
Qed.

Lemma email_check_is_unanchored_witness :
  exists r,
    validateXML sample_xml2js "<Skatteverket>padded</Skatteverket>" = Ok r
    /\ ~ In "Epostadress has invalid format" (errors r).
Proof.
  apply (email_check_is_unanchored sample_xml2js
           "<Skatteverket>padded</Skatteverket>"
           document_padded_email
           (member document_padded_email "Skatteverket")
           (Obj (sample_avsandare "<<kim@example.se>> (work)"))
           (Obj (sample_kontaktperson "<<kim@example.se>> (work)"))
           (leaf "<<kim@example.se>> (work)")
           "<<" "kim" "example" "se" ">> (work)");
    try reflexivity;
    split; [discriminate | reflexivity | discriminate | reflexivity
           | discriminate | reflexivity].
Defined.

(* ================================================================== *)
(** * Building the modified document *)
(* ================================================================== *)

(** For a parsed document that has the Skatteverket root and its
    Avsandare block, [modifiedXml] returns a tree in which
    Franvarouppgift holds the concatenation of the cases' lists whenever
    that concatenation is not empty, the text of Programnamn is the fixed
    literal, and every other property of the document, of Skatteverket, of
    Avsandare and of Programnamn keeps its value and its place. *)
Lemma modifiedXml_frame
  (rootFields skFields avFields : list (string * value))
  (arendeInfoList : list Arende) :
  NoDup (keys rootFields) ->
  assoc "Skatteverket" rootFields = Some (Obj skFields) ->
  NoDup (keys skFields) ->
  assoc "Avsandare" skFields = Some (Obj avFields) ->
  NoDup (keys avFields) ->
  NoDup (keys (own_enumerable (member (Obj avFields) "Programnamn"))) ->
  exists root' sk0 sk' av' pn' franvaro,
    modifiedXml (Obj rootFields) arendeInfoList = Ok (Obj root')
    /\ updated "Skatteverket" (Obj sk') rootFields root'
    /\ updated "Franvarouppgift" franvaro skFields sk0
    /\ updated "Avsandare" (Obj av') sk0 sk'
    /\ (flat_map franvaroList arendeInfoList <> [] ->
        franvaro = Arr (flat_map franvaroList arendeInfoList))
    /\ updated "Programnamn" (Obj pn') avFields av'
    /\ updated "_text" (Str PROGRAMNAMN)
         (own_enumerable (member (Obj avFields) "Programnamn")) pn'.
Proof.
  intros Nroot Hsk Nsk Hav Nav Npn.
  unfold modifiedXml. cbv zeta.
  rewrite (get_Obj _ _ _ Hsk). cbn [bind].
  rewrite (get_Obj _ _ _ Hav). cbn [bind].
  change (get (Obj avFields) "Programnamn")
    with (Ok (member (Obj avFields) "Programnamn")).
  cbn [bind].
  rewrite (spread_fresh _ Npn).
  rewrite (spread_Obj avFields Nav), (spread_Obj skFields Nsk),
    (spread_Obj rootFields Nroot).
  do 6 eexists.
  split; [reflexivity|].
  split; [apply set_field_updated|].
  split; [apply set_field_updated|].
  split; [apply set_field_updated|].
  split.
  - intro Hne. destruct (flat_map franvaroList arendeInfoList);
      [congruence | reflexivity].
  - split; apply set_field_updated.
Qed.

Lemma modifiedXml_frame_instance :
  let rootFields :=
    sample_root "kim@example.se"
      (sample_blankett "165560269986" "202401" "198001011234") in
  let skFields :=
    sample_skatteverket "kim@example.se"
      (sample_blankett "165560269986" "202401" "198001011234") in
  let avFields := sample_avsandare "kim@example.se" in
  NoDup (keys rootFields)
  /\ assoc "Skatteverket" rootFields = Some (Obj skFields)
  /\ NoDup (keys skFields)
  /\ assoc "Avsandare" skFields = Some (Obj avFields)
  /\ NoDup (keys avFields)
  /\ NoDup (keys (own_enumerable (member (Obj avFields) "Programnamn")))
  /\ exists root' sk0 sk' av' pn' franvaro,
       modifiedXml (Obj rootFields) [case_two_records] = Ok (Obj root')
       /\ updated "Skatteverket" (Obj sk') rootFields root'
       /\ updated "Franvarouppgift" franvaro skFields sk0
       /\ updated "Avsandare" (Obj av') sk0 sk'
       /\ (flat_map franvaroList [case_two_records] <> [] ->
           franvaro = Arr (flat_map franvaroList [case_two_records]))
       /\ updated "Programnamn" (Obj pn') avFields av'
       /\ updated "_text" (Str PROGRAMNAMN)
            (own_enumerable (member (Obj avFields) "Programnamn")) pn'.
Proof.
  intros rootFields skFields avFields.
  assert (N1 : NoDup (keys rootFields)).
  { repeat constructor; simpl; intuition discriminate. }
  assert (N2 : NoDup (keys skFields)).
  { repeat constructor; simpl; intuition discriminate. }
  assert (N3 : NoDup (keys avFields)).
  { repeat constructor; simpl; intuition discriminate. }
  assert (N4 : NoDup (keys (own_enumerable
                              (member (Obj avFields) "Programnamn")))).
  { repeat constructor; simpl; intuition discriminate. }
  assert (A1 : assoc "Skatteverket" rootFields = Some (Obj skFields))
    by reflexivity.
  assert (A2 : assoc "Avsandare" skFields = Some (Obj avFields))
    by reflexivity.
  repeat (split; [assumption|]).
  exact (modifiedXml_frame rootFields skFields avFields [case_two_records]
           N1 A1 N2 A2 N3 N4).
Defined.


Lemma nth_error_extend {A} (h ext : list A) (a : nat) (c : A) :
  nth_error h a = Some c -> nth_error (h ++ ext) a = Some c.
Proof.
  intro H. rewrite nth_error_app1; [exact H|].
  apply nth_error_Some. congruence.
Qed.

Lemma read_object (h : Store.store) (a : nat) fields (k : string) (v : Store.ref_value) :
  nth_error h a = Some (Store.CObj fields) -> assoc k fields = Some v ->
  Store.read h (Store.RRef a) k = Ok v.
Proof. intros Hc Hk. unfold Store.read. now rewrite Hc, Hk. Qed.

Lemma spread_object (h : Store.store) (a : nat) fields :
  nth_error h a = Some (Store.CObj fields) -> NoDup (keys fields) ->
  Store.spread h (Store.RRef a) = fields.
Proof.
  intros Hc Hn. unfold Store.spread, Store.own_enumerable. rewrite Hc.
  now rewrite fold_set_field_fresh.
Qed.

(** The store and the root that [Store.modifiedXml] returns, written
    out: five cells after the original store. *)
Lemma store_modifiedXml_result
  (h : Store.store) (rootA skA avA pnA : nat)
  (rootFields skFields avFields pnFields : list (string * Store.ref_value))
  (lists : list (list Store.ref_value)) :
  nth_error h rootA = Some (Store.CObj rootFields) -> NoDup (keys rootFields) ->
  assoc "Skatteverket" rootFields = Some (Store.RRef skA) ->
  nth_error h skA = Some (Store.CObj skFields) -> NoDup (keys skFields) ->
  assoc "Avsandare" skFields = Some (Store.RRef avA) ->
  nth_error h avA = Some (Store.CObj avFields) -> NoDup (keys avFields) ->
  assoc "Programnamn" avFields = Some (Store.RRef pnA) ->
  nth_error h pnA = Some (Store.CObj pnFields) -> NoDup (keys pnFields) ->
  let n := List.length h in
  let all := List.concat lists in
  let pn' := set_field "_text" (Store.RStr PROGRAMNAMN) pnFields in
  let av' := set_field "Programnamn" (Store.RRef (n + 1)) avFields in
  let sk' :=
    set_field "Avsandare" (Store.RRef (n + 2))
      (set_field "Franvarouppgift"
         (if (0 <? List.length all)%nat then Store.RRef n
          else Store.RUndefined)
         skFields) in
  let root' := set_field "Skatteverket" (Store.RRef (n + 3)) rootFields in
  Store.modifiedXml h (Store.RRef rootA) lists
  = Ok ((h ++ [ Store.CArr all; Store.CObj pn'; Store.CObj av';
                Store.CObj sk'; Store.CObj root' ])%list,
        Store.RRef (n + 4)).
Proof.
  intros Croot Nroot Ask Csk Nsk Aav Cav Nav Apn Cpn Npn n all pn' av' sk' root'.
  unfold Store.modifiedXml, Store.allocate. fold all.
  set (h0 := (h ++ [Store.CArr all])%list).
  assert (E0 : forall a c, nth_error h a = Some c -> nth_error h0 a = Some c)
    by (intros; now apply nth_error_extend).
  rewrite (read_object h0 rootA rootFields _ _ (E0 _ _ Croot) Ask).
  cbn [bind].
  rewrite (read_object h0 skA skFields _ _ (E0 _ _ Csk) Aav). cbn [bind].
  rewrite (read_object h0 avA avFields _ _ (E0 _ _ Cav) Apn). cbn [bind].
  rewrite (spread_object h0 pnA pnFields (E0 _ _ Cpn) Npn). fold pn'.
  set (h1 := (h0 ++ [Store.CObj pn'])%list).
  assert (E1 : forall a c, nth_error h a = Some c -> nth_error h1 a = Some c)
    by (intros; now apply nth_error_extend, E0).
  rewrite (spread_object h1 avA avFields (E1 _ _ Cav) Nav).
  assert (L0 : List.length h0 = (n + 1)%nat)
    by (unfold h0; rewrite length_app; reflexivity).
  assert (L1 : List.length h1 = (n + 2)%nat)
    by (unfold h1; rewrite length_app, L0; simpl; lia).
  rewrite L0. fold av'.
  set (h2 := (h1 ++ [Store.CObj av'])%list).
  assert (E2 : forall a c, nth_error h a = Some c -> nth_error h2 a = Some c)
    by (intros; now apply nth_error_extend, E1).
  assert (L2 : List.length h2 = (n + 3)%nat)
    by (unfold h2; rewrite length_app, L1; simpl; lia).
  rewrite (spread_object h2 skA skFields (E2 _ _ Csk) Nsk).
  rewrite L1. fold n. fold sk'.
  set (h3 := (h2 ++ [Store.CObj sk'])%list).
  assert (E3 : forall a c, nth_error h a = Some c -> nth_error h3 a = Some c)
    by (intros; now apply nth_error_extend, E2).
  assert (L3 : List.length h3 = (n + 4)%nat)
    by (unfold h3; rewrite length_app, L2; simpl; lia).
  rewrite (spread_object h3 rootA rootFields (E3 _ _ Croot) Nroot).
  rewrite L2, L3. fold root'.
  unfold h3, h2, h1, h0. repeat rewrite <- app_assoc. reflexivity.
Qed.

Lemma nth_error_after {A} (h ext : list A) (i : nat) :
  nth_error (h ++ ext) (List.length h + i) = nth_error ext i.
Proof.
  rewrite nth_error_app2 by lia. f_equal. lia.
Qed.



Lemma reify_extend (d : nat) :
  forall (h ext : Store.store) (v : Store.ref_value),
  Store.closed h -> Store.valid_ref h v ->
  Store.reify d (h ++ ext)%list v = Store.reify d h v.
Proof.
  induction d as [|d IH]; intros h ext v Hc Hv; destruct v; simpl;
    try reflexivity.
  simpl in Hv. rewrite nth_error_app1 by assumption.
  destruct (nth_error h address) as [c|] eqn:E; [|reflexivity].
  pose proof Hc as Hcell. unfold Store.closed in Hcell.
  rewrite Forall_forall in Hcell.
  specialize (Hcell c (nth_error_In _ _ E)).
  destruct c as [fields|items]; f_equal; apply map_ext_in.
  - intros kv Hin. f_equal. apply IH; [assumption|].
    rewrite Forall_forall in Hcell. now apply Hcell.
  - intros x Hin. apply IH; [assumption|].
    rewrite Forall_forall in Hcell. now apply Hcell.
Qed.

Lemma map_set_field {V W} (g : V -> W) (k : string) (v : V)
  (fields : list (string * V)) :
  map (fun kv => (fst kv, g (snd kv))) (set_field k v fields)
  = set_field k (g v) (map (fun kv => (fst kv, g (snd kv))) fields).
Proof.
  induction fields as [|[k' v'] rest IH]; simpl; [reflexivity|].
  destruct (k' =? k)%string; simpl; [reflexivity | now rewrite IH].
Qed.

Lemma assoc_map {V W} (g : V -> W) (k : string) (fields : list (string * V)) :
  assoc k (map (fun kv => (fst kv, g (snd kv))) fields)
  = option_map g (assoc k fields).
Proof.
  induction fields as [|[k' v'] rest IH]; simpl; [reflexivity|].
  destruct (k' =? k)%string; [reflexivity | exact IH].
Qed.

Lemma reify_fields_extend (d : nat) (h ext : Store.store) (a : nat)
  (fields : list (string * Store.ref_value)) :
  Store.closed h -> nth_error h a = Some (Store.CObj fields) ->
  map (fun kv => (fst kv, Store.reify d (h ++ ext)%list (snd kv))) fields
  = map (fun kv => (fst kv, Store.reify d h (snd kv))) fields.
Proof.
  intros Hc Ha. apply map_ext_in. intros kv Hin. f_equal.
  apply reify_extend; [assumption|].
  pose proof Hc as Hc'. unfold Store.closed in Hc'.
  rewrite Forall_forall in Hc'.
  specialize (Hc' _ (nth_error_In _ _ Ha)). simpl in Hc'.
  rewrite Forall_forall in Hc'. now apply Hc'.
Qed.

Lemma reify_object (d : nat) (h : Store.store) (a : nat)
  (fields : list (string * Store.ref_value)) :
  nth_error h a = Some (Store.CObj fields) ->
  Store.reify (S d) h (Store.RRef a)
  = Obj (map (fun kv => (fst kv, Store.reify d h (snd kv))) fields).
Proof. intro H. simpl. now rewrite H. Qed.

Lemma reify_array (d : nat) (h : Store.store) (a : nat)
  (items : list Store.ref_value) :
  nth_error h a = Some (Store.CArr items) ->
  Store.reify (S d) h (Store.RRef a) = Arr (map (Store.reify d h) items).
Proof. intro H. simpl. now rewrite H. Qed.

(** The store-level literal and the tree-level literal agree: the tree
    behind the new root is the tree that [modifiedXml] computes from the
    tree behind the old root. *)
Lemma store_modifiedXml_agrees
  (h : Store.store) (rootA skA avA pnA : nat)
  (rootFields skFields avFields pnFields : list (string * Store.ref_value))
  (lists : list (list Store.ref_value)) (cases : list Arende) (d : nat) :
  Store.closed h ->
  nth_error h rootA = Some (Store.CObj rootFields) -> NoDup (keys rootFields) ->
  assoc "Skatteverket" rootFields = Some (Store.RRef skA) ->
  nth_error h skA = Some (Store.CObj skFields) -> NoDup (keys skFields) ->
  assoc "Avsandare" skFields = Some (Store.RRef avA) ->
  nth_error h avA = Some (Store.CObj avFields) -> NoDup (keys avFields) ->
  assoc "Programnamn" avFields = Some (Store.RRef pnA) ->
  nth_error h pnA = Some (Store.CObj pnFields) -> NoDup (keys pnFields) ->
  Forall (Store.valid_ref h) (List.concat lists) ->
  flat_map franvaroList cases
  = map (Store.reify (S d) h) (List.concat lists) ->
  exists h' newRoot,
    Store.modifiedXml h (Store.RRef rootA) lists = Ok (h', newRoot)
    /\ modifiedXml (Store.reify (4 + d) h (Store.RRef rootA)) cases
       = Ok (Store.reify (4 + d) h' newRoot).
Proof.
  intros Hc Croot Nroot Ask Csk Nsk Aav Cav Nav Apn Cpn Npn Hvalid Hcases.
  eexists _, _. split.
  { apply (store_modifiedXml_result h rootA skA avA pnA); eassumption. }
  set (n := List.length h).
  set (all := List.concat lists) in *.
  set (ext := [ Store.CArr all;
                Store.CObj (set_field "_text" (Store.RStr PROGRAMNAMN) pnFields);
                Store.CObj (set_field "Programnamn" (Store.RRef (n + 1))
                              avFields);
                Store.CObj
                  (set_field "Avsandare" (Store.RRef (n + 2))
                     (set_field "Franvarouppgift"
                        (if (0 <? List.length all)%nat then Store.RRef n
                         else Store.RUndefined) skFields));
                Store.CObj (set_field "Skatteverket" (Store.RRef (n + 3))
                              rootFields) ]).
  assert (Hnew : forall i c, nth_error ext i = Some c ->
                             nth_error (h ++ ext)%list (n + i) = Some c).
  { intros i c Hi. unfold n. now rewrite nth_error_after. }
  (* the tree behind the old root *)
  unfold modifiedXml.
  change (4 + d)%nat with (S (S (S (S d)))).
  rewrite (reify_object _ h rootA rootFields Croot).
  rewrite (get_Obj _ "Skatteverket"
             (Store.reify (S (S (S d))) h (Store.RRef skA)))
    by (now rewrite assoc_map, Ask).
  cbn [bind]. rewrite (reify_object _ h skA skFields Csk).
  rewrite (get_Obj _ "Avsandare" (Store.reify (S (S d)) h (Store.RRef avA)))
    by (now rewrite assoc_map, Aav).
  cbn [bind]. rewrite (reify_object _ h avA avFields Cav).
  rewrite (get_Obj _ "Programnamn" (Store.reify (S d) h (Store.RRef pnA)))
    by (now rewrite assoc_map, Apn).
  cbn [bind]. rewrite (reify_object _ h pnA pnFields Cpn).
  rewrite !spread_Obj by (rewrite map_map; assumption).
  (* the tree behind the new root *)
  rewrite (reify_object _ _ (n + 4) _ (Hnew 4%nat _ eq_refl)).
  rewrite map_set_field.
  rewrite (reify_object _ _ (n + 3) _ (Hnew 3%nat _ eq_refl)).
  rewrite !map_set_field.
  rewrite (reify_object _ _ (n + 2) _ (Hnew 2%nat _ eq_refl)).
  rewrite map_set_field.
  rewrite (reify_object _ _ (n + 1) _ (Hnew 1%nat _ eq_refl)).
  rewrite map_set_field.
  rewrite (reify_fields_extend _ h ext rootA rootFields Hc Croot).
  rewrite (reify_fields_extend _ h ext skA skFields Hc Csk).
  rewrite (reify_fields_extend _ h ext avA avFields Hc Cav).
  rewrite (reify_fields_extend _ h ext pnA pnFields Hc Cpn).
  do 5 f_equal.
  - do 3 f_equal. now destruct d.
  - f_equal. rewrite Hcases, length_map.
    destruct (0 <? List.length all)%nat; [|reflexivity].
    replace n with (n + 0)%nat at 1 by lia.
    rewrite (reify_array _ _ (n + 0) _ (Hnew 0%nat _ eq_refl)). f_equal.
    apply map_ext_in. intros x Hin. symmetry.
    apply reify_extend; [assumption|].
    rewrite Forall_forall in Hvalid. now apply Hvalid.
Qed.

(** On the sample, the tree behind the new root is the tree that
    [modifiedXml] computes from the tree behind the old root. *)
Example store_agrees_with_tree :
  match Store.modifiedXml sample_store (Store.RRef 0) [[Store.RRef 7]] with
  | Ok (h', newRoot) => Ok (Store.reify 8 h' newRoot)
  | Throw e => Throw e
  end
  = modifiedXml (Store.reify 8 sample_store (Store.RRef 0))
      [ {| index := 0;
           arendeAgare := Str "165560269986";
           period := Str "202401";
           betalningsmottagarId := Str "198001011234";
           blankettInnehall := Obj [];
           franvaroList := [Store.reify 8 sample_store (Store.RRef 7)] |} ].
Proof. reflexivity. Qed.

(* ================================================================== *)
(** * Further properties: the two patterns *)
(* ================================================================== *)

Lemma lang_class_inv (p : ascii -> bool) (s : string) :
  lang (Regex.Class p) s -> exists c, s = String c "" /\ p c = true.
Proof. intro H. inversion H; subst. eauto. Qed.

Lemma lang_times_digit (n : nat) :
  forall s, lang (Regex.times n Regex.digit) s <->
            String.length s = n
            /\ forallb is_digit (list_ascii_of_string s) = true.
Proof.
  induction n as [|n IH]; intro s; simpl.
  - split.
    + intro H. inversion H; subst. auto.
    + intros [H _]. destruct s; [constructor|discriminate].
  - split.
    + intro H. inversion H as [| |a b s1 s2 H1 H2| | | |]; subst.
      apply lang_class_inv in H1 as [c [-> Hc]].
      apply IH in H2 as [Hlen Hall]. simpl. rewrite Hc, Hall, Hlen. auto.
    + intros [Hlen Hall]. destruct s as [|c s]; [discriminate|].
      simpl in *. apply andb_prop in Hall as [Hc Hall].
      change (String c s) with (String c "" ++ s).
      constructor; [now constructor|]. apply IH. split; [lia|assumption].
Qed.

(** [/^\d{12}$/] accepts exactly the strings of twelve digits. *)
Lemma twelve_digits_iff (s : string) :
  Regex.test_anchored twelve_digits s = true <-> twelve_digit_string s.
Proof.
  unfold Regex.test_anchored, twelve_digits, twelve_digit_string.
  rewrite <- (lang_times_digit 12 s). split.
  - apply matches_sound.
  - apply matches_complete.
Qed.

Lemma lang_star_class (p : ascii -> bool) (r : Regex.t) (s : string) :
  lang r s -> r = Regex.Star (Regex.Class p) ->
  forallb p (list_ascii_of_string s) = true.
Proof.
  induction 1 as [| | | | | |a s1 s2 H1 _ H2 IH]; intro E;
    try discriminate; [reflexivity|].
  inversion E; subst.
  apply lang_class_inv in H1 as [c [-> Hc]]. simpl. rewrite Hc. auto.
Qed.

Lemma lang_plus_word_inv (w : string) :
  lang (Regex.plus Regex.word) w -> word_chars w.
Proof.
  unfold Regex.plus. intro H.
  inversion H as [| |a b s1 s2 H1 H2| | | |]; subst.
  apply lang_class_inv in H1 as [c [-> Hc]].
  apply (lang_star_class Regex.is_word) in H2; [|reflexivity].
  split; [discriminate|]. simpl. rewrite Hc. exact H2.
Qed.

(** [/\w+@\w+\.\w+/] finds a match exactly in the texts that hold an
    address-shaped substring. *)
Lemma email_shape_iff (s : string) :
  Regex.test email_shape s = true <-> contains_address s.
Proof.
  split.
  - unfold Regex.test. intro H. apply matches_sound in H.
    inversion H as [| |a b before rest _ H2| | | |]; subst.
    inversion H2 as [| |a b core after H3 _| | | |]; subst.
    unfold email_shape in H3.
    inversion H3 as [| |a b local r1 Hl H4| | | |]; subst.
    inversion H4 as [| |a b at_ r2 Ha H5| | | |]; subst.
    inversion H5 as [| |a b domain r3 Hd H6| | | |]; subst.
    inversion H6 as [| |a b dot tld Hdot Ht| | | |]; subst.
    apply lang_class_inv in Ha as [c [-> Hc]].
    apply Ascii.eqb_eq in Hc. subst c.
    apply lang_class_inv in Hdot as [c [-> Hc]].
    apply Ascii.eqb_eq in Hc. subst c.
    exists before, local, domain, tld, after.
    split; [|auto using lang_plus_word_inv].
    f_equal. rewrite append_assoc. f_equal. simpl. f_equal.
    rewrite append_assoc. f_equal.
  - intros (before & local & domain & tld & after & -> & Hl & Hd & Ht).
    now apply email_test_substring.
Qed.

(* ================================================================== *)
(** * Further properties: the path accessor *)
(* ================================================================== *)

Lemma extract_loop_absent_or_truthy (parts : list string) :
  forall current v, truthy current = true ->
  extract_loop current parts = Ok v ->
  v = Undefined \/ truthy v = true.
Proof.
  induction parts as [|part rest IH]; intros current v Ht H; simpl in H.
  - right. congruence.
  - destruct (get current part) as [x|e]; [|discriminate]. cbn [bind] in H.
    destruct (falsy x) eqn:E.
    + left. congruence.
    + apply (IH x); [now apply falsy_truthy|assumption].
Qed.

(** The walk stops with [undefined] inside [before]: it stops the same
    way on any longer path. *)
Lemma extract_loop_stops (before rest : list string) :
  forall current, truthy current = true -> before <> [] ->
  extract_loop current before = Ok Undefined ->
  extract_loop current (before ++ rest) = Ok Undefined.
Proof.
  induction before as [|part before IH]; intros current Ht Hne H.
  - contradiction.
  - simpl in *. destruct (get current part) as [x|e]; [|discriminate].
    cbn [bind] in *.
    destruct (falsy x) eqn:E; [reflexivity|].
    destruct before as [|part' before'].
    + simpl in H. assert (x = Undefined) by congruence. subst x.
      discriminate.
    + apply IH; [now apply falsy_truthy|discriminate|assumption].
Qed.

(** The walk throws inside [before]: it throws the same on any longer
    path. *)
Lemma extract_loop_throws_app (before rest : list string) :
  forall current e,
  extract_loop current before = Throw e ->
  extract_loop current (before ++ rest) = Throw e.
Proof.
  induction before as [|part before IH]; intros current e H; simpl in *.
  - discriminate.
  - destruct (get current part) as [x|e']; [|assumption]. cbn [bind] in *.
    destruct (falsy x); [discriminate|]. now apply IH.
Qed.

Lemma split_dot_aux_app (p q : string) :
  forall current,
  split_dot_aux current (p ++ String "." q)
  = (split_dot_aux current p ++ split_dot_aux "" q)%list.
Proof.
  induction p as [|c p IH]; intro current; simpl.
  - reflexivity.
  - destruct (Ascii.eqb c "."); [|apply IH].
    simpl. now rewrite IH.
Qed.

Lemma split_dot_aux_not_nil (s : string) :
  forall current, split_dot_aux current s <> [].
Proof.
  induction s as [|c s IH]; intro current; simpl; [discriminate|].
  destruct (Ascii.eqb c "."); [discriminate|apply IH].
Qed.

(** X1.  Whatever the tree and the path, what [extractFromXML] returns
    is either [undefined] or a truthy value: it never returns [null],
    the empty string, [0], [NaN] or [false], so an element whose text is
    empty reads exactly like an element that is not there.  When it does
    not return, it has thrown a TypeError. *)
Theorem extract_returns_absent_or_truthy (tree : value) (path : string) :
  match extractFromXML tree path with
  | Ok v => v = Undefined \/ truthy v = true
  | Throw e => exists m, e = TypeError m
  end.
Proof.
  unfold extractFromXML. destruct (falsy tree) eqn:Hf; [now left|].
  apply falsy_truthy in Hf.
  destruct (extract_loop tree (split_dot path)) as [v|e] eqn:Hv.
  - now apply (extract_loop_absent_or_truthy (split_dot path) tree).
  - destruct (extract_loop_throws _ _ _ Hf Hv)
      as (_ & _ & _ & _ & m & _ & _ & _ & _ & ->).
    eauto.
Qed.

(** X2.  Paths compose at a dot: reading [p.q] is reading [p] and then,
    when that gave a value, reading [q] inside it; when [p] is absent so
    is [p.q]. *)
Theorem extract_composes_at_dot (tree : value) (p q : string) :
  extractFromXML tree (p ++ "." ++ q)
  = (v <- extractFromXML tree p ;;
     if truthy v then extractFromXML v q else Ok Undefined).
Proof.
  unfold extractFromXML. destruct (falsy tree) eqn:Hf; [reflexivity|].
  apply falsy_truthy in Hf.
  change ("." ++ q) with (String "." q).
  unfold split_dot. rewrite split_dot_aux_app.
  destruct (extract_loop tree (split_dot_aux "" p)) as [v|e] eqn:Hv.
  - cbn [bind].
    destruct (extract_loop_absent_or_truthy _ _ _ Hf Hv) as [->|Hv'].
    + cbn [truthy]. apply extract_loop_stops;
        [assumption|apply split_dot_aux_not_nil|assumption].
    + rewrite Hv'. rewrite (extract_loop_app _ _ _ _ Hv Hv').
      apply falsy_truthy in Hv'. now rewrite Hv'.
  - cbn [bind]. now apply extract_loop_throws_app.
Qed.

(* ================================================================== *)
(** * Further properties: the validator *)
(* ================================================================== *)

Lemma missing_text_false (x : value) (k : string) :
  missing_text x k = Ok false -> exists t, has_text x k t.
Proof.
  unfold missing_text, has_text, text_of. intro H.
  destruct (get x k) as [v|e]; [|discriminate]. cbn [bind] in *.
  destruct (falsy v); [discriminate|].
  destruct (getTextContent v) as [t|e]; [|discriminate]. cbn [bind] in H.
  exists t. split; [reflexivity|]. apply falsy_truthy. congruence.
Qed.

Lemma missing_text_present (x e : value) (k s : string) :
  get x k = Ok e -> getTextContent e = Ok (Str s) -> s <> "" ->
  missing_text x k = Ok false /\ text_of x k = Ok (Str s).
Proof.
  intros Hget Htext Hs. unfold missing_text, text_of. rewrite Hget.
  cbn [bind]. rewrite Htext. cbn [bind].
  destruct (falsy e) eqn:E.
  - unfold getTextContent in Htext. rewrite E in Htext.
    exfalso. apply Hs. congruence.
  - split; [|reflexivity]. f_equal. unfold falsy. cbn [truthy].
    destruct (s =? "")%string eqn:Es; [|reflexivity].
    apply String.eqb_eq in Es. contradiction.
Qed.

(** Inverts a check that returned no message. *)
Ltac no_message H :=
  repeat first
    [ discriminate H
    | progress cbn [bind app negb] in H
    | match type of H with
      | context [bind (missing_text ?x ?k) _] =>
          let E := fresh "E" in
          destruct (missing_text x k) as [[|]|] eqn:E
      | context [bind (text_of ?x ?k) _] =>
          let E := fresh "E" in
          destruct (text_of x k) as [?t|] eqn:E
      | context [bind (get ?x ?k) _] =>
          let E := fresh "E" in
          destruct (get x k) as [?v|] eqn:E
      | context [if negb ?b then _ else _] =>
          let E := fresh "E" in destruct b eqn:E
      | context [if falsy ?b then _ else _] =>
          let E := fresh "E" in destruct (falsy b) eqn:E
      | context [if strict_equal ?a ?b then _ else _] =>
          let E := fresh "E" in destruct (strict_equal a b) eqn:E
      end ].

Lemma has_text_unique (x : value) (k : string) (t t' : value) :
  has_text x k t -> text_of x k = Ok t' -> t' = t.
Proof. intros [H _] H'. congruence. Qed.

Lemma has_text_not_missing (x : value) (k : string) (t : value) :
  has_text x k t -> missing_text x k = Ok false.
Proof.
  unfold has_text, text_of, missing_text. intros [H Ht].
  destruct (get x k) as [v|e]; [|discriminate]. cbn [bind] in *.
  destruct (falsy v) eqn:E.
  - unfold getTextContent in H. rewrite E in H.
    assert (t = Str "") by congruence. subst t. discriminate.
  - rewrite H. cbn [bind]. unfold falsy. now rewrite Ht.
Qed.

Lemma has_text_not_nullish (x : value) (k : string) (t : value) :
  has_text x k t -> nullish x = false.
Proof.
  unfold has_text, text_of. intros [H _]. now destruct x.
Qed.

(** Turns what the inversion leaves into the vocabulary of the
    statements. *)
Ltac settle :=
  repeat match goal with
    | E : missing_text _ _ = Ok false |- _ =>
        apply missing_text_false in E as [? ?]
    | E : falsy _ = false |- _ => apply falsy_truthy in E
    | H : has_text ?x ?k ?t, E : text_of ?x ?k = Ok ?t' |- _ =>
        rewrite (has_text_unique _ _ _ _ H E) in *; clear E
    | E : Regex.test_anchored twelve_digits _ = true |- _ =>
        apply twelve_digits_iff in E
    | E : Regex.test email_shape _ = true |- _ =>
        apply email_shape_iff in E
    end.

Lemma check_kontaktperson_nil (kontaktperson : value) :
  check_kontaktperson kontaktperson = Ok [] <-> contact_complete kontaktperson.
Proof.
  unfold check_kontaktperson, contact_complete, present. split.
  - intro H. no_message H. settle. eauto 8.
  - intros ([t1 H1] & [t2 H2] & [t3 [H3 Ha]]).
    rewrite (has_text_not_missing _ _ _ H1), (has_text_not_missing _ _ _ H2),
      (has_text_not_missing _ _ _ H3).
    cbn [bind]. destruct H3 as [-> _]. cbn [bind].
    apply email_shape_iff in Ha. now rewrite Ha.
Qed.

Lemma check_avsandare_nil (root : value) :
  check_avsandare root = Ok [] <-> sender_complete root.
Proof.
  unfold check_avsandare, sender_complete, present, twelve_digits_in. split.
  - intro H.
    no_message H;
      try match type of H with
          | context [check_kontaktperson ?kp] =>
              destruct (check_kontaktperson kp) as [[|m ms]|] eqn:Ek
          end;
      no_message H.
    settle. apply check_kontaktperson_nil in Ek. eauto 14.
  - intros (av & kp & Hav & Tav & [t1 H1] & [t2 [H2 Hd]] & Hkp & Tkp & Hc
            & [t3 H3]).
    rewrite Hav. cbn [bind]. apply falsy_truthy in Tav, Tkp. rewrite Tav.
    rewrite (has_text_not_missing _ _ _ H1), (has_text_not_missing _ _ _ H2),
      (has_text_not_missing _ _ _ H3), Hkp.
    cbn [bind]. destruct H2 as [-> _]. cbn [bind].
    apply twelve_digits_iff in Hd. rewrite Hd. cbn [negb bind]. rewrite Tkp.
    apply check_kontaktperson_nil in Hc. now rewrite Hc.
Qed.

Lemma check_namespaces_nil (root : value) :
  check_namespaces root = Ok [] <-> namespaces_declared root.
Proof.
  unfold check_namespaces, namespaces_declared. split.
  - intro H. no_message H. settle.
    match goal with
    | Ha : get root "_attributes" = Ok ?a |- _ => exists a
    end.
    repeat match goal with
      | E : get ?x ?k = Ok _, T : truthy ?x = true |- _ =>
          rewrite (get_truthy x k T eq_refl) in E
      end.
    repeat split; congruence.
  - intros (a & Ha & Ta & Txsi & Tx). rewrite Ha. cbn [bind].
    rewrite !(get_truthy _ _ Ta) by reflexivity. cbn [bind].
    apply falsy_truthy in Ta, Txsi, Tx. now rewrite Ta, Txsi, Tx.
Qed.

Lemma check_blankett_nil (blankett : value) (index : Z) :
  check_blankett blankett index = Ok [] <-> form_complete blankett.
Proof.
  unfold check_blankett, form_complete, present, twelve_digits_in. split.
  - intro H. no_message H. settle.
    match goal with
    | Hb : get blankett "Blankettinnehall" = Ok ?b |- _ =>
        apply get_Ok_member in Hb; destruct Hb as [-> _]
    end.
    eauto 12.
  - intros (info & Hi & Ti & [t1 [H1 Hd]] & [t2 H2] & Tb).
    rewrite Hi. cbn [bind]. apply falsy_truthy in Ti. rewrite Ti.
    rewrite (has_text_not_missing _ _ _ H1), (has_text_not_missing _ _ _ H2).
    cbn [bind]. destruct H1 as [-> _]. cbn [bind].
    apply twelve_digits_iff in Hd. rewrite Hd. cbn [negb bind app].
    rewrite (get_not_nullish blankett "Blankettinnehall")
      by (now destruct blankett).
    cbn [bind]. apply falsy_truthy in Tb. now rewrite Tb.
Qed.

(** Names the result of each step of a check that completed. *)
Ltac peel H :=
  repeat (cbn [bind] in H;
          match type of H with
          | bind ?m _ = _ =>
              let E := fresh "E" in
              destruct m eqn:E; [|discriminate H]
          end);
  cbn [bind] in H.

(** Splits [l1 ++ ... ++ ln = []] and decides the tests that guard a
    message. *)
Ltac split_nil H :=
  repeat match type of H with
    | (_ ++ _)%list = [] =>
        let H' := fresh "N" in apply app_eq_nil in H as [H' H]
    end;
  repeat match goal with
    | N : (if ?b then _ :: _ else _) = [] |- _ =>
        let E := fresh "E" in destruct b eqn:E; [discriminate N|]
    | N : [] = [] |- _ => clear N
    end.

Lemma amount_given_nil (franvaro : value) (procentKey timmarKey : string)
  (message : list string) :
  restricted procentKey = false ->
  message <> [] ->
  (procent <- text_of franvaro procentKey ;;
   if falsy procent
   then timmar <- text_of franvaro timmarKey ;;
        if falsy timmar then Ok message else Ok []
   else Ok []) = Ok []
  <-> nullish franvaro = false
      /\ (present franvaro procentKey \/ present franvaro timmarKey).
Proof.
  intros Hk Hm. unfold present, has_text. split.
  - intro H.
    destruct (text_of franvaro procentKey) as [p|e] eqn:Ep; [|discriminate].
    assert (nullish franvaro = false) as Hn
      by (unfold text_of in Ep; now destruct franvaro).
    split; [assumption|]. cbn [bind] in H.
    destruct (falsy p) eqn:Fp.
    + destruct (text_of franvaro timmarKey) as [t|e] eqn:Et; [|discriminate].
      cbn [bind] in H. destruct (falsy t) eqn:Ft; [congruence|].
      right. exists t. split; [reflexivity|now apply falsy_truthy].
    + left. exists p. split; [reflexivity|now apply falsy_truthy].
  - intros [Hn [[p [Hp Tp]]|[t [Ht Tt]]]].
    + rewrite Hp. cbn [bind]. apply falsy_truthy in Tp. now rewrite Tp.
    + destruct (text_of_total franvaro procentKey Hn Hk) as [p ->].
      cbn [bind].
      destruct (falsy p); [|reflexivity].
      rewrite Ht. cbn [bind]. apply falsy_truthy in Tt. now rewrite Tt.
Qed.

Lemma check_franvaro_nil (franvaro : value) (index : Z) :
  check_franvaro franvaro index = Ok [] <-> record_complete franvaro.
Proof.
  unfold check_franvaro, record_complete, twelve_digits_in. split.
  - intro H. peel H. injection H as H. split_nil H. subst.
    repeat match goal with
      | E : missing_text _ _ = Ok false |- _ =>
          apply missing_text_false in E
      end.
    match goal with
    | E : (if ?b then _ else _) = Ok [] |- _ =>
        destruct b; [discriminate E|]; no_message E
    end.
    settle.
    assert (nullish franvaro = false) as Hn
      by (destruct E as [t0 Ht0]; now apply has_text_not_nullish in Ht0).
    repeat (split; [now eauto|]).
    destruct (strict_equal a5 (Str "FORALDRAPENNING")) eqn:Sfp.
    + apply strict_equal_eq in Sfp. subst a5. left. split; [reflexivity|].
      apply amount_given_nil in E7; [tauto|reflexivity|discriminate].
    + destruct (strict_equal a5 (Str "TILLFALLIG_FORALDRAPENNING")) eqn:Stfp;
        [|discriminate].
      apply strict_equal_eq in Stfp. subst a5. right. split; [reflexivity|].
      apply amount_given_nil in E8; [tauto|reflexivity|discriminate].
  - intros ([t1 H1] & [t2 [H2 Hd]] & [t3 H3] & [t4 H4] & [t5 H5] & Htyp).
    pose proof (has_text_not_nullish _ _ _ H1) as Hn.
    rewrite (has_text_not_missing _ _ _ H1), (has_text_not_missing _ _ _ H2),
      (has_text_not_missing _ _ _ H3), (has_text_not_missing _ _ _ H4),
      (has_text_not_missing _ _ _ H5).
    cbn [bind]. destruct H2 as [-> _]. cbn [bind].
    apply twelve_digits_iff in Hd. rewrite Hd. cbn [negb bind].
    destruct Htyp as [[Ht Ha]|[Ht Ha]];
      rewrite (has_text_not_missing _ "FranvaroTyp" _ (conj Ht eq_refl)), Ht;
      cbn [bind];
      match goal with
      | |- context [strict_equal ?a ?b] =>
          change (strict_equal a b) with true
      end;
      match goal with
      | |- context [strict_equal ?a ?b] =>
          change (strict_equal a b) with false
      end;
      match goal with
      | |- context [bind ?m _] =>
          replace m with (@Ok (list string) [])
            by (symmetry; apply amount_given_nil;
                [reflexivity|discriminate|tauto])
      end;
      reflexivity.
Qed.
Lemma map_indexed_nil (callback : value -> Z -> result (list string))
  (P : value -> Prop) :
  (forall x i, callback x i = Ok [] <-> P x) ->
  forall items i,
  (exists groups, map_indexed callback items i = Ok groups
                  /\ List.concat groups = [])
  <-> Forall P items.
Proof.
  intros Hcb. induction items as [|x rest IH]; intro i; simpl.
  - split; [constructor|]. intros _. exists []. auto.
  - split.
    + intros (groups & H & Hnil).
      destruct (callback x i) as [y|e] eqn:Ey; [|discriminate].
      cbn [bind] in H.
      destruct (map_indexed callback rest (i + 1)) as [ys|e] eqn:Eys;
        [|discriminate].
      cbn [bind] in H. assert (groups = y :: ys) by congruence. subst groups.
      simpl in Hnil. apply app_eq_nil in Hnil as [-> Hnil].
      constructor; [now apply (Hcb x i)|].
      apply (IH (i + 1)). eauto.
    + intro H. inversion H as [|x' rest' Hx Hrest]; subst.
      apply (Hcb x i) in Hx. rewrite Hx. cbn [bind].
      apply (IH (i + 1)) in Hrest as (groups & -> & Hnil). cbn [bind].
      exists ([] :: groups). auto.
Qed.

Lemma for_each_nil (callback : value -> Z -> result (list string))
  (P : value -> Prop) :
  (forall x i, callback x i = Ok [] <-> P x) ->
  forall items, for_each callback items = Ok [] <-> Forall P items.
Proof.
  intros Hcb items. rewrite <- (map_indexed_nil callback P Hcb items 0).
  unfold for_each. split.
  - intro H. destruct (map_indexed callback items 0) as [groups|e];
      [|discriminate].
    cbn [bind] in H. exists groups. split; congruence.
  - intros (groups & -> & Hnil). cbn [bind]. now rewrite Hnil.
Qed.

Lemma check_blanketter_nil (root : value) :
  check_blanketter root = Ok []
  <-> exists blankett,
        get root "Blankett" = Ok blankett
        /\ truthy blankett = true
        /\ Forall form_complete (as_sequence blankett).
Proof.
  unfold check_blanketter. split.
  - intro H. destruct (get root "Blankett") as [b|e]; [|discriminate].
    cbn [bind] in H. destruct (falsy b) eqn:F; [discriminate|].
    exists b. split; [reflexivity|]. split; [now apply falsy_truthy|].
    now apply (for_each_nil check_blankett form_complete check_blankett_nil).
  - intros (b & -> & T & H). cbn [bind]. apply falsy_truthy in T. rewrite T.
    now apply (for_each_nil check_blankett form_complete check_blankett_nil).
Qed.

Lemma check_franvarouppgifter_nil (root : value) :
  check_franvarouppgifter root = Ok []
  <-> exists franvaro,
        get root "Franvarouppgift" = Ok franvaro
        /\ (truthy franvaro = true ->
            Forall record_complete (as_sequence franvaro)).
Proof.
  unfold check_franvarouppgifter. split.
  - intro H. destruct (get root "Franvarouppgift") as [f|e]; [|discriminate].
    cbn [bind] in H. exists f. split; [reflexivity|]. intro T.
    rewrite T in H.
    now apply (for_each_nil check_franvaro record_complete check_franvaro_nil).
  - intros (f & -> & H). cbn [bind]. destruct (truthy f); [|reflexivity].
    apply (for_each_nil check_franvaro record_complete check_franvaro_nil).
    now apply H.
Qed.

Lemma length_zero_nil {A} (l : list A) :
  (List.length l =? 0)%nat = true <-> l = [].
Proof. destruct l; simpl; split; congruence. Qed.

Lemma validate_parsed_invariant (parsedXml : value) (r : ValidationResult) :
  validate_parsed parsedXml = Ok r -> (valid r = true <-> errors r = []).
Proof.
  unfold validate_parsed, no_root_element. intro H.
  destruct (falsy parsedXml);
    [inversion H; subst; simpl; split; discriminate|].
  peel H. destruct (falsy a);
    [inversion H; subst; simpl; split; discriminate|].
  peel H. inversion H; subst; simpl. apply length_zero_nil.
Qed.

Lemma validate_parsed_accepts (parsedXml : value) :
  validate_parsed parsedXml = Ok {| valid := true; errors := [] |}
  <-> declaration_complete parsedXml.
Proof.
  unfold validate_parsed, declaration_complete, no_root_element. split.
  - intro H. destruct (falsy parsedXml) eqn:F; [discriminate|].
    apply falsy_truthy in F. split; [assumption|].
    peel H. destruct (falsy a) eqn:Fa; [discriminate|].
    apply falsy_truthy in Fa. peel H.
    assert (a0 ++ a1 ++ a2 ++ a3 = [])%list as N by congruence.
    apply app_eq_nil in N as [-> N]. apply app_eq_nil in N as [-> N].
    apply app_eq_nil in N as [-> ->].
    exists a. split; [reflexivity|]. split; [assumption|].
    split; [now apply check_namespaces_nil|].
    split; [now apply check_avsandare_nil|].
    split; [now apply check_blanketter_nil|].
    now apply check_franvarouppgifter_nil.
  - intros (T & root & -> & Tr & Hn & Hs & Hb & Hf).
    apply falsy_truthy in T, Tr. rewrite T. cbn [bind]. rewrite Tr.
    apply check_namespaces_nil in Hn. apply check_avsandare_nil in Hs.
    apply check_blanketter_nil in Hb. apply check_franvarouppgifter_nil in Hf.
    rewrite Hn, Hs, Hb, Hf. reflexivity.
Qed.

(** X3.  Whatever the parser does and whatever the input, [validateXML]
    returns a verdict in which [valid] is true exactly when the list of
    messages is empty: a document is never rejected without a message and
    never accepted with one. *)
Theorem validate_valid_iff_no_message
  (xml2js : string -> result value) (xmlString : string) :
  exists r, validateXML xml2js xmlString = Ok r
            /\ (valid r = true <-> errors r = []).
Proof.
  unfold validateXML, parseXML.
  destruct (xmlString =? "")%string.
  - eexists. split; [reflexivity|]. simpl. split; discriminate.
  - destruct (xml2js xmlString) as [parsedXml|e]; cbn [try_catch bind].
    + destruct (validate_parsed parsedXml) as [r|e] eqn:E.
      * exists r. split; [reflexivity|].
        now apply (validate_parsed_invariant parsedXml).
      * eexists. split; [reflexivity|]. simpl. split; discriminate.
    + eexists. split; [reflexivity|]. simpl. split; discriminate.
Qed.



(* ================================================================== *)
(** * Further properties: what an accepted document allows *)
(* ================================================================== *)

Lemma accepted_is_complete
  (xml2js : string -> result value) (xmlString : string) (parsedXml : value)
  (r : ValidationResult) :
  xml2js xmlString = Ok parsedXml ->
  validateXML xml2js xmlString = Ok r -> valid r = true ->
  declaration_complete parsedXml.
Proof.
  intros Hparse Hr Hvalid. unfold validateXML, parseXML in Hr.
  destruct (xmlString =? "")%string.
  - assert (valid r = false) by (inversion Hr; reflexivity). congruence.
  - rewrite Hparse in Hr. cbn [try_catch bind] in Hr.
    destruct (validate_parsed parsedXml) as [r'|e] eqn:E; cbn [try_catch] in Hr.
    + assert (r' = r) by congruence. subst r'.
      apply validate_parsed_accepts. rewrite E.
      pose proof (proj1 (validate_parsed_invariant _ _ E) Hvalid) as Hes.
      destruct r as [v es]. simpl in *. congruence.
    + assert (valid r = false) by (inversion Hr; reflexivity). congruence.
Qed.

Lemma complete_yields_cases (parsedXml : value) :
  declaration_complete parsedXml ->
  exists cases, extractArendeInformation parsedXml = Ok (Some cases).
Proof.
  intros (T & root & Hroot & Tr & _ & _ & (bl & Hbl & Tbl & Hforms)
          & (fu & Hfu & Hrecords)).
  pose proof (truthy_not_nullish _ Tr) as Nr.
  apply (extractCases_completes parsedXml (as_sequence bl)
           (if truthy fu then as_sequence fu else [])).
  - assumption.
  - unfold document_blanketter, get_opt. rewrite Hroot. cbn [bind].
    rewrite Nr, Hbl. cbn [bind]. now rewrite Tbl.
  - eapply Forall_impl; [|exact Hforms].
    intros b (info & Hi & _). now destruct b.
  - eapply Forall_impl; [|exact Hforms].
    intros b (info & Hi & Ti & _) _.
    apply get_Ok_member in Hi as [-> _]. now apply truthy_not_nullish.
  - unfold document_franvaro, get_opt. rewrite Hroot. cbn [bind].
    rewrite Nr, Hfu. reflexivity.
  - destruct (truthy fu); [|constructor].
    eapply Forall_impl; [|exact (Hrecords eq_refl)].
    intros f ([t Ht] & _). now apply has_text_not_nullish in Ht.
Qed.

Lemma complete_builds (parsedXml : value) (arendeInfoList : list Arende) :
  declaration_complete parsedXml ->
  exists modified, modifiedXml parsedXml arendeInfoList = Ok modified.
Proof.
  intros (T & root & Hroot & Tr & _ & (av & kp & Hav & Tav & _) & _).
  unfold modifiedXml. rewrite Hroot. cbn [bind]. rewrite Hav. cbn [bind].
  rewrite (get_truthy _ _ Tav) by reflexivity. cbn [bind]. eauto.
Qed.

(** X5.  A document that [validateXML] accepted can always be read into
    cases: [extractArendeInformation] completes on it and gives a case
    list (it never meets a form or a record it cannot read). *)
Theorem accepted_document_yields_cases
  (xml2js : string -> result value) (xmlString : string) (parsedXml : value)
  (r : ValidationResult) :
  xml2js xmlString = Ok parsedXml ->
  validateXML xml2js xmlString = Ok r -> valid r = true ->
  exists cases, extractArendeInformation parsedXml = Ok (Some cases).
Proof.
  intros Hparse Hr Hvalid. apply complete_yields_cases.
  exact (accepted_is_complete xml2js xmlString parsedXml r Hparse Hr Hvalid).
Qed.

Lemma accepted_document_yields_cases_witness :
  sample_xml2js "<Skatteverket>...</Skatteverket>" = Ok sample_document
  /\ validateXML sample_xml2js "<Skatteverket>...</Skatteverket>"
     = Ok {| valid := true; errors := [] |}
  /\ exists cases, extractArendeInformation sample_document = Ok (Some cases).
Proof.
  split; [reflexivity|]. split; [reflexivity|].
  exact (accepted_document_yields_cases sample_xml2js
           "<Skatteverket>...</Skatteverket>" sample_document
           {| valid := true; errors := [] |} eq_refl eq_refl eq_refl).
Defined.

(** X6.  For a document that [validateXML] accepted and any case list,
    [generateModifiedXML] builds the new tree without an error and hands
    it to the serializer: the download can fail only inside
    [generateXML]. *)
Theorem accepted_document_builds
  (js2xml : value -> result string)
  (xml2js : string -> result value) (xmlString : string) (parsedXml : value)
  (r : ValidationResult) (arendeInfoList : list Arende) :
  xml2js xmlString = Ok parsedXml ->
  validateXML xml2js xmlString = Ok r -> valid r = true ->
  exists modified,
    modifiedXml parsedXml arendeInfoList = Ok modified
    /\ generateModifiedXML js2xml parsedXml arendeInfoList
       = generateXML js2xml modified.
Proof.
  intros Hparse Hr Hvalid.
  pose proof (accepted_is_complete xml2js xmlString parsedXml r Hparse Hr
                Hvalid) as Hc.
  destruct (complete_builds parsedXml arendeInfoList Hc) as [modified Hm].
  exists modified. split; [assumption|].
  unfold generateModifiedXML. destruct Hc as [T _].
  apply falsy_truthy in T. rewrite T, Hm. reflexivity.
Qed.

Lemma accepted_document_builds_witness :
  sample_xml2js "<Skatteverket>...</Skatteverket>" = Ok sample_document
  /\ validateXML sample_xml2js "<Skatteverket>...</Skatteverket>"
     = Ok {| valid := true; errors := [] |}
  /\ exists modified,
       modifiedXml sample_document [case_two_records] = Ok modified
       /\ generateModifiedXML (fun _ => Ok "<xml/>") sample_document
            [case_two_records]
          = generateXML (fun _ => Ok "<xml/>") modified.
Proof.
  split; [reflexivity|]. split; [reflexivity|].
  exact (accepted_document_builds (fun _ => Ok "<xml/>") sample_xml2js
           "<Skatteverket>...</Skatteverket>" sample_document
           {| valid := true; errors := [] |} [case_two_records]
           eq_refl eq_refl eq_refl).
Defined.

(* ================================================================== *)
(** * Further properties: the entry form *)
(* ================================================================== *)

Lemma falsy_Str (s : string) : falsy (Str s) = (s =? "")%string.
Proof. unfold falsy. cbn [truthy]. apply negb_involutive. Qed.

Lemma truthy_Str (s : string) : truthy (Str s) = negb (s =? "")%string.
Proof. reflexivity. Qed.

Lemma set_field_not_nil {V} (k : string) (v : V) (fields : list (string * V)) :
  set_field k v fields <> [].
Proof.
  destruct fields as [|[k' v'] rest]; simpl; [discriminate|].
  destruct (k' =? k)%string; discriminate.
Qed.

Lemma check_amounts_nil (percent_out_of_range hours_out_of_range : string -> bool)
  (procentKey timmarKey procent timmar : string)
  (newErrors : list (string * string)) :
  check_amounts percent_out_of_range hours_out_of_range
    procentKey timmarKey procent timmar newErrors = []
  <-> newErrors = []
      /\ amounts_valid percent_out_of_range hours_out_of_range procent timmar.
Proof.
  unfold check_amounts, amounts_valid. rewrite !falsy_Str, !truthy_Str.
  destruct (String.eqb_spec procent "") as [Ep|Ep],
           (String.eqb_spec timmar "") as [Et|Et];
    cbn [negb andb].
  - subst. cbn [andb negb]. split.
    + intro H. now apply set_field_not_nil in H.
    + intros [_ [[H|H] _]]; congruence.
  - destruct (hours_out_of_range timmar) eqn:Eh; split.
    + intro H. now apply set_field_not_nil in H.
    + intros [_ [_ [_ H]]]. specialize (H Et). congruence.
    + intros ->. repeat split; auto; congruence.
    + tauto.
  - destruct (percent_out_of_range procent) eqn:Eq; split.
    + intro H. now apply set_field_not_nil in H.
    + intros [_ [_ [H _]]]. specialize (H Ep). congruence.
    + intros ->. repeat split; auto; congruence.
    + tauto.
  - destruct (percent_out_of_range procent) eqn:Eq,
             (hours_out_of_range timmar) eqn:Eh; split;
      try (intro H; now apply set_field_not_nil in H);
      try (intros [_ [_ [H1 H2]]]; specialize (H1 Ep); specialize (H2 Et);
           congruence);
      try (intros ->; repeat split; auto; congruence);
      try tauto.
Qed.

Lemma guarded_set_nil {V} (c : bool) (k : string) (v : V)
  (fields : list (string * V)) :
  (if c then set_field k v fields else fields) = []
  <-> c = false /\ fields = [].
Proof.
  destruct c; split.
  - intro H. now apply set_field_not_nil in H.
  - intros [H _]. discriminate.
  - auto.
  - tauto.
Qed.

Lemma personal_id_nil (id : string) (fields : list (string * string)) :
  (if (id =? "")%string
   then set_field "betalningsmottagarId" "Personal ID is required" fields
   else if negb (Regex.test_anchored twelve_digits id)
        then set_field "betalningsmottagarId"
               "Personal ID must be 12 digits (YYYYMMDDNNNN)" fields
        else fields) = []
  <-> twelve_digit_string id /\ fields = [].
Proof.
  rewrite <- twelve_digits_iff.
  destruct (String.eqb_spec id "") as [->|E].
  - split; [intro H; now apply set_field_not_nil in H|].
    intros [H _]. discriminate.
  - destruct (Regex.test_anchored twelve_digits id); cbn [negb]; split;
      try tauto; try (intro H; now apply set_field_not_nil in H);
      try (intros [H _]; discriminate); auto.
Qed.

Lemma form_errors_nil (percent_out_of_range hours_out_of_range : string -> bool)
  (formData : FormData) :
  form_errors percent_out_of_range hours_out_of_range formData = []
  <-> entry_valid percent_out_of_range hours_out_of_range formData.
Proof.
  unfold form_errors, entry_valid. cbv zeta. rewrite !falsy_Str.
  assert (forall P Q R : Prop, (P <-> Q) -> (Q <-> R) -> (P <-> R)) as trans
    by tauto.
  destruct (String.eqb_spec (franvaroTyp formData) "TILLFALLIG_FORALDRAPENNING")
    as [Etfp|Etfp];
  destruct (String.eqb_spec (franvaroTyp formData) "FORALDRAPENNING")
    as [Efp|Efp];
    try congruence;
    rewrite ?check_amounts_nil, !guarded_set_nil, personal_id_nil;
    destruct (String.eqb_spec (franvaroDatum formData) "") as [Ed|Ed];
    destruct (String.eqb_spec (franvaroTyp formData) "") as [Et|Et];
    try (rewrite Et in *; discriminate);
    intuition congruence.
Qed.

Lemma validateForm_no_message
  (percent_out_of_range hours_out_of_range : string -> bool)
  (formData : FormData) :
  validateForm percent_out_of_range hours_out_of_range formData = true
  <-> form_errors percent_out_of_range hours_out_of_range formData = [].
Proof.
  unfold validateForm, keys.
  destruct (form_errors percent_out_of_range hours_out_of_range formData);
    simpl; split; congruence.
Qed.

(** X7.  [validateForm] lets an entry through exactly when the personal
    id is twelve digits, a date and a type are given and, for either of
    the two absence types, a percentage or a number of hours is given for
    that type and each given amount passes its range test.  (An entry of
    any other type needs no amount.) *)
Theorem validateForm_accepts_valid_entries
  (percent_out_of_range hours_out_of_range : string -> bool)
  (formData : FormData) :
  validateForm percent_out_of_range hours_out_of_range formData = true
  <-> entry_valid percent_out_of_range hours_out_of_range formData.
Proof.
  rewrite validateForm_no_message. apply form_errors_nil.
Qed.

(* ================================================================== *)
(** * Further properties: the record that is added *)
(* ================================================================== *)

Lemma new_franvaro_shape (currentArende : Arende) (franvaro : FormData)
  (maxSpecNr : number) :
  new_franvaro currentArende franvaro maxSpecNr
  = Obj
      ([ ("AgRegistreradId", XMLElement (arendeAgare currentArende) "201");
         ("BetalningsmottagarId",
          XMLElement
            (if truthy (betalningsmottagarId currentArende)
             then betalningsmottagarId currentArende
             else Str (form_betalningsmottagarId franvaro))
            "215");
         ("FranvaroDatum", XMLElement (Str (franvaroDatum franvaro)) "821");
         ("FranvaroSpecifikationsnummer",
          XMLElement
            (Str (number_to_string (number_add maxSpecNr (Int 1)))) "822");
         ("FranvaroTyp", XMLElement (Str (franvaroTyp franvaro)) "823");
         ("RedovisningsPeriod", XMLElement (period currentArende) "006") ]
       ++ given "FranvaroProcentFP" (franvaroProcentFP franvaro) "826"
       ++ given "FranvaroTimmarFP" (franvaroTimmarFP franvaro) "827"
       ++ given "FranvaroProcentTFP" (franvaroProcentTFP franvaro) "824"
       ++ given "FranvaroTimmarTFP" (franvaroTimmarTFP franvaro) "825")%list.
Proof.
  unfold new_franvaro, optional_field, given. rewrite !truthy_Str.
  destruct (franvaroProcentFP franvaro =? "")%string,
           (franvaroTimmarFP franvaro =? "")%string,
           (franvaroProcentTFP franvaro =? "")%string,
           (franvaroTimmarTFP franvaro =? "")%string; reflexivity.
Qed.

Lemma element_has_text (fields : list (string * value)) (k : string)
  (text : value) (faltkod : string) :
  assoc k fields = Some (XMLElement text faltkod) ->
  truthy text = true ->
  has_text (Obj fields) k text.
Proof.
  intros Ha Ht. unfold has_text, text_of. rewrite (get_Obj _ _ _ Ha).
  cbn [bind]. unfold getTextContent, XMLElement. cbn. now rewrite Ht.
Qed.

Lemma element_text (fields : list (string * value)) (k s faltkod : string) :
  assoc k fields = Some (XMLElement (Str s) faltkod) ->
  text_of (Obj fields) k = Ok (Str s).
Proof.
  intro Ha. unfold text_of. rewrite (get_Obj _ _ _ Ha).
  cbn [bind]. unfold getTextContent, XMLElement. cbn.
  destruct (String.eqb_spec s "") as [->|_]; reflexivity.
Qed.


Lemma digits_of_not_empty (fuel : nat) :
  forall n acc, acc <> "" -> digits_of fuel n acc <> "".
Proof.
  induction fuel as [|fuel IH]; intros n acc H; simpl; [assumption|].
  destruct (n <? 10); [discriminate|]. apply IH. discriminate.
Qed.

Lemma decimal_not_empty (n : Z) : decimal n <> "".
Proof.
  unfold decimal. simpl. destruct (n <? 10); [discriminate|].
  apply digits_of_not_empty. discriminate.
Qed.

Lemma large_to_string_not_empty (x : Z) : large_to_string x <> "".
Proof.
  unfold large_to_string.
  destruct (rounds_to (10 ^ Z.of_nat (String.length (decimal x))) x).
  - destruct (Z.of_nat (String.length (decimal x)) + 1 <=? 21).
    + intro H. apply append_eq_empty in H as [H _].
      now apply decimal_not_empty in H.
    + pose proof (decimal_not_empty 1) as H.
      destruct (decimal 1) as [|c [|c' rest]]; [contradiction| |];
        discriminate.
  - destruct (shortest_digits _ 1 _ x) as [s k].
    destruct (Z.of_nat (String.length (decimal x)) <=? 21).
    + intro H. apply append_eq_empty in H as [H _].
      now apply decimal_not_empty in H.
    + pose proof (decimal_not_empty s) as H.
      destruct (decimal s) as [|c [|c' rest]]; [contradiction| |];
        discriminate.
Qed.

Lemma number_to_string_not_empty (n : number) : number_to_string n <> "".
Proof.
  destruct n as [| | |z]; simpl; try discriminate.
  destruct (z <? 0); [discriminate|].
  unfold magnitude_to_string. destruct (z <=? 2 ^ 53).
  - apply decimal_not_empty.
  - apply large_to_string_not_empty.
Qed.

Lemma twelve_digit_string_not_empty (s : string) :
  twelve_digit_string s -> s <> "".
Proof. intros [H _] ->. discriminate. Qed.

Lemma not_empty_truthy (s : string) : s <> "" -> truthy (Str s) = true.
Proof.
  intro H. rewrite truthy_Str.
  destruct (String.eqb_spec s ""); [contradiction|reflexivity].
Qed.

Lemma valid_entry_gives_complete_record
  (percent_out_of_range hours_out_of_range : string -> bool)
  (currentArende : Arende) (franvaro : FormData) (maxSpecNr : number) :
  entry_valid percent_out_of_range hours_out_of_range franvaro ->
  franvaroTyp franvaro = "FORALDRAPENNING"
  \/ franvaroTyp franvaro = "TILLFALLIG_FORALDRAPENNING" ->
  truthy (arendeAgare currentArende) = true ->
  truthy (period currentArende) = true ->
  (truthy (betalningsmottagarId currentArende) = true ->
   twelve_digit_string (to_string (betalningsmottagarId currentArende))) ->
  record_complete (new_franvaro currentArende franvaro maxSpecNr).
Proof.
  intros (Hid & Hd & Ht & Hfp & Htfp) Htyp Tag Tper Tid.
  rewrite new_franvaro_shape. unfold record_complete, twelve_digits_in, present.
  split; [eexists; eapply element_has_text; [reflexivity|assumption]|].
  split.
  { eexists. split; [eapply element_has_text; [reflexivity|]|].
    - destruct (truthy (betalningsmottagarId currentArende)) eqn:E;
        [assumption|].
      apply not_empty_truthy. now apply twelve_digit_string_not_empty.
    - destruct (truthy (betalningsmottagarId currentArende)) eqn:E; auto. }
  split; [eexists; eapply element_has_text;
          [reflexivity|now apply not_empty_truthy]|].
  split; [eexists; eapply element_has_text;
          [reflexivity
          |apply not_empty_truthy; apply number_to_string_not_empty]|].
  split; [eexists; eapply element_has_text; [reflexivity|assumption]|].
  destruct Htyp as [E|E]; [left|right];
    (split; [rewrite <- E; eapply element_text; reflexivity|]).
  - destruct (Hfp E) as [[Hp|Hh] _]; [left|right];
      eexists;
      (eapply element_has_text;
       [unfold given;
        destruct (String.eqb_spec (franvaroProcentFP franvaro) ""),
                 (String.eqb_spec (franvaroTimmarFP franvaro) "");
        try contradiction; reflexivity
       |now apply not_empty_truthy]).
  - destruct (Htfp E) as [[Hp|Hh] _]; [left|right];
      eexists;
      (eapply element_has_text;
       [unfold given;
        destruct (String.eqb_spec (franvaroProcentFP franvaro) ""),
                 (String.eqb_spec (franvaroTimmarFP franvaro) ""),
                 (String.eqb_spec (franvaroProcentTFP franvaro) ""),
                 (String.eqb_spec (franvaroTimmarTFP franvaro) "");
        try contradiction; reflexivity
       |now apply not_empty_truthy]).
Qed.






Lemma handleAddFranvaro_result (arendeList : list Arende) (arendeIndex : nat)
  (franvaro : FormData) (i : nat) (l : list value) :
  handleAddFranvaro arendeList arendeIndex franvaro = Ok (i, l) ->
  exists currentArende maxSpecNr,
    nth_error arendeList arendeIndex = Some currentArende
    /\ max_spec_number (franvaroList currentArende) = Ok maxSpecNr
    /\ i = arendeIndex
    /\ l = (franvaroList currentArende
            ++ [new_franvaro currentArende franvaro maxSpecNr])%list.
Proof.
  unfold handleAddFranvaro, current_arende. intro H.
  destruct (nth_error arendeList arendeIndex) as [c|] eqn:Ec; [|discriminate].
  cbn [bind] in H. cbv zeta in H.
  destruct (max_spec_number (franvaroList c)) as [m|e] eqn:Em; [|discriminate].
  cbn [bind] in H. exists c, m.
  assert (i = arendeIndex) by congruence.
  assert (l = (franvaroList c ++ [new_franvaro c franvaro m])%list)
    by congruence.
  repeat split; assumption || reflexivity.
Qed.



(** X8.  An entry that [validateForm] let through, of one of the two
    absence types, added to a case that has an employer id, a period and
    a recipient id that is empty or twelve digits, gives a record that
    raises no message in the validator's absence-record rules: what
    [handleAddFranvaro] appends is a complete record. *)
Theorem validated_entry_adds_complete_record
  (percent_out_of_range hours_out_of_range : string -> bool)
  (arendeList : list Arende) (arendeIndex : nat) (currentArende : Arende)
  (franvaro : FormData) (i : nat) (l : list value) :
  nth_error arendeList arendeIndex = Some currentArende ->
  truthy (arendeAgare currentArende) = true ->
  truthy (period currentArende) = true ->
  (truthy (betalningsmottagarId currentArende) = true ->
   twelve_digit_string (to_string (betalningsmottagarId currentArende))) ->
  validateForm percent_out_of_range hours_out_of_range franvaro = true ->
  franvaroTyp franvaro = "FORALDRAPENNING"
  \/ franvaroTyp franvaro = "TILLFALLIG_FORALDRAPENNING" ->
  handleAddFranvaro arendeList arendeIndex franvaro = Ok (i, l) ->
  exists added,
    l = (franvaroList currentArende ++ [added])%list
    /\ forall index, check_franvaro added index = Ok [].
Proof.
  intros Hnth Tag Tper Tid Hvalid Htyp Hadd.
  apply handleAddFranvaro_result in Hadd as (c & m & Hc & _ & _ & ->).
  assert (c = currentArende) by congruence. subst c.
  exists (new_franvaro currentArende franvaro m). split; [reflexivity|].
  intro index. apply check_franvaro_nil.
  apply (valid_entry_gives_complete_record percent_out_of_range
           hours_out_of_range); try assumption.
  apply form_errors_nil. now apply validateForm_no_message.
Qed.

Lemma validated_entry_adds_complete_record_witness :
  nth_error [case_two_records] 0 = Some case_two_records
  /\ validateForm (fun _ => false) (fun _ => false) sample_form = true
  /\ exists added,
       handleAddFranvaro [case_two_records] 0 sample_form
       = Ok (0%nat, (two_records ++ [added])%list)
       /\ forall index, check_franvaro added index = Ok [].
Proof.
  split; [reflexivity|]. split; [reflexivity|].
  destruct (validated_entry_adds_complete_record
              (fun _ => false) (fun _ => false)
              [case_two_records] 0 case_two_records sample_form 0
              (two_records ++ [new_franvaro case_two_records sample_form (Int 2)])%list)
    as (added & Hl & Hok).
  - reflexivity.
  - reflexivity.
  - reflexivity.
  - intros _. split; reflexivity.
  - reflexivity.
  - now right.
  - reflexivity.
  - exists added. split; [|exact Hok].
    apply app_inv_head in Hl. inversion Hl; subst. reflexivity.
Defined.



Lemma fold_number_max_NaN (args : list number) :
  fold_left number_max args NaN = NaN.
Proof. induction args as [|a args IH]; simpl; auto. Qed.

Lemma math_max_NaN (args : list number) : In NaN args -> math_max args = NaN.
Proof.
  unfold math_max. generalize NegInf.
  induction args as [|a args IH]; intros init H; [contradiction|].
  destruct H as [H|H]; simpl.
  - subst a. replace (number_max init NaN) with NaN by (now destruct init).
    apply fold_number_max_NaN.
  - now apply IH.
Qed.

Lemma map_m_In {A} (f : value -> result A) (items : list value)
  (ys : list A) (x : value) (y : A) :
  map_m f items = Ok ys -> In x items -> f x = Ok y -> In y ys.
Proof.
  revert ys. induction items as [|x0 rest IH]; intros ys H Hin Hx;
    [contradiction|].
  simpl in H. destruct (f x0) as [y0|e] eqn:E0; [|discriminate].
  cbn [bind] in H. destruct (map_m f rest) as [ys'|e]; [|discriminate].
  cbn [bind] in H. assert (ys = y0 :: ys') by congruence. subst ys.
  destruct Hin as [->|Hin].
  - left. congruence.
  - right. now apply IH.
Qed.

Lemma new_franvaro_number_text (currentArende : Arende) (franvaro : FormData)
  (maxSpecNr : number) :
  text_of (new_franvaro currentArende franvaro maxSpecNr)
    "FranvaroSpecifikationsnummer"
  = Ok (Str (number_to_string (number_add maxSpecNr (Int 1)))).
Proof. rewrite new_franvaro_shape. eapply element_text. reflexivity. Qed.

(** X10.  One record whose specification number does not read as a
    number spoils the numbering of its case: when [parseInt] gives [NaN]
    for some record of the case, the record that [handleAddFranvaro]
    appends carries the text "NaN" as its specification number. *)
Theorem addAbsence_number_is_NaN_after_unreadable_number
  (arendeList : list Arende) (arendeIndex : nat) (currentArende : Arende)
  (franvaro : FormData) (f : value) (i : nat) (l : list value) :
  nth_error arendeList arendeIndex = Some currentArende ->
  In f (franvaroList currentArende) ->
  spec_number f = Ok NaN ->
  handleAddFranvaro arendeList arendeIndex franvaro = Ok (i, l) ->
  exists added,
    l = (franvaroList currentArende ++ [added])%list
    /\ text_of added "FranvaroSpecifikationsnummer" = Ok (Str "NaN").
Proof.
  intros Hnth Hin Hf Hadd.
  apply handleAddFranvaro_result in Hadd as (c & m & Hc & Hm & _ & ->).
  assert (c = currentArende) by congruence. subst c.
  exists (new_franvaro currentArende franvaro m). split; [reflexivity|].
  rewrite new_franvaro_number_text.
  unfold max_spec_number in Hm.
  destruct (franvaroList currentArende) as [|f0 fs] eqn:El; [contradiction|].
  change (0 <? List.length (f0 :: fs))%nat with true in Hm. cbv iota in Hm.
  destruct (map_m spec_number (f0 :: fs)) as [numbers|e] eqn:En;
    [|discriminate].
  cbn [bind] in Hm.
  rewrite (math_max_NaN numbers (map_m_In _ _ _ _ _ En Hin Hf)) in Hm.
  assert (m = NaN) by congruence. subst m. reflexivity.
Qed.

Lemma addAbsence_number_is_NaN_after_unreadable_number_witness :
  let f := sample_franvaro "198001011234" "202401" "n/a" in
  let arende :=
    {| index := 0;
       arendeAgare := Str "165560269986";
       period := Str "202401";
       betalningsmottagarId := Str "198001011234";
       blankettInnehall := sample_innehall "198001011234";
       franvaroList := [sample_franvaro "198001011234" "202401" "1"; f] |} in
  spec_number f = Ok NaN
  /\ exists l added,
       handleAddFranvaro [arende] 0 sample_form = Ok (0%nat, l)
       /\ l = (franvaroList arende ++ [added])%list
       /\ text_of added "FranvaroSpecifikationsnummer" = Ok (Str "NaN").
Proof.
  intros f arende. split; [reflexivity|].
  eexists.
  destruct (addAbsence_number_is_NaN_after_unreadable_number
              [arende] 0 arende sample_form f 0 _
              eq_refl (or_intror (or_introl eq_refl)) eq_refl eq_refl)
    as (added & Hl & Ht).
  exists added. split; [reflexivity|]. split; assumption.
Defined.

(** X11.  Numbering keeps the specification numbers of a case distinct:
    when the records of a case carry pairwise different positive numbers
    (within the exact integer range), so do the records after
    [handleAddFranvaro], the new number being different from every old
    one. *)
Theorem addAbsence_keeps_numbers_distinct
  (arendeList : list Arende) (arendeIndex : nat) (arende : Arende)
  (franvaro : FormData) (ns : list Z) :
  nth_error arendeList arendeIndex = Some arende ->
  Forall2 has_spec_number (franvaroList arende) ns ->
  Forall (fun n => 0 < n < 2 ^ 53) ns ->
  NoDup ns ->
  exists l n,
    handleAddFranvaro arendeList arendeIndex franvaro = Ok (arendeIndex, l)
    /\ Forall2 has_spec_number l (ns ++ [n])%list
    /\ ~ In n ns
    /\ NoDup (ns ++ [n])%list.
Proof.
  intros Hnth H2 Hrange Hnodup.
  assert (Hexact : Forall (fun n => Z.abs n <= 2 ^ 53) ns).
  { eapply Forall_impl; [|exact Hrange]. simpl. intros; lia. }
  destruct (max_spec_number_decimal _ _ H2 Hexact)
    as (m & Hmax & Hnil & Hcons).
  assert (0 <= m < 2 ^ 53 /\ Forall (fun n => n <= m) ns) as [Hm Hle].
  { destruct ns as [|n ns'].
    - rewrite Hnil by reflexivity. split; [lia|constructor].
    - destruct (Hcons ltac:(discriminate)) as [Hin Hall].
      split; [|assumption].
      rewrite Forall_forall in Hrange. specialize (Hrange m Hin). lia. }
  assert (~ In (m + 1) ns) as Hfresh.
  { intro Hin. rewrite Forall_forall in Hle. specialize (Hle _ Hin). lia. }
  exists (franvaroList arende ++ [new_franvaro arende franvaro (Int m)])%list,
         (m + 1).
  unfold handleAddFranvaro, current_arende. rewrite Hnth. cbn [bind].
  rewrite Hmax. cbn [bind].
  split; [reflexivity|]. split; [|split; [assumption|]].
  - apply Forall2_app; [assumption|]. constructor; [|constructor].
    apply new_franvaro_spec_number; lia.
  - apply NoDup_app; [assumption|repeat constructor; intros []|].
    intros x Hx [<-|[]]. contradiction.
Qed.

Lemma addAbsence_keeps_numbers_distinct_witness :
  nth_error [case_two_records] 0 = Some case_two_records
  /\ exists l n,
       handleAddFranvaro [case_two_records] 0 sample_form = Ok (0%nat, l)
       /\ Forall2 has_spec_number l ([1; 2] ++ [n])%list
       /\ ~ In n [1; 2]
       /\ NoDup ([1; 2] ++ [n])%list.
Proof.
  split; [reflexivity|].
  apply (addAbsence_keeps_numbers_distinct [case_two_records] 0
           case_two_records sample_form [1; 2]).
  - reflexivity.
  - repeat constructor;
      (eexists _, _; split; [reflexivity|]; split; [reflexivity|];
       repeat split; discriminate).
  - repeat constructor; lia.
  - repeat constructor; simpl; intuition lia.
Defined.

(* ================================================================== *)
(** * Further properties: the case list between upload and download *)
(* ================================================================== *)

(** X12.  The record that [handleAddFranvaro] appends carries the period
    of its case, and the recipient id of its case when the case has one:
    it then satisfies the test by which [extractArendeInformation] assigns
    records to that case.  When the case has no recipient id the record
    takes the id of the entry instead, and it satisfies the test only if
    that is empty as well. *)
Theorem added_record_carries_case_key
  (arendeList : list Arende) (arendeIndex : nat) (currentArende : Arende)
  (franvaro : FormData) (id period_text : string) (i : nat) (l : list value) :
  nth_error arendeList arendeIndex = Some currentArende ->
  betalningsmottagarId currentArende = Str id ->
  period currentArende = Str period_text ->
  handleAddFranvaro arendeList arendeIndex franvaro = Ok (i, l) ->
  exists added,
    l = (franvaroList currentArende ++ [added])%list
    /\ same_key (Str id) (Str period_text) added
       = Ok (negb (id =? "")%string
             || (form_betalningsmottagarId franvaro =? "")%string).
Proof.
  intros Hnth Hid Hper Hadd.
  apply handleAddFranvaro_result in Hadd as (c & m & Hc & _ & _ & ->).
  assert (c = currentArende) by congruence. subst c.
  exists (new_franvaro currentArende franvaro m). split; [reflexivity|].
  unfold same_key. rewrite new_franvaro_shape, Hid, Hper, truthy_Str.
  destruct (String.eqb_spec id "") as [->|Hne]; cbn [negb orb].
  - erewrite element_text by reflexivity. cbn [bind strict_equal].
    destruct (form_betalningsmottagarId franvaro =? "")%string;
      [|reflexivity].
    erewrite element_text by reflexivity. cbn [bind strict_equal].
    now rewrite String.eqb_refl.
  - erewrite element_text by reflexivity. cbn [bind strict_equal].
    rewrite String.eqb_refl.
    erewrite element_text by reflexivity. cbn [bind strict_equal].
    now rewrite String.eqb_refl.
Qed.

Lemma added_record_carries_case_key_witness :
  nth_error [case_two_records] 0 = Some case_two_records
  /\ exists l added,
       handleAddFranvaro [case_two_records] 0 sample_form = Ok (0%nat, l)
       /\ l = (two_records ++ [added])%list
       /\ same_key (Str "198001011234") (Str "202401") added = Ok true.
Proof.
  split; [reflexivity|]. eexists.
  destruct (added_record_carries_case_key [case_two_records] 0
              case_two_records sample_form "198001011234" "202401" 0 _
              eq_refl eq_refl eq_refl eq_refl) as (added & Hl & Hk).
  exists added. split; [reflexivity|]. split; assumption.
Defined.

(** X13.  With the index of a record of the case, [handleRemoveFranvaro]
    gives the list without that record: one shorter, the records before
    the index where they were, the records after it moved up by one, none
    of them changed (no specification number is reassigned). *)
Theorem removeAbsence_removes_that_record
  (arendeList : list Arende) (arendeIndex : nat) (arende : Arende) (i : nat) :
  nth_error arendeList arendeIndex = Some arende ->
  (i < List.length (franvaroList arende))%nat ->
  exists l,
    handleRemoveFranvaro arendeList arendeIndex (Z.of_nat i)
    = Ok (arendeIndex, l)
    /\ S (List.length l) = List.length (franvaroList arende)
    /\ (forall j, (j < i)%nat ->
                  nth_error l j = nth_error (franvaroList arende) j)
    /\ (forall j, (i <= j)%nat ->
                  nth_error l j = nth_error (franvaroList arende) (S j)).
Proof.
  intros Hnth Hi.
  exists (firstn i (franvaroList arende)
          ++ skipn (S i) (franvaroList arende))%list.
  split; [now apply removeAbsence_inside_list|].
  assert (List.length (firstn i (franvaroList arende)) = i) as Hlen
    by (apply firstn_length_le; lia).
  split; [|split].
  - rewrite length_app, Hlen, length_skipn. lia.
  - intros j Hj. rewrite nth_error_app1 by lia.
    rewrite nth_error_firstn.
    destruct (Nat.ltb_spec j i); [reflexivity|lia].
  - intros j Hj. rewrite nth_error_app2 by lia.
    rewrite nth_error_skipn, Hlen. f_equal. lia.
Qed.

Lemma removeAbsence_removes_that_record_witness :
  nth_error [case_two_records] 0 = Some case_two_records
  /\ (0 < List.length (franvaroList case_two_records))%nat
  /\ exists l,
       handleRemoveFranvaro [case_two_records] 0 0 = Ok (0%nat, l)
       /\ S (List.length l) = 2%nat
       /\ nth_error l 0 = Some (sample_franvaro "198001011234" "202401" "2").
Proof.
  split; [reflexivity|]. split; [simpl; lia|].
  destruct (removeAbsence_removes_that_record [case_two_records] 0
              case_two_records 0 eq_refl) as (l & Hl & Hlen & _ & Hafter).
  - simpl. lia.
  - exists l. split; [exact Hl|]. split; [exact Hlen|].
    rewrite (Hafter 0%nat) by lia. reflexivity.
Defined.

Lemma update_in_range (arendeInfoList : list Arende) (arendeIndex : nat)
  (arende : Arende) (franvaroList : list value) :
  nth_error arendeInfoList arendeIndex = Some arende ->
  handleFranvaroUpdate arendeInfoList arendeIndex franvaroList
  = Replaced (firstn arendeIndex arendeInfoList
              ++ with_franvaroList arende franvaroList
                 :: skipn (S arendeIndex) arendeInfoList)%list.
Proof. intro H. unfold handleFranvaroUpdate. now rewrite H. Qed.

Lemma nth_error_replaced {A} (l : list A) (i : nat) (x : A) :
  (i < List.length l)%nat ->
  let l' := (firstn i l ++ x :: skipn (S i) l)%list in
  List.length l' = List.length l
  /\ nth_error l' i = Some x
  /\ forall j, j <> i -> nth_error l' j = nth_error l j.
Proof.
  intros Hi l'. subst l'.
  assert (List.length (firstn i l) = i) as Hlen
    by (apply firstn_length_le; lia).
  split; [|split].
  - rewrite length_app, Hlen. cbn [List.length]. rewrite length_skipn. lia.
  - rewrite nth_error_app2 by lia. rewrite Hlen, Nat.sub_diag. reflexivity.
  - intros j Hj. destruct (Nat.lt_ge_cases j i) as [Hlt|Hge].
    + rewrite nth_error_app1 by lia. rewrite nth_error_firstn.
      destruct (Nat.ltb_spec j i); [reflexivity|lia].
    + rewrite nth_error_app2 by lia. rewrite Hlen.
      destruct (j - i)%nat as [|k] eqn:E; [lia|]. cbn [nth_error].
      rewrite nth_error_skipn. f_equal. lia.
Qed.

(** X14.  [handleFranvaroUpdate] with the index of a case replaces the
    absence list of that case and nothing else: the case list keeps its
    length, every other case is the same, and the case itself keeps its
    owner, period, recipient id and form content. *)
Theorem update_replaces_one_list
  (arendeInfoList : list Arende) (arendeIndex : nat) (arende : Arende)
  (franvaroList : list value) :
  nth_error arendeInfoList arendeIndex = Some arende ->
  exists updated,
    handleFranvaroUpdate arendeInfoList arendeIndex franvaroList
    = Replaced updated
    /\ List.length updated = List.length arendeInfoList
    /\ nth_error updated arendeIndex
       = Some (with_franvaroList arende franvaroList)
    /\ forall j, j <> arendeIndex ->
                 nth_error updated j = nth_error arendeInfoList j.
Proof.
  intro Hnth. eexists.
  split; [exact (update_in_range _ _ arende franvaroList Hnth)|].
  apply nth_error_replaced. apply nth_error_Some. congruence.
Qed.

Lemma update_replaces_one_list_witness :
  nth_error [case_no_records; case_two_records] 1 = Some case_two_records
  /\ exists updated,
       handleFranvaroUpdate [case_no_records; case_two_records] 1 []
       = Replaced updated
       /\ List.length updated = 2%nat
       /\ nth_error updated 1 = Some case_no_records
       /\ forall j, j <> 1%nat ->
                    nth_error updated j
                    = nth_error [case_no_records; case_two_records] j.
Proof.
  split; [reflexivity|].
  exact (update_replaces_one_list [case_no_records; case_two_records] 1
           case_two_records [] eq_refl).
Defined.

Lemma with_franvaroList_twice (arende : Arende) (l : list value) :
  with_franvaroList (with_franvaroList arende l) (franvaroList arende)
  = arende.
Proof. now destruct arende. Qed.

Lemma nth_error_rebuild {A} (l : list A) (i : nat) (x : A) :
  nth_error l i = Some x -> (firstn i l ++ x :: skipn (S i) l)%list = l.
Proof.
  revert i. induction l as [|a l IH]; intros [|i] H; simpl in *;
    try discriminate.
  - congruence.
  - f_equal. now apply IH.
Qed.

Lemma firstn_replaced {A} (l : list A) (i : nat) (x : A) :
  (i < List.length l)%nat ->
  firstn i (firstn i l ++ x :: skipn (S i) l) = firstn i l
  /\ skipn (S i) (firstn i l ++ x :: skipn (S i) l) = skipn (S i) l.
Proof.
  revert i. induction l as [|a l IH]; intros [|i] H; simpl in *;
    try lia; auto.
  destruct (IH i ltac:(lia)) as [H1 H2]. split; [now f_equal|exact H2].
Qed.

(** X15.  Undoing an addition restores the case list.  After
    [handleAddFranvaro] and the [handleFranvaroUpdate] it triggers, the
    new record is the last of its case; [handleRemoveFranvaro] at that
    position, followed by its [handleFranvaroUpdate], gives back exactly
    the case list from before the addition. *)
Theorem add_then_remove_restores_cases
  (arendeList : list Arende) (arendeIndex : nat) (franvaro : FormData)
  (i : nat) (added_list : list value) :
  handleAddFranvaro arendeList arendeIndex franvaro = Ok (i, added_list) ->
  exists after_add removed_list,
    handleFranvaroUpdate arendeList i added_list = Replaced after_add
    /\ handleRemoveFranvaro after_add arendeIndex
         (Z.of_nat (List.length added_list) - 1)
       = Ok (arendeIndex, removed_list)
    /\ handleFranvaroUpdate after_add arendeIndex removed_list
       = Replaced arendeList.
Proof.
  intro Hadd.
  apply handleAddFranvaro_result in Hadd as (c & m & Hc & _ & -> & ->).
  set (added := new_franvaro c franvaro m).
  assert (arendeIndex < List.length arendeList)%nat as Hi
    by (apply nth_error_Some; congruence).
  set (c' := with_franvaroList c (franvaroList c ++ [added])%list).
  destruct (nth_error_replaced arendeList arendeIndex c' Hi) as (_ & Hc' & _).
  cbv zeta in Hc'.
  exists (firstn arendeIndex arendeList ++ c' :: skipn (S arendeIndex) arendeList)%list,
         (franvaroList c).
  split; [exact (update_in_range _ _ c _ Hc)|]. split.
  - unfold handleRemoveFranvaro, current_arende. rewrite Hc'. cbn [bind].
    do 2 f_equal. cbv zeta. subst c'. cbn [franvaroList with_franvaroList].
    rewrite length_app. simpl List.length.
    replace (Z.of_nat (List.length (franvaroList c) + 1) - 1)
      with (Z.of_nat (List.length (franvaroList c))) by lia.
    rewrite splice_within by (rewrite length_app; simpl; lia).
    rewrite firstn_app, Nat.sub_diag, firstn_all. simpl firstn.
    rewrite skipn_all2 by (rewrite length_app; simpl; lia).
    now rewrite !app_nil_r.
  - rewrite (update_in_range _ _ c' _ Hc'). f_equal.
    destruct (firstn_replaced arendeList arendeIndex c' Hi) as [-> ->].
    subst c'. rewrite with_franvaroList_twice.
    now apply nth_error_rebuild.
Qed.

Lemma add_then_remove_restores_cases_witness :
  let added_list :=
    (two_records ++ [new_franvaro case_two_records sample_form (Int 2)])%list in
  handleAddFranvaro [case_two_records] 0 sample_form = Ok (0%nat, added_list)
  /\ exists after_add removed_list,
       handleFranvaroUpdate [case_two_records] 0 added_list
       = Replaced after_add
       /\ handleRemoveFranvaro after_add 0 2 = Ok (0%nat, removed_list)
       /\ handleFranvaroUpdate after_add 0 removed_list
          = Replaced [case_two_records].
Proof.
  intro added_list. split; [reflexivity|].
  exact (add_then_remove_restores_cases [case_two_records] 0 sample_form
           0 added_list eq_refl).
Defined.

Lemma modifiedXml_writes (parsedXml modified : value)
  (arendeInfoList : list Arende) :
  modifiedXml parsedXml arendeInfoList = Ok modified ->
  exists root,
    get modified "Skatteverket" = Ok root
    /\ get root "Franvarouppgift"
       = Ok (if (0 <? List.length (flat_map franvaroList arendeInfoList))%nat
             then Arr (flat_map franvaroList arendeInfoList)
             else Undefined).
Proof.
  unfold modifiedXml. intro H. peel H.
  assert (modified
          = Obj (set_field "Skatteverket"
                   (Obj (set_field "Avsandare"
                           (Obj (set_field "Programnamn"
                                   (Obj (set_field "_text" (Str PROGRAMNAMN)
                                           (spread a1)))
                                   (spread a0)))
                           (set_field "Franvarouppgift"
                              (if (0 <? List.length
                                          (flat_map franvaroList arendeInfoList))%nat
                               then Arr (flat_map franvaroList arendeInfoList)
                               else Undefined)
                              (spread a))))
                   (spread parsedXml))) as -> by congruence.
  eexists. split.
  - apply get_Obj. apply assoc_set_field_same.
  - apply get_Obj. rewrite assoc_set_field_other by discriminate.
    apply assoc_set_field_same.
Qed.

Lemma filter_m_filter (f : value -> result bool) (items kept : list value) :
  filter_m f items = Ok kept ->
  kept = filter (fun x => match f x with Ok true => true | _ => false end)
                items.
Proof.
  revert kept. induction items as [|x rest IH]; intros kept H; simpl in *.
  - congruence.
  - destruct (f x) as [keep|e]; [|discriminate]. cbn [bind] in H.
    destruct (filter_m f rest) as [kept'|e]; [|discriminate].
    cbn [bind] in H. rewrite <- (IH kept' eq_refl).
    destruct keep; congruence.
Qed.

Lemma existing_franvaro_exact (parsedXml id period : value) (l : list value) :
  existing_franvaro parsedXml id period = Ok l ->
  exists records,
    document_franvaro parsedXml = Ok records
    /\ l = filter (fun f => match same_key id period f with
                            | Ok true => true
                            | _ => false
                            end) records.
Proof.
  unfold existing_franvaro, document_franvaro. intros H.
  destruct (get parsedXml "Skatteverket") as [sk|e]; [|discriminate].
  cbn [bind] in *.
  destruct (get_opt sk "Franvarouppgift") as [fu|e]; [|discriminate].
  cbn [bind] in *. eexists. split; [reflexivity|].
  destruct (truthy fu); [|simpl; congruence].
  destruct fu; try (now apply filter_m_filter);
    simpl as_sequence; simpl filter;
    match type of H with
    | bind (same_key id period ?x) _ = _ =>
        destruct (same_key id period x) as [[|]|]; cbn [bind] in H;
        congruence
    end.
Qed.

Lemma extracted_lists_exact (parsedXml : value) (cases : list Arende) :
  extractArendeInformation parsedXml = Ok (Some cases) ->
  exists records,
    document_franvaro parsedXml = Ok records
    /\ forall c, In c cases ->
                 franvaroList c = filter (carries_key c) records.
Proof.
  intro Hextract.
  destruct (extractCases_selection_and_matching parsedXml cases Hextract)
    as (_ & _ & records & _ & _ & _ & _ & Hdoc & _).
  exists records. split; [assumption|]. intros c Hc.
  unfold extractArendeInformation in Hextract.
  destruct (falsy parsedXml); [discriminate|].
  destruct (get parsedXml "Skatteverket") as [sk|e]; [|discriminate].
  cbn [bind] in Hextract.
  destruct (get_opt sk "Blankett") as [bl|e]; [|discriminate].
  cbn [bind] in Hextract.
  destruct (filter_m contains_IU _) as [selected|e]; [|discriminate].
  cbn [bind] in Hextract.
  destruct (map_indexed _ selected 0) as [cs|e] eqn:Emap; [|discriminate].
  cbn [bind] in Hextract. assert (cs = cases) by congruence. subst cs.
  destruct (map_indexed_In _ _ _ _ Emap c Hc) as (b & j & _ & Hb).
  apply arende_of_franvaroList in Hb.
  destruct (existing_franvaro_exact _ _ _ _ Hb) as (records' & Hr & ->).
  assert (records' = records) by congruence. subst records'. reflexivity.
Qed.

Lemma flat_map_agree {A B} (f g : A -> list B) (l : list A) :
  (forall a, In a l -> f a = g a) -> flat_map f l = flat_map g l.
Proof.
  induction l as [|a l IH]; intro H; simpl; [reflexivity|].
  rewrite (H a) by now left. rewrite IH; [reflexivity|].
  intros a' Ha'. apply H. now right.
Qed.

(** X16.  What a download writes is what the cases hold, not what the
    upload held.  When the case list is the one that
    [extractArendeInformation] read from the document, the
    Franvarouppgift that [generateModifiedXML] writes is, case after case
    in the order of the cases, the list of the document's records (in
    document order) that carry the recipient id and the period of that
    case.  So a record of the uploaded document that matches no case is
    left out of the downloaded one, and a record that matches several
    cases is written once for each of them. *)
Theorem download_writes_the_records_of_each_case
  (parsedXml modified : value) (cases : list Arende) :
  extractArendeInformation parsedXml = Ok (Some cases) ->
  modifiedXml parsedXml cases = Ok modified ->
  exists records written root,
    document_franvaro parsedXml = Ok records
    /\ get modified "Skatteverket" = Ok root
    /\ get root "Franvarouppgift"
       = Ok (if (0 <? List.length written)%nat then Arr written
             else Undefined)
    /\ written = flat_map (fun c => filter (carries_key c) records) cases
    /\ (forall f,
          In f written
          <-> In f records /\ exists c, In c cases /\ carries_key c f = true).
Proof.
  intros Hextract Hbuild.
  destruct (extracted_lists_exact parsedXml cases Hextract)
    as (records & Hrec & Hlists).
  destruct (modifiedXml_writes parsedXml modified cases Hbuild)
    as (root & Hroot & Hwritten).
  exists records, (flat_map franvaroList cases), root.
  split; [assumption|]. split; [assumption|]. split; [assumption|].
  assert (flat_map franvaroList cases
          = flat_map (fun c => filter (carries_key c) records) cases) as E
    by (now apply flat_map_agree).
  split; [exact E|].
  intro f. rewrite E, in_flat_map. split.
  - intros (c & Hc & Hf). apply filter_In in Hf as [Hin Hkey]. eauto.
  - intros (Hin & c & Hc & Hkey). exists c. split; [assumption|].
    apply filter_In. auto.
Qed.

Lemma download_writes_the_records_of_each_case_witness :
  exists cases modified,
    extractArendeInformation document_unmatched_record = Ok (Some cases)
    /\ modifiedXml document_unmatched_record cases = Ok modified
    /\ exists records written root,
         document_franvaro document_unmatched_record = Ok records
         /\ get modified "Skatteverket" = Ok root
         /\ get root "Franvarouppgift"
            = Ok (if (0 <? List.length written)%nat then Arr written
                  else Undefined)
         /\ written
            = flat_map (fun c => filter (carries_key c) records) cases
         /\ (forall f,
               In f written
               <-> In f records
                   /\ exists c, In c cases /\ carries_key c f = true).
Proof.
  eexists. eexists. split; [reflexivity|]. split; [reflexivity|].
  apply download_writes_the_records_of_each_case; reflexivity.
Defined.

(** On that document the second record, whose recipient has no form, is
    not written; on a document with two forms of one key and one record
    of that key, the record is written twice. *)
Example download_drops_and_repeats :
  (exists cases modified root,
     extractArendeInformation document_unmatched_record = Ok (Some cases)
     /\ modifiedXml document_unmatched_record cases = Ok modified
     /\ get modified "Skatteverket" = Ok root
     /\ get root "Franvarouppgift"
        = Ok (Arr [sample_franvaro "198001011234" "202401" "1"]))
  /\ (exists cases modified root,
        extractArendeInformation document_repeated_key = Ok (Some cases)
        /\ modifiedXml document_repeated_key cases = Ok modified
        /\ get modified "Skatteverket" = Ok root
        /\ get root "Franvarouppgift"
           = Ok (Arr [shared_record; shared_record])).
Proof.
  split; do 3 eexists; (split; [reflexivity|]); (split; [reflexivity|]);
    split; reflexivity.
Qed.

(* ================================================================== *)
(** * Further properties: from an accepted upload to the download *)
(* ================================================================== *)

Lemma get_set_field_other (fields : list (string * value)) (k k' : string)
  (v : value) :
  k' <> k ->
  get (Obj (set_field k v fields)) k' = get (Obj fields) k'.
Proof.
  intro H. unfold get, member, own. cbn [is_function andb].
  now rewrite assoc_set_field_other.
Qed.

Lemma text_of_set_field_other (fields : list (string * value))
  (k k' : string) (v : value) :
  k' <> k ->
  text_of (Obj (set_field k v fields)) k' = text_of (Obj fields) k'.
Proof. intro H. unfold text_of. now rewrite get_set_field_other. Qed.

Lemma get_set_field_same (fields : list (string * value)) (k : string)
  (v : value) :
  get (Obj (set_field k v fields)) k = Ok v.
Proof. apply get_Obj. apply assoc_set_field_same. Qed.

Lemma get_Obj_inv (fields : list (string * value)) (k : string) (v x : value) :
  assoc k fields = Some v -> get (Obj fields) k = Ok x -> x = v.
Proof. intros Ha Hg. rewrite (get_Obj _ _ _ Ha) in Hg. congruence. Qed.

Lemma complete_stays_complete
  (rootFields skFields avFields : list (string * value))
  (arendeInfoList : list Arende) :
  NoDup (keys rootFields) ->
  assoc "Skatteverket" rootFields = Some (Obj skFields) ->
  NoDup (keys skFields) ->
  assoc "Avsandare" skFields = Some (Obj avFields) ->
  NoDup (keys avFields) ->
  declaration_complete (Obj rootFields) ->
  Forall record_complete (flat_map franvaroList arendeInfoList) ->
  exists modified,
    modifiedXml (Obj rootFields) arendeInfoList = Ok modified
    /\ declaration_complete modified.
Proof.
  intros Nroot Hsk Nsk Hav Nav Hc Hrecords.
  destruct Hc as (_ & root & Hroot & _ & Hns & Hsender & Hforms & _).
  apply (get_Obj_inv _ _ _ _ Hsk) in Hroot. subst root.
  destruct Hsender as (av & kp & Hav' & _ & Hpn & Horg & Hkp & Tkp & Hcontact
                       & Hskapad).
  apply (get_Obj_inv _ _ _ _ Hav) in Hav'. subst av.
  unfold modifiedXml. cbv zeta.
  rewrite (get_Obj _ _ _ Hsk). cbn [bind].
  rewrite (get_Obj _ _ _ Hav). cbn [bind].
  change (get (Obj avFields) "Programnamn")
    with (Ok (member (Obj avFields) "Programnamn")).
  cbn [bind].
  rewrite (spread_Obj avFields Nav), (spread_Obj skFields Nsk),
    (spread_Obj rootFields Nroot).
  eexists. split; [reflexivity|].
  split; [reflexivity|].
  eexists. split; [apply get_set_field_same|]. split; [reflexivity|].
  split; [|split; [|split]].
  - destruct Hns as (a & Ha & Hrest). exists a.
    rewrite !get_set_field_other by discriminate. auto.
  - eexists. exists kp.
    split; [apply get_set_field_same|]. split; [reflexivity|].
    split; [|split; [|split; [|split; [|split]]]].
    + exists (Str PROGRAMNAMN). split; [|reflexivity].
      unfold text_of. rewrite get_set_field_same. cbn [bind].
      unfold getTextContent. cbn [falsy truthy negb is_string].
      rewrite get_set_field_same. reflexivity.
    + destruct Horg as (t & [Ht Tt] & Hd). exists t.
      split; [|assumption]. split; [|assumption].
      now rewrite text_of_set_field_other by discriminate.
    + now rewrite get_set_field_other by discriminate.
    + assumption.
    + assumption.
    + destruct Hskapad as (t & [Ht Tt]). exists t. split; [|assumption].
      now rewrite text_of_set_field_other by discriminate.
  - destruct Hforms as (bl & Hbl & Hrest). exists bl.
    rewrite !get_set_field_other by discriminate. auto.
  - eexists. split.
    + rewrite get_set_field_other by discriminate. apply get_set_field_same.
    + destruct (flat_map franvaroList arendeInfoList); [discriminate|].
      intros _. exact Hrecords.
Qed.

(** X17.  Editing keeps an accepted document accepted.  Take a document
    that raised no message (its root, its Skatteverket and its Avsandare
    being objects whose property names are pairwise different) and any
    case list whose records each raise no message in the validator's
    absence-record rules.  Then [generateModifiedXML] builds a tree that
    again raises no message: the new program name and the replaced
    Franvarouppgift break no rule, and nothing else the rules look at is
    touched. *)
Theorem accepted_document_stays_accepted
  (rootFields skFields avFields : list (string * value))
  (arendeInfoList : list Arende) :
  NoDup (keys rootFields) ->
  assoc "Skatteverket" rootFields = Some (Obj skFields) ->
  NoDup (keys skFields) ->
  assoc "Avsandare" skFields = Some (Obj avFields) ->
  NoDup (keys avFields) ->
  validate_parsed (Obj rootFields) = Ok accepted ->
  (forall arende f index,
     In arende arendeInfoList -> In f (franvaroList arende) ->
     check_franvaro f index = Ok []) ->
  exists modified,
    modifiedXml (Obj rootFields) arendeInfoList = Ok modified
    /\ validate_parsed modified = Ok accepted.
Proof.
  intros Nroot Hsk Nsk Hav Nav Hvalid Hrecords.
  apply validate_parsed_accepts in Hvalid.
  destruct (complete_stays_complete rootFields skFields avFields
              arendeInfoList Nroot Hsk Nsk Hav Nav Hvalid)
    as (modified & Hm & Hc).
  - apply Forall_forall. intros f Hin.
    apply in_flat_map in Hin as (arende & Ha & Hf).
    apply (check_franvaro_nil f 0). now apply (Hrecords arende).
  - exists modified. split; [assumption|].
    now apply validate_parsed_accepts.
Qed.


Lemma accepted_document_stays_accepted_witness :
  let rootFields :=
    sample_root "kim@example.se"
      (sample_blankett "165560269986" "202401" "198001011234") in
  validate_parsed (Obj rootFields) = Ok accepted
  /\ exists modified,
       modifiedXml (Obj rootFields) [case_two_records] = Ok modified
       /\ validate_parsed modified = Ok accepted.
Proof.
  intro rootFields. split; [reflexivity|].
  apply (accepted_document_stays_accepted rootFields
           (sample_skatteverket "kim@example.se"
              (sample_blankett "165560269986" "202401" "198001011234"))
           (sample_avsandare "kim@example.se") [case_two_records]).
  - repeat constructor; simpl; intuition discriminate.
  - reflexivity.
  - repeat constructor; simpl; intuition discriminate.
  - reflexivity.
  - repeat constructor; simpl; intuition discriminate.
  - reflexivity.
  - intros arende f index [<-|[]] [<-|[<-|[]]]; reflexivity.
Defined.


